(** * jito-go: bundle confirmation, authentication refresh and connection health

    A shallow embedding of the Go sources
      - [pkg/tx_extract.go]           (signature extraction, [CreateGRPCConnection])
      - [pkg] status helpers           ([CheckSignatureStatuses], [ValidateSignatureStatuses])
      - [block-engine/types.go]        (rejection errors)
      - [block-engine/bundle.go]       ([SendBundleWithConfirmation] and its helpers)
      - [block-engine/searcher.go]     ([NewSearcherClient])
      - [pkg/block-engine/authenticator.go] ([AuthenticationService])
    followed by the properties established about them.

    Conventions.  A Go function that returns [(T, error)] and may also panic is
    a function into [outcome T].  Collaborators that live outside the
    repository (the gRPC stubs, the Solana RPC client, [net/url], the clock)
    are fields of an environment record, indexed by the number of calls made so
    far, and every state change is explicit state passing.  Durations are
    [time.Duration] values: integers counting nanoseconds. *)

From Stdlib Require Import ZArith NArith List String Ascii Bool Lia Arith.
From Stdlib Require Import DecimalString.
Import ListNotations.
Open Scope string_scope.
Open Scope list_scope.
Open Scope Z_scope.

(** String concatenation, as Go's [+] on strings. *)
Infix "+++" := String.append (right associativity, at level 60).

(* ================================================================== *)
(** ** Go runtime values shared by all packages *)

Module Go.

(** Go [error] values, by the way the sources build them. *)
Inductive error : Type :=
| errorString (s : string)                 (* errors.New, fmt.Errorf without %w *)
| wrapError (prefix : string) (inner : error)   (* fmt.Errorf("...: %w", err) *)
| BundleRejectionError (Message : string)  (* block-engine/types.go *)
| foreign (descr : string).                (* raised by a collaborator *)

(** The [Error()] method. *)
Fixpoint Error (e : error) : string :=
  match e with
  | errorString s => s
  | wrapError p inner => p +++ Error inner
  | BundleRejectionError m => m
  | foreign d => d
  end.

(** Result of running a Go function: normal return of a value, normal
    return of a non-nil [error], or a runtime panic. *)
Inductive outcome (A : Type) : Type :=
| Ok (a : A)
| Err (e : error)
| Panic (msg : string).
Arguments Ok {A} a.
Arguments Err {A} e.
Arguments Panic {A} msg.

Definition is_Ok {A} (o : outcome A) : bool :=
  match o with Ok _ => true | _ => false end.

(** [time.Duration] constants. *)
Definition Duration := Z.
Definition Second : Duration := 1000000000.
Definition Minute : Duration := 60 * Second.

(** A [time.Duration] is an int64: its bounds, and the wrap-around of
    int64 arithmetic. *)
Definition minDuration : Duration := - 2 ^ 63.
Definition maxDuration : Duration := 2 ^ 63 - 1.

Definition wrap64 (z : Z) : Z := (z + 2 ^ 63) mod 2 ^ 64 - 2 ^ 63.

(** [t.Sub(u)] for instants counted in nanoseconds since the epoch: the
    difference, or the minimum or maximum Duration when it does not fit. *)
Definition time_Sub (t u : Z) : Duration :=
  Z.max minDuration (Z.min maxDuration (t - u)).

(** [time.Until(t)] when the clock reads [now]. *)
Definition time_Until (now t : Z) : Duration := time_Sub t now.

(** Seconds from the year 1 to 1970: [unixToInternal] of package time. *)
Definition unixToInternal : Z := 62135596800.

(** [time.Unix(sec, nsec)], as the instant it denotes.  The nanoseconds
    are carried into the seconds, and a time.Time counts its seconds from
    the year 1 in an int64: for seconds that do not fit, the sum wraps
    around. *)
Definition time_Unix (sec nsec : Z) : Z :=
  (wrap64 (sec + nsec / Second + unixToInternal) - unixToInternal) * Second
  + nsec mod Second.

(** [%d] of an unsigned integer. *)
Definition fmt_d (n : N) : string := NilEmpty.string_of_uint (N.to_uint n).

(** A Go channel of errors: its capacity (0 for [make(chan error)]) and
    the values currently buffered, oldest first. *)
Record chan : Type := mkChan { cap : nat; buf : list error }.

Definition make_chan (n : nat) : chan := {| cap := n; buf := [] |}.

(** [ch <- e] executed while no receiver is waiting: it completes only
    when the buffer has room; otherwise the sender stays blocked
    ([None]). *)
Definition send (ch : chan) (e : error) : option chan :=
  if Nat.ltb (List.length (buf ch)) (cap ch)
  then Some {| cap := cap ch; buf := buf ch ++ [e] |}
  else None.

(** [<-ch] on a channel with a buffered value. *)
Definition recv (ch : chan) : option (error * chan) :=
  match buf ch with
  | [] => None
  | e :: rest => Some (e, {| cap := cap ch; buf := rest |})
  end.

End Go.
Import Go.

(* ================================================================== *)
(** ** The collaborators' data, as the sources use it *)

Module Solana.

Definition Signature := list Byte.byte.

Record Transaction : Type := mkTransaction {
  Signatures : list Signature;
  Message : list Byte.byte
}.

(** rpc.SignatureStatusesResult; [ConfirmationStatus] is a string type. *)
Record SignatureStatusesResult : Type := mkStatus {
  Slot : N;
  ConfirmationStatus : string
}.

Definition ConfirmationStatusProcessed := "processed".
Definition ConfirmationStatusConfirmed := "confirmed".
Definition ConfirmationStatusFinalized := "finalized".

(** rpc.GetSignatureStatusesResult: a slice of pointers, [None] is nil. *)
Record GetSignatureStatusesResult : Type := mkStatuses {
  Value : list (option SignatureStatusesResult)
}.

End Solana.
Import Solana.

(* ================================================================== *)
(** ** pkg: signature extraction and status checks *)

Module Pkg.

Definition index_panic : string :=
  "runtime error: index out of range [0] with length 0".
Definition nil_panic : string :=
  "runtime error: invalid memory address or nil pointer dereference".

(** [tx.Signatures[0]] *)
Definition ExtractSigFromTx (tx : Transaction) : outcome Signature :=
  match Signatures tx with
  | s :: _ => Ok s
  | [] => Panic index_panic
  end.

(** The [for _, tx := range txs] loop with its accumulator [sigs]. *)
Fixpoint BatchExtract_loop (sigs : list Signature) (txs : list Transaction)
  : outcome (list Signature) :=
  match txs with
  | [] => Ok sigs
  | tx :: rest =>
      match Signatures tx with
      | s :: _ => BatchExtract_loop (sigs ++ [s]) rest
      | [] => Panic index_panic
      end
  end.

Definition BatchExtractSigFromTx (txs : list Transaction)
  : outcome (list Signature) :=
  BatchExtract_loop [] txs.

Fixpoint CheckSignatureStatuses_loop
  (v : list (option SignatureStatusesResult)) : bool :=
  match v with
  | [] => true
  | None :: _ => false
  | Some _ :: rest => CheckSignatureStatuses_loop rest
  end.

Definition CheckSignatureStatuses (statuses : GetSignatureStatusesResult)
  : bool :=
  CheckSignatureStatuses_loop (Value statuses).

Definition status_err : error :=
  errorString "searcher service did not provide bundle status in time".

(** [Ok tt] is the nil error.  A nil entry is dereferenced. *)
Fixpoint ValidateSignatureStatuses_loop
  (v : list (option SignatureStatusesResult)) : outcome unit :=
  match v with
  | [] => Ok tt
  | None :: _ => Panic nil_panic
  | Some status :: rest =>
      if negb (String.eqb (ConfirmationStatus status) ConfirmationStatusProcessed)
         && negb (String.eqb (ConfirmationStatus status) ConfirmationStatusConfirmed)
      then Err status_err
      else ValidateSignatureStatuses_loop rest
  end.

Definition ValidateSignatureStatuses (statuses : GetSignatureStatusesResult)
  : outcome unit :=
  ValidateSignatureStatuses_loop (Value statuses).

End Pkg.

(* ================================================================== *)
(** ** The wire messages of the bundle protocol

    Generated protobuf types of the block-engine protocol.  A [oneof] is a Go
    interface value: it may be nil ([None]); [optional string] is a pointer. *)

Module BundlePb.

Record Accepted : Type := mkAccepted {
  Slot : N;
  ValidatorIdentity : string
}.

Inductive Rejected_Reason : Type :=
| Rejected_StateAuctionBidRejected (AuctionId : string) (SimulatedBidLamports : N)
| Rejected_WinningBatchBidRejected (AuctionId : string) (SimulatedBidLamports : N)
| Rejected_SimulationFailure (TxSignature : string) (Msg : option string)
| Rejected_InternalError (Msg : string)
| Rejected_DroppedBundle (Msg : string).

Record Rejected : Type := mkRejected { Reason : option Rejected_Reason }.

Inductive BundleResult_Result : Type :=
| BundleResult_Accepted (a : Accepted)
| BundleResult_Rejected (r : Rejected).

Record BundleResult : Type := mkBundleResult {
  BundleId : string;
  Result : option BundleResult_Result
}.

(** [GetMsg()] of a SimulationFailure: the empty string for a nil pointer. *)
Definition GetMsg (m : option string) : string :=
  match m with Some s => s | None => "" end.

Record Meta : Type := mkMeta {
  Size : N; Addr : string; Port : N; SenderStake : N
}.

Record Packet : Type := mkPacket { Data : list Byte.byte; PacketMeta : option Meta }.

Record Bundle : Type := mkBundle { Packets : list Packet }.

Record SendBundleResponse : Type := mkSendBundleResponse { Uuid : string }.

End BundlePb.
Import BundlePb.

(* ================================================================== *)
(** ** block-engine: rejection errors and bundle confirmation *)

Module BlockEngine.

(** *** types.go *)

Record BundleResponse : Type := mkBundleResponse {
  Response : SendBundleResponse;          (* field BundleResponse *)
  Signatures : list Signature
}.

Definition NewStateAuctionBidRejectedError (auction : string) (tip : N) : error :=
  BundleRejectionError
    ("bundle lost state auction, auction: " +++ auction +++ ", tip "
       +++ fmt_d tip +++ " lamports").

Definition NewWinningBatchBidRejectedError (auction : string) (tip : N) : error :=
  BundleRejectionError
    ("bundle won state auction but failed global auction, auction " +++ auction
       +++ ", tip " +++ fmt_d tip +++ " lamports").

Definition NewSimulationFailureError (tx message : string) : error :=
  BundleRejectionError
    ("bundle simulation failure on tx " +++ tx +++ ", message: " +++ message).

Definition NewInternalError (message : string) : error :=
  BundleRejectionError ("internal error " +++ message).

Definition NewDroppedBundle (message : string) : error :=
  BundleRejectionError ("bundle dropped " +++ message).

(** *** bundle.go: constants *)

Definition CheckBundleRetries : nat := 5.
Definition CheckBundleRetryDelay : Duration := 5 * Second.
Definition SignaturesConfirmationTimeout : Duration := 15 * Second.
Definition SignaturesConfirmationRetryDelay : Duration := 1 * Second.

(** *** The collaborators of a [SearcherClient] *)

Record Env : Type := mkEnv {
  (* solana.Transaction.MarshalBinary *)
  MarshalBinary : Transaction -> outcome (list Byte.byte);
  (* SearcherService.SendBundle *)
  rpc_SendBundle : Bundle -> outcome SendBundleResponse;
  (* AuthenticationService.GRPCCtx at the select of outer iteration i:
     [Some e] when Done() is closed, with Err() = e *)
  GRPCCtx_Err : nat -> option error;
  (* BundleStreamSubscription.Recv, by call number: what the call returns.
     Recv has no deadline; a stream on which it never returns is not among
     these values *)
  Stream_Recv : nat -> outcome BundleResult;
  (* RPCConn.GetSignatureStatuses, by call number: time taken, answer *)
  GetSignatureStatuses : nat -> list Signature -> N * outcome GetSignatureStatusesResult
}.

(** What a call changes outside its return value. *)
Record World : Type := mkWorld {
  now : Z;                    (* the monotonic clock, in nanoseconds *)
  recvCalls : nat;            (* Recv calls made on the stream *)
  statusCalls : nat;          (* GetSignatureStatuses calls made *)
  output : list string        (* lines written by log.Println *)
}.

Definition Sleep (d : Duration) (w : World) : World :=
  {| now := now w + d; recvCalls := recvCalls w;
     statusCalls := statusCalls w; output := output w |}.

Definition Println (line : string) (w : World) : World :=
  {| now := now w; recvCalls := recvCalls w;
     statusCalls := statusCalls w; output := output w ++ [line] |}.

(** *** pkg/tx_convert.go, used by NewBundle *)

Definition ConvertTransactionToProtobufPacket (env : Env) (tx : Transaction)
  : outcome Packet :=
  match MarshalBinary env tx with
  | Ok data =>
      Ok {| Data := data;
            PacketMeta := Some {| Size := N.of_nat (List.length data); Addr := "";
                                  Port := 0%N; SenderStake := 0%N |} |}
  | Err e => Err e
  | Panic p => Panic p
  end.

Fixpoint ConvertBatch_loop (env : Env) (packets : list Packet)
  (txs : list Transaction) : outcome (list Packet) :=
  match txs with
  | [] => Ok packets
  | tx :: rest =>
      match ConvertTransactionToProtobufPacket env tx with
      | Ok packet => ConvertBatch_loop env (packets ++ [packet]) rest
      | Err e => Err e
      | Panic p => Panic p
      end
  end.

Definition ConvertBatchTransactionToProtobufPacket (env : Env)
  (txs : list Transaction) : outcome (list Packet) :=
  ConvertBatch_loop env [] txs.

(** *** bundle.go *)

Definition NewBundle (env : Env) (txs : list Transaction) : outcome Bundle :=
  match ConvertBatchTransactionToProtobufPacket env txs with
  | Ok packets => Ok {| Packets := packets |}
  | Err e => Err e
  | Panic p => Panic p
  end.

Definition SendBundle (env : Env) (txs : list Transaction)
  : outcome SendBundleResponse :=
  match NewBundle env txs with
  | Ok bundle => rpc_SendBundle env bundle
  | Err e => Err e
  | Panic p => Panic p
  end.

Definition receiveBundleResult (env : Env) (w : World)
  : outcome BundleResult * World :=
  (Stream_Recv env (recvCalls w),
   {| now := now w; recvCalls := S (recvCalls w);
      statusCalls := statusCalls w; output := output w |}).

(** [None] is the nil error. *)
Definition handleBundleResult (bundleResult : BundleResult) : option error :=
  match Result bundleResult with
  | Some (BundleResult_Accepted _) => None
  | Some (BundleResult_Rejected rejected) =>
      match Reason rejected with
      | Some (Rejected_SimulationFailure sig msg) =>
          Some (NewSimulationFailureError sig (GetMsg msg))
      | Some (Rejected_StateAuctionBidRejected auction lamports) =>
          Some (NewStateAuctionBidRejectedError auction lamports)
      | Some (Rejected_WinningBatchBidRejected auction lamports) =>
          Some (NewWinningBatchBidRejectedError auction lamports)
      | Some (Rejected_InternalError msg) => Some (NewInternalError msg)
      | Some (Rejected_DroppedBundle msg) => Some (NewDroppedBundle msg)
      | None => None                      (* default: return nil *)
      end
  | None => None
  end.

Definition timeout_err : error :=
  errorString "operation timed out after 15 seconds".

(** The [for { ... }] of waitForSignatureStatuses.  [fuel] bounds the
    number of rounds of the model; [None] means the bound was hit. *)
Fixpoint waitLoop (env : Env) (fuel : nat) (start : Z)
  (txs : list Transaction) (w : World)
  : option (outcome GetSignatureStatusesResult * World) :=
  match fuel with
  | O => None
  | S fuel' =>
      match Pkg.BatchExtractSigFromTx txs with
      | Panic p => Some (Panic p, w)
      | Err e => Some (Err e, w)
      | Ok sigs =>
          let '(took, answer) := GetSignatureStatuses env (statusCalls w) sigs in
          let w1 := {| now := now w + Z.of_N took; recvCalls := recvCalls w;
                       statusCalls := S (statusCalls w); output := output w |} in
          match answer with
          | Panic p => Some (Panic p, w1)
          | Err e => Some (Err e, w1)
          | Ok statuses =>
              if Pkg.CheckSignatureStatuses statuses then Some (Ok statuses, w1)
              else if now w1 - start >? SignaturesConfirmationTimeout
                   then Some (Err timeout_err, w1)
                   else waitLoop env fuel' start txs
                          (Sleep SignaturesConfirmationRetryDelay w1)
          end
      end
  end.

(** Every round but the last sleeps a second, and a round that starts more
    than 15 seconds after [start] is the last: 17 rounds are enough. *)
Definition wait_rounds : nat := 17.

Definition waitForSignatureStatuses (env : Env) (txs : list Transaction)
  (w : World) : option (outcome GetSignatureStatusesResult * World) :=
  waitLoop env wait_rounds (now w) txs w.

Definition max_retries_err : error :=
  errorString ("BroadcastBundleWithConfirmation error: max retries ("
                 +++ fmt_d (N.of_nat CheckBundleRetries) +++ ") exceeded").

(** How one pass through the body of the confirmation loop ends. *)
Inductive pass : Type :=
| Return (r : outcome BundleResponse)
| Continue.

(** Lines 61-76: poll the statuses, validate them, build the response. *)
Definition confirm (env : Env) (resp : SendBundleResponse)
  (txs : list Transaction) (w : World) : option (pass * World) :=
  match waitForSignatureStatuses env txs w with
  | None => None
  | Some (Panic p, w') => Some (Return (Panic p), w')
  | Some (Err _, w') => Some (Continue, w')
  | Some (Ok statuses, w') =>
      match Pkg.ValidateSignatureStatuses statuses with
      | Panic p => Some (Return (Panic p), w')
      | Err _ => Some (Continue, w')
      | Ok _ =>
          match Pkg.BatchExtractSigFromTx txs with
          | Ok sigs => Some (Return (Ok {| Response := resp; Signatures := sigs |}), w')
          | Err e => Some (Return (Err e), w')
          | Panic p => Some (Return (Panic p), w')
          end
      end
  end.

(** The body of the [for i := 0; i < CheckBundleRetries; i++] loop. *)
Definition iteration (env : Env) (resp : SendBundleResponse)
  (txs : list Transaction) (i : nat) (w : World) : option (pass * World) :=
  match GRPCCtx_Err env i with
  | Some e => Some (Return (Err e), w)
  | None =>
      let w1 := Sleep CheckBundleRetryDelay w in
      let '(received, w2) := receiveBundleResult env w1 in
      match received with
      | Panic p => Some (Return (Panic p), w2)
      | Err e =>
          confirm env resp txs
            (Println ("error while receiving bundle result: " +++ Error e) w2)
      | Ok bundleResult =>
          match handleBundleResult bundleResult with
          | Some e => Some (Return (Err e), w2)
          | None => confirm env resp txs (Println "Bundle was sent." w2)
          end
      end
  end.

(** The loop itself: [remaining] passes are left, the next has index [i]. *)
Fixpoint confirmation_loop (env : Env) (resp : SendBundleResponse)
  (txs : list Transaction) (remaining i : nat) (w : World)
  : option (outcome BundleResponse * World) :=
  match remaining with
  | O => Some (Err max_retries_err, w)
  | S remaining' =>
      match iteration env resp txs i w with
      | None => None
      | Some (Return r, w') => Some (r, w')
      | Some (Continue, w') => confirmation_loop env resp txs remaining' (S i) w'
      end
  end.

Definition SendBundleWithConfirmation (env : Env) (txs : list Transaction)
  (w : World) : option (outcome BundleResponse * World) :=
  match SendBundle env txs with
  | Err e => Some (Err e, w)
  | Panic p => Some (Panic p, w)
  | Ok resp => confirmation_loop env resp txs CheckBundleRetries 0 w
  end.

(** The state reached after the first [k] passes, when none of them
    returned; [None] otherwise. *)
Fixpoint after_passes (env : Env) (resp : SendBundleResponse)
  (txs : list Transaction) (k i : nat) (w : World) : option World :=
  match k with
  | O => Some w
  | S k' =>
      match iteration env resp txs i w with
      | Some (Continue, w') => after_passes env resp txs k' (S i) w'
      | _ => None
      end
  end.

End BlockEngine.

(* ================================================================== *)
(** ** pkg: CreateGRPCConnection and its connection monitor *)

Module Conn.

(** What [CreateGRPCConnection] reads from a parsed [*url.URL]. *)
Record URL : Type := mkURL {
  Scheme : string;
  Hostname : string;      (* u.Hostname() *)
  Port : string           (* u.Port() *)
}.

Inductive TransportCredentials : Type :=
| insecure_NewCredentials
| NewClientTLSFromCert.   (* system certificate pool, empty server name *)

Record ClientParameters : Type := mkKeepalive {
  Time : Duration; Timeout : Duration; PermitWithoutStream : bool
}.

Definition kacp : ClientParameters :=
  {| Time := 10 * Second; Timeout := 5 * Second; PermitWithoutStream := true |}.

Inductive DialOption : Type :=
| WithTransportCredentials (c : TransportCredentials)
| WithKeepaliveParams (p : ClientParameters)
| CallerOption (name : string).

(** connectivity.State *)
Inductive State : Type := Idle | Connecting | Ready | TransientFailure | Shutdown.

(** A [*grpc.ClientConn] is the number of the dial that made it. *)
Definition ClientConn := nat.

Record Env : Type := mkEnv {
  url_Parse : string -> outcome URL;
  (* grpc.DialContext, by call number: [None] is success *)
  DialContext : nat -> string -> list DialOption -> option error
}.

(** The calls made on the transport, the clock and the error channel. *)
Inductive action : Type :=
| Dial (address : string) (opts : list DialOption)
| Close (c : ClientConn)
| ResetConnectBackoff (c : ClientConn)
| WaitForStateChange (c : ClientConn) (s : State)
| TimeSleep (d : Duration)
| SendErr (e : error).       (* chErr <- e; completes when it is received *)

(** What the goroutine started by [CreateGRPCConnection] closes over. *)
Record Monitor : Type := mkMonitor {
  conn : option ClientConn;        (* nil after a failed redial *)
  address : string;
  dialOpts : list DialOption;
  retries : Z;
  dialsMade : nat
}.

Definition required_err : error := errorString "gRPC address is required".
Definition format_err : error :=
  errorString "please provide URL format endpoint e.g. http(s)://<endpoint>:<port>".

(** Lines 48-101: up to the start of the goroutine.  The second component
    lists the dials attempted. *)
Definition CreateGRPCConnection (env : Env) (grpcAddr : string)
  (opts : list DialOption) : outcome Monitor * list action :=
  if String.eqb grpcAddr "" then (Err required_err, [])
  else
    match url_Parse env grpcAddr with
    | Panic p => (Panic p, [])
    | Err e => (Err (wrapError "could not parse grpcAddr: " e), [])
    | Ok u =>
        let insecureConnection := String.eqb (Scheme u) "http" in
        let port :=
          if String.eqb (Port u) ""
          then (if insecureConnection then "80" else "443")
          else Port u in
        let hostname := Hostname u in
        if String.eqb hostname "" then (Err format_err, [])
        else
          let address := hostname +++ ":" +++ port in
          let opts1 :=
            if insecureConnection
            then opts ++ [WithTransportCredentials insecure_NewCredentials]
            else opts ++ [WithTransportCredentials NewClientTLSFromCert] in
          let opts2 := opts1 ++ [WithKeepaliveParams kacp] in
          match DialContext env 0 address opts2 with
          | Some e =>
              (Err (wrapError "could not create gRPC connection: " e),
               [Dial address opts2])
          | None =>
              (Ok {| conn := Some 0%nat; address := address; dialOpts := opts2;
                     retries := 0; dialsMade := 1 |},
               [Dial address opts2])
          end
    end.

(** What one pass of the monitor's loop observes. *)
Record Observation : Type := mkObservation {
  ctxDone : bool;                 (* <-ctx.Done() is ready *)
  state : State;                  (* conn.GetState() *)
  closeErr : option error         (* conn.Close() *)
}.

Inductive status : Type := Running | Stopped | Crashed.

(** [conn, err = grpc.DialContext(ctx, address, opts...)] with the push of
    its error, and [retries = 0].  The push is listed as done: the passes
    described here are those in which somebody receives it. *)
Definition redial (env : Env) (m : Monitor) : list action * Monitor :=
  match DialContext env (dialsMade m) (address m) (dialOpts m) with
  | None =>
      ([Dial (address m) (dialOpts m)],
       {| conn := Some (dialsMade m); address := address m;
          dialOpts := dialOpts m; retries := 0; dialsMade := S (dialsMade m) |})
  | Some e =>
      ([Dial (address m) (dialOpts m); SendErr e],
       {| conn := None; address := address m;
          dialOpts := dialOpts m; retries := 0; dialsMade := S (dialsMade m) |})
  end.

(** [conn.WaitForStateChange(ctx, state)]: both results lead to the next
    pass; a nil [conn] is dereferenced. *)
Definition await (s : State) (r : list action * Monitor)
  : list action * Monitor * status :=
  match conn (snd r) with
  | Some c => (fst r ++ [WaitForStateChange c s], snd r, Running)
  | None => (fst r, snd r, Crashed)
  end.

Definition set_retries (n : Z) (m : Monitor) : Monitor :=
  {| conn := conn m; address := address m; dialOpts := dialOpts m;
     retries := n; dialsMade := dialsMade m |}.

(** One pass of the [for { select { ... } }] of lines 106-150. *)
Definition monitor_pass (env : Env) (m : Monitor) (o : Observation)
  : list action * Monitor * status :=
  match conn m with
  | None => ([], m, Crashed)
  | Some c =>
      if ctxDone o then
        match closeErr o with
        | Some e => ([Close c; SendErr e], m, Stopped)
        | None => ([Close c], m, Stopped)
        end
      else
        match state o with
        | Ready => ([TimeSleep (1 * Second)], set_retries 0 m, Running)
        | TransientFailure | Connecting | Idle =>
            if retries m <? 5 then
              await (state o)
                ([TimeSleep (retries m * Second); ResetConnectBackoff c],
                 set_retries (retries m + 1) m)
            else
              let '(acts, m') := redial env m in
              await (state o) (Close c :: acts, m')
        | Shutdown => await (state o) (redial env m)
        end
  end.

(** The monitor run over the observations of successive passes. *)
Fixpoint monitor_run (env : Env) (m : Monitor) (obs : list Observation)
  : list action * Monitor * status :=
  match obs with
  | [] => ([], m, Running)
  | o :: rest =>
      match monitor_pass env m o with
      | (acts, m', Running) =>
          let '(acts', m'', st) := monitor_run env m' rest in
          (acts ++ acts', m'', st)
      | r => r
      end
  end.

(** A forced replacement: the channel is closed and dialled again. *)
Fixpoint close_and_redial (acts : list action) : bool :=
  match acts with
  | Close _ :: Dial _ _ :: _ => true
  | _ :: rest => close_and_redial rest
  | [] => false
  end.


End Conn.

(* ================================================================== *)
(** ** pkg/block-engine: the authentication service *)

Module Auth.

(** context.Context, as the sources build and derive it. *)
Inductive Context : Type :=
| Background
| WithCancel (id : nat)              (* a caller's cancellable context *)
| NewOutgoingContext (parent : Context) (md : list (string * string)).

Definition Canceled : error := foreign "context canceled".

(** [ctx.Err()] when [<-ctx.Done()] is ready, given the cancel functions
    called so far. *)
Fixpoint ctx_Err (cancelled : nat -> bool) (c : Context) : option error :=
  match c with
  | Background => None
  | WithCancel id => if cancelled id then Some Canceled else None
  | NewOutgoingContext parent _ => ctx_Err cancelled parent
  end.

(** timestamppb.Timestamp *)
Record Timestamp : Type := mkTimestamp {
  Seconds : Z;
  Nanos : Z
}.

Record Token : Type := mkToken {
  Value : string;
  ExpiresAtUtc : option Timestamp     (* [None] is the nil pointer *)
}.

(** The getters of a timestamp answer 0 on the nil pointer. *)
Definition GetSeconds (x : option Timestamp) : Z :=
  match x with Some ts => Seconds ts | None => 0 end.

Definition GetNanos (x : option Timestamp) : Z :=
  match x with Some ts => Nanos ts | None => 0 end.

(** [x.AsTime()], in nanoseconds since the epoch: it reads through the
    getters. *)
Definition AsTime (x : option Timestamp) : Z :=
  time_Unix (GetSeconds x) (GetNanos x).

(** A response of GenerateAuthTokens that carries both its tokens. *)
Record GenerateAuthTokensResponse : Type := mkTokens {
  AccessToken : Token;
  RefreshToken : Token
}.

Inductive Role : Type := Role_RELAYER | Role_SEARCHER | Role_VALIDATOR.

Record AuthenticationService : Type := mkAuth {
  GRPCCtx : Context;
  BearerToken : string;
  ExpiresAt : Z;
  ErrChan : option chan;         (* [None] is the nil channel *)
  mu : option nat                (* the thread holding the mutex *)
}.

Definition NewAuthenticationService (ctx : Context) : AuthenticationService :=
  {| GRPCCtx := ctx; BearerToken := ""; ExpiresAt := 0;
     ErrChan := Some (make_chan 1); mu := None |}.

Definition bearer_metadata (token : Token) : Context :=
  NewOutgoingContext Background [("authorization", "Bearer " +++ Value token)].

(** updateAuthorizationMetadata, run to completion by one caller.  Line
    122 reads [token.ExpiresAtUtc.Seconds] through the pointer: on a token
    without a timestamp it panics after lines 120 and 121 have written the
    context and the bearer, and the deferred Unlock frees the mutex. *)
Definition updateAuthorizationMetadata (token : Token)
  (a : AuthenticationService) : outcome unit * AuthenticationService :=
  match ExpiresAtUtc token with
  | Some ts =>
      (Ok tt,
       {| GRPCCtx := bearer_metadata token;
          BearerToken := Value token;
          ExpiresAt := Seconds ts;
          ErrChan := ErrChan a; mu := mu a |})
  | None =>
      (Panic Pkg.nil_panic,
       {| GRPCCtx := bearer_metadata token;
          BearerToken := Value token;
          ExpiresAt := ExpiresAt a;
          ErrChan := ErrChan a; mu := mu a |})
  end.

(** *** The statements of the service, one at a time

    For interleavings of goroutines the body of a function is the list of
    its statements on the shared struct. *)

Inductive instr : Type :=
| Lock
| Unlock
| SetGRPCCtx (c : Context)
| SetBearerToken (v : string)
| SetExpiresAt (v : Z)
| ReadBearerToken          (* as.BearerToken, a plain field read *)
| ReadExpiresAt.           (* as.ExpiresAt, a plain field read *)

(** Lines 117-122, the deferred Unlock last.  On a token without a
    timestamp the statement of line 122 panics before it writes, and the
    deferred Unlock is what is left to run. *)
Definition updateAuthorizationMetadata_body (token : Token) : list instr :=
  match ExpiresAtUtc token with
  | Some ts =>
      [Lock; SetGRPCCtx (bearer_metadata token); SetBearerToken (Value token);
       SetExpiresAt (Seconds ts); Unlock]
  | None =>
      [Lock; SetGRPCCtx (bearer_metadata token); SetBearerToken (Value token);
       Unlock]
  end.

(** A reader of the exported fields [BearerToken] and [ExpiresAt], in the
    way line 105 reads [as.BearerToken]: no lock is taken.  The mutex is
    unexported and the package has no accessor, so this is how a caller of
    the package reads the credential. *)
Definition read_credential : list instr := [ReadBearerToken; ReadExpiresAt].

Record thread : Type := mkThread {
  code : list instr;
  seenBearer : option string;
  seenExpiry : option Z
}.

Definition spawn (c : list instr) : thread :=
  {| code := c; seenBearer := None; seenExpiry := None |}.

(** Thread [tid] runs statement [i]; [None] when it has to wait. *)
Definition exec_instr (tid : nat) (i : instr) (rest : list instr)
  (t : thread) (a : AuthenticationService)
  : option (thread * AuthenticationService) :=
  let t' := {| code := rest; seenBearer := seenBearer t; seenExpiry := seenExpiry t |} in
  match i with
  | Lock =>
      match mu a with
      | None => Some (t', {| GRPCCtx := GRPCCtx a; BearerToken := BearerToken a;
                             ExpiresAt := ExpiresAt a; ErrChan := ErrChan a;
                             mu := Some tid |})
      | Some _ => None
      end
  | Unlock =>
      Some (t', {| GRPCCtx := GRPCCtx a; BearerToken := BearerToken a;
                   ExpiresAt := ExpiresAt a; ErrChan := ErrChan a; mu := None |})
  | SetGRPCCtx c =>
      Some (t', {| GRPCCtx := c; BearerToken := BearerToken a;
                   ExpiresAt := ExpiresAt a; ErrChan := ErrChan a; mu := mu a |})
  | SetBearerToken v =>
      Some (t', {| GRPCCtx := GRPCCtx a; BearerToken := v;
                   ExpiresAt := ExpiresAt a; ErrChan := ErrChan a; mu := mu a |})
  | SetExpiresAt v =>
      Some (t', {| GRPCCtx := GRPCCtx a; BearerToken := BearerToken a;
                   ExpiresAt := v; ErrChan := ErrChan a; mu := mu a |})
  | ReadBearerToken =>
      Some ({| code := rest; seenBearer := Some (BearerToken a);
               seenExpiry := seenExpiry t |}, a)
  | ReadExpiresAt =>
      Some ({| code := rest; seenBearer := seenBearer t;
               seenExpiry := Some (ExpiresAt a) |}, a)
  end.

(** Two goroutines sharing one service: a writer and a reader. *)
Record config : Type := mkConfig {
  shared : AuthenticationService;
  writer : thread;          (* goroutine 0 *)
  reader : thread           (* goroutine 1 *)
}.

Inductive tid : Type := W | R.

(** The scheduler lets one thread run one statement. *)
Definition step (who : tid) (c : config) : option config :=
  match who with
  | W =>
      match code (writer c) with
      | [] => None
      | i :: rest =>
          match exec_instr 0 i rest (writer c) (shared c) with
          | Some (t, a) => Some {| shared := a; writer := t; reader := reader c |}
          | None => None
          end
      end
  | R =>
      match code (reader c) with
      | [] => None
      | i :: rest =>
          match exec_instr 1 i rest (reader c) (shared c) with
          | Some (t, a) => Some {| shared := a; writer := writer c; reader := t |}
          | None => None
          end
      end
  end.

(** A schedule is the order in which the threads are let run. *)
Fixpoint run (schedule : list tid) (c : config) : option config :=
  match schedule with
  | [] => Some c
  | who :: rest =>
      match step who c with
      | Some c' => run rest c'
      | None => None
      end
  end.

(** The configurations one statement away, and [k] statements away. *)
Definition successors (c : config) : list config :=
  match step W c with Some c' => [c'] | None => [] end
  ++ match step R c with Some c' => [c'] | None => [] end.

Fixpoint level (k : nat) (cs : list config) : list config :=
  match k with
  | O => cs
  | S k' => level k' (flat_map successors cs)
  end.

(** A service holding the credential [old], nobody in the mutex. *)
Definition holding (old : Token) : AuthenticationService :=
  snd (updateAuthorizationMetadata old (NewAuthenticationService Background)).

(** A refresh installing [new] while [rd] reads. *)
Definition refresh_against (rd : list instr) (old new : Token) : config :=
  {| shared := holding old;
     writer := spawn (updateAuthorizationMetadata_body new);
     reader := spawn rd |}.

Definition pair_of (t : Token) : string * Z :=
  (Value t, GetSeconds (ExpiresAtUtc t)).

(** What a reader that has finished has observed. *)
Definition observed (c : config) : option (string * Z) :=
  match code (reader c), seenBearer (reader c), seenExpiry (reader c) with
  | [], Some b, Some e => Some (b, e)
  | _, _, _ => None
  end.

(** *** AuthenticateAndRefresh: the handshake *)

Record Env : Type := mkEnv {
  PublicKey_String : string;                 (* base58 of the public key *)
  GenerateAuthChallenge : Role -> outcome string;
  Sign_String : string -> outcome string;    (* KeyPair.Sign(..).String() *)
  base58_Decode : string -> outcome (list Byte.byte);
  GenerateAuthTokens : string -> list Byte.byte -> outcome GenerateAuthTokensResponse;
  (* RefreshAccessToken, by call number, for a refresh token value *)
  RefreshAccessToken : nat -> string -> outcome Token;
  (* the cancel functions already called at the k-th select of the loop *)
  cancelled : nat -> nat -> bool
}.

Definition generateChallengeSignature (env : Env) (challenge : string)
  : outcome (list Byte.byte) :=
  match Sign_String env challenge with
  | Ok sig => base58_Decode env sig
  | Err e => Err e
  | Panic p => Panic p
  end.

(** Lines 44-75: the service with the access token installed, and the
    token pair the refresh goroutine closes over. *)
Definition handshake (env : Env) (role : Role) (a : AuthenticationService)
  : outcome (AuthenticationService * GenerateAuthTokensResponse) :=
  match GenerateAuthChallenge env role with
  | Panic p => Panic p
  | Err e => Err e
  | Ok respChallenge =>
      let challenge := PublicKey_String env +++ "-" +++ respChallenge in
      match generateChallengeSignature env challenge with
      | Panic p => Panic p
      | Err e => Err e
      | Ok sig =>
          match GenerateAuthTokens env challenge sig with
          | Panic p => Panic p
          | Err e => Err e
          | Ok respToken =>
              match updateAuthorizationMetadata (AccessToken respToken) a with
              | (Ok _, a') => Ok (a', respToken)
              | (Err e, _) => Err e
              | (Panic p, _) => Panic p
              end
          end
      end
  end.

(** *** The refresh goroutine (lines 78-101), statement by statement *)

Inductive pc : Type :=
| AtSelect                        (* top of the for/select *)
| PushCtxErr (e : error)          (* as.ErrChan <- as.GRPCCtx.Err() *)
| PushRefreshErr (e : error)      (* as.ErrChan <- fmt.Errorf(...) *)
| Sleeping (d : Duration)         (* time.Sleep(d) *)
| Exited                          (* return *)
| Crashed.

Record Refresher : Type := mkRefresher {
  svc : AuthenticationService;
  at_pc : pc;
  clock : Z;                      (* wall clock, nanoseconds since the epoch *)
  selects : nat;                  (* selects evaluated *)
  refreshCalls : nat              (* RefreshAccessToken calls made *)
}.

Inductive event : Type :=
| SawDone (e : error)
| CalledRefresh (refreshToken : string)
| Installed (t : Token)
| Pushed (e : error)
| Slept (d : Duration)
| Returned.

Definition with_chan (ch : chan) (a : AuthenticationService) : AuthenticationService :=
  {| GRPCCtx := GRPCCtx a; BearerToken := BearerToken a; ExpiresAt := ExpiresAt a;
     ErrChan := Some ch; mu := mu a |}.

(** [as.ErrChan <- e]; a send on a nil channel never completes. *)
Definition push (e : error) (a : AuthenticationService)
  : option AuthenticationService :=
  match ErrChan a with
  | None => None
  | Some ch =>
      match send ch e with
      | Some ch' => Some (with_chan ch' a)
      | None => None
      end
  end.

Definition refresh_failed (err : error) : error :=
  wrapError "failed to refresh access token: " err.

(** One statement of the goroutine; [None] when it is blocked or over. *)
Definition refresh_step (env : Env) (respToken : GenerateAuthTokensResponse)
  (s : Refresher) : option (list event * Refresher) :=
  match at_pc s with
  | AtSelect =>
      match ctx_Err (cancelled env (selects s)) (GRPCCtx (svc s)) with
      | Some e =>
          Some ([SawDone e],
                {| svc := svc s; at_pc := PushCtxErr e; clock := clock s;
                   selects := S (selects s); refreshCalls := refreshCalls s |})
      | None =>
          let tok := Value (RefreshToken respToken) in
          match RefreshAccessToken env (refreshCalls s) tok with
          | Panic _ =>
              Some ([CalledRefresh tok],
                    {| svc := svc s; at_pc := Crashed; clock := clock s;
                       selects := S (selects s); refreshCalls := S (refreshCalls s) |})
          | Err err =>
              Some ([CalledRefresh tok],
                    {| svc := svc s; at_pc := PushRefreshErr (refresh_failed err);
                       clock := clock s;
                       selects := S (selects s); refreshCalls := S (refreshCalls s) |})
          | Ok token =>
              match updateAuthorizationMetadata token (svc s) with
              | (Ok _, a) =>
                  (* time.Until saturates; the subtraction is int64's *)
                  let sleepDuration :=
                    wrap64 (time_Until (clock s) (AsTime (ExpiresAtUtc token))
                            - 15 * Second) in
                  Some ([CalledRefresh tok; Installed token],
                        {| svc := a;
                           at_pc := if sleepDuration >? 0 then Sleeping sleepDuration
                                    else AtSelect;
                           clock := clock s;
                           selects := S (selects s);
                           refreshCalls := S (refreshCalls s) |})
              | (_, a) =>
                  Some ([CalledRefresh tok],
                        {| svc := a; at_pc := Crashed; clock := clock s;
                           selects := S (selects s);
                           refreshCalls := S (refreshCalls s) |})
              end
          end
      end
  | PushCtxErr e =>
      match push e (svc s) with
      | Some a =>
          Some ([Pushed e; Returned],
                {| svc := a; at_pc := Exited; clock := clock s;
                   selects := selects s; refreshCalls := refreshCalls s |})
      | None => None
      end
  | PushRefreshErr e =>
      match push e (svc s) with
      | Some a =>
          Some ([Pushed e],
                {| svc := a; at_pc := Sleeping Minute; clock := clock s;
                   selects := selects s; refreshCalls := refreshCalls s |})
      | None => None
      end
  | Sleeping d =>
      Some ([Slept d],
            {| svc := svc s; at_pc := AtSelect; clock := clock s + d;
               selects := selects s; refreshCalls := refreshCalls s |})
  | Exited => None
  | Crashed => None
  end.

(** A consumer takes the oldest error off [ErrChan]. *)
Definition drain (s : Refresher) : option Refresher :=
  match ErrChan (svc s) with
  | None => None
  | Some ch =>
      match recv ch with
      | Some (_, ch') =>
          Some {| svc := with_chan ch' (svc s); at_pc := at_pc s; clock := clock s;
                  selects := selects s; refreshCalls := refreshCalls s |}
      | None => None
      end
  end.

Inductive move : Type := Loop | Drain.

(** An execution: the goroutine's statements interleaved with a consumer. *)
Fixpoint execution (env : Env) (respToken : GenerateAuthTokensResponse)
  (moves : list move) (s : Refresher) : option (list event * Refresher) :=
  match moves with
  | [] => Some ([], s)
  | Loop :: rest =>
      match refresh_step env respToken s with
      | Some (evs, s') =>
          match execution env respToken rest s' with
          | Some (evs', s'') => Some (evs ++ evs', s'')
          | None => None
          end
      | None => None
      end
  | Drain :: rest =>
      match drain s with
      | Some s' => execution env respToken rest s'
      | None => None
      end
  end.

(** The goroutine as [AuthenticateAndRefresh] starts it. *)
Definition started (a : AuthenticationService) (t0 : Z) : Refresher :=
  {| svc := a; at_pc := AtSelect; clock := t0; selects := 0; refreshCalls := 0 |}.

(** Lines 104-110: the caller returns once a bearer value is there. *)
Definition bearer_installed (a : AuthenticationService) : bool :=
  negb (String.eqb (BearerToken a) "").

End Auth.

(* ================================================================== *)
(** ** block-engine/searcher.go: NewSearcherClient *)

Module Searcher.

Record SearcherClient : Type := mkSearcherClient {
  GRPCConn : Conn.Monitor;
  AuthenticationService : Auth.AuthenticationService;
  ErrChan : chan
}.

(** The error channel of line 28: [make(chan error)]. *)
Definition chErr : chan := make_chan 0.

(** The service built when no key pair is given (lines 47-49): every
    field but [GRPCCtx] has its zero value. *)
Definition unauthenticated (ctx : Auth.Context) : Auth.AuthenticationService :=
  {| Auth.GRPCCtx := ctx; Auth.BearerToken := ""; Auth.ExpiresAt := 0;
     Auth.ErrChan := None; Auth.mu := None |}.

Definition subscription_err (e : error) : error :=
  wrapError "could not perform bundle results subscription: " e.

(** [subscribe] is SearcherService.SubscribeBundleResults ([None]: it
    succeeded).  The result is [None] while the caller is still waiting
    at lines 104-110 of the authenticator for a bearer value. *)
Definition NewSearcherClient (cenv : Conn.Env) (aenv : Auth.Env)
  (subscribe : Auth.Context -> option error)
  (ctx : Auth.Context) (grpcAddr : string)
  (keyPair : option (list Byte.byte)) (opts : list Conn.DialOption)
  : option (outcome SearcherClient) :=
  match fst (Conn.CreateGRPCConnection cenv grpcAddr opts) with
  | Panic p => Some (Panic p)
  | Err e => Some (Err e)
  | Ok conn =>
      let finish (authService : Auth.AuthenticationService) :=
        match subscribe (Auth.GRPCCtx authService) with
        | Some e => Err (subscription_err e)
        | None => Ok {| GRPCConn := conn; AuthenticationService := authService;
                        ErrChan := chErr |}
        end in
      match keyPair with
      | None => Some (finish (unauthenticated ctx))
      | Some _ =>
          match Auth.handshake aenv Auth.Role_SEARCHER
                  (Auth.NewAuthenticationService Auth.Background) with
          | Panic p => Some (Panic p)
          | Err e => Some (Err e)
          | Ok (authService, _) =>
              if Auth.bearer_installed authService
              then Some (finish authService)
              else None
          end
      end
  end.

End Searcher.

(* ================================================================== *)
(** ** pkg: packets back to transactions *)

Module Packets.
Import BlockEngine.

(** [tx.UnmarshalWithDecoder(bin.NewBorshDecoder(data))] on a fresh
    transaction: the decoded transaction, or the decoder's error. *)
Definition Decoder : Type := list Byte.byte -> outcome Transaction.

Definition ConvertProtobufPacketToTransaction (unmarshal : Decoder)
  (packet : Packet) : outcome Transaction :=
  match unmarshal (Data packet) with
  | Ok tx => Ok tx
  | Err e => Err e
  | Panic p => Panic p
  end.

Fixpoint ConvertBatchPacket_loop (unmarshal : Decoder) (txs : list Transaction)
  (packets : list Packet) : outcome (list Transaction) :=
  match packets with
  | [] => Ok txs
  | packet :: rest =>
      match ConvertProtobufPacketToTransaction unmarshal packet with
      | Ok tx => ConvertBatchPacket_loop unmarshal (txs ++ [tx]) rest
      | Err e => Err e
      | Panic p => Panic p
      end
  end.

Definition ConvertBatchProtobufPacketToTransaction (unmarshal : Decoder)
  (packets : list Packet) : outcome (list Transaction) :=
  ConvertBatchPacket_loop unmarshal [] packets.

(** The packet [ConvertTransactionToProtobufPacket] builds around [data]. *)
Definition packet_of (data : list Byte.byte) : Packet :=
  {| Data := data;
     PacketMeta := Some {| Size := N.of_nat (List.length data); Addr := "";
                           Port := 0%N; SenderStake := 0%N |} |}.

End Packets.

(* ================================================================== *)
(** ** pkg/block-engine: the endpoint table *)

Module Endpoints.

Definition AMS : string := "https://amsterdam.mainnet.block-engine.jito.wtf".
Definition FRA : string := "https://frankfurt.mainnet.block-engine.jito.wtf".
Definition NYC : string := "https://ny.mainnet.block-engine.jito.wtf".
Definition TKO : string := "https://tokyo.mainnet.block-engine.jito.wtf".

Definition GetEndpoint (location : string) : string :=
  if String.eqb location "AMS" then AMS
  else if String.eqb location "FRA" then FRA
  else if String.eqb location "NYC" then NYC
  else if String.eqb location "TKO" then TKO
  else "".

End Endpoints.

(* ================================================================== *)
(** ** block-engine/searcher.go: GetRandomTipAccount *)

Module Tips.

(** [rand.Intn(n)]: it panics for [n <= 0]; [draw n] is the number drawn. *)
Definition Intn (draw : nat -> nat) (n : nat) : outcome nat :=
  if Nat.eqb n 0 then Panic "invalid argument to Intn" else Ok (draw n).

Definition range_panic : string := "runtime error: index out of range".

(** [tipAccounts] is the result of GetTipAccounts: the Accounts of the
    response, or the error of the call. *)
Definition GetRandomTipAccount (tipAccounts : outcome (list string))
  (draw : nat -> nat) : outcome string :=
  match tipAccounts with
  | Panic p => Panic p
  | Err e => Err e
  | Ok accounts =>
      match Intn draw (List.length accounts) with
      | Panic p => Panic p
      | Err e => Err e
      | Ok i =>
          match nth_error accounts i with
          | Some account => Ok account
          | None => Panic range_panic
          end
      end
  end.

End Tips.

(* ================================================================== *)
(** ** block-engine/validator.go: NewValidator and the packet subscription *)

Module ValidatorClient.

Record Validator : Type := mkValidator {
  GRPCConn : Conn.Monitor;
  (* a pointer: [None] is nil *)
  AuthenticationService : option Auth.AuthenticationService;
  ErrChan : chan
}.

(** Lines 17-51.  As in NewSearcherClient the result is [None] while the
    caller waits for a bearer value. *)
Definition NewValidator (cenv : Conn.Env) (aenv : Auth.Env) (grpcAddr : string)
  (keyPair : option (list Byte.byte)) (opts : list Conn.DialOption)
  : option (outcome Validator) :=
  let chErr := make_chan 0 in
  match fst (Conn.CreateGRPCConnection cenv grpcAddr opts) with
  | Panic p => Some (Panic p)
  | Err e => Some (Err e)
  | Ok conn =>
      match keyPair with
      | None =>
          Some (Ok {| GRPCConn := conn; AuthenticationService := None;
                      ErrChan := chErr |})
      | Some _ =>
          match Auth.handshake aenv Auth.Role_VALIDATOR
                  (Auth.NewAuthenticationService Auth.Background) with
          | Panic p => Some (Panic p)
          | Err e => Some (Err e)
          | Ok (authService, _) =>
              if Auth.bearer_installed authService
              then Some (Ok {| GRPCConn := conn;
                               AuthenticationService := Some authService;
                               ErrChan := chErr |})
              else None
          end
      end
  end.

(** A server stream: [Recv], by call number. *)
Definition Stream (A : Type) : Type := nat -> outcome A.

(** [v.Client.SubscribePackets(v.AuthenticationService.GRPCCtx, ...)];
    [rpc] is the stub. *)
Definition SubscribePackets {A : Type} (rpc : Auth.Context -> outcome (Stream A))
  (v : Validator) : outcome (Stream A) :=
  match AuthenticationService v with
  | None => Panic Pkg.nil_panic
  | Some a => rpc (Auth.GRPCCtx a)
  end.

(** What the goroutine of OnPacketSubscription sends, and on which of its
    two channels. *)
Inductive delivery (A : Type) : Type :=
| OnUpdates (a : A)          (* chPackets <- resp *)
| OnErrors (e : error).      (* chErr <- err *)
Arguments OnUpdates {A} a.
Arguments OnErrors {A} e.

Inductive ending : Type := Looping | Returned | Crashed (p : string).

(** The goroutine of lines 81-95, pass by pass: [done] tells for each pass
    whether [<-ctx.Done()] is ready at its select; [calls] Recv calls have
    been made.  Each send completes when the consumer receives it. *)
Fixpoint forward {A : Type} (sub : Stream A) (calls : nat) (done : list bool)
  : list (delivery A) * ending :=
  match done with
  | [] => ([], Looping)
  | true :: _ => ([], Returned)
  | false :: rest =>
      match sub calls with
      | Panic p => ([], Crashed p)
      | Err e =>
          let '(sent, how) := forward sub (S calls) rest in
          (OnErrors e :: sent, how)
      | Ok resp =>
          let '(sent, how) := forward sub (S calls) rest in
          (OnUpdates resp :: sent, how)
      end
  end.

(** Lines 69-98: the stream is opened first; the goroutine starts only
    when that succeeded. *)
Definition OnPacketSubscription {A : Type}
  (rpc : Auth.Context -> outcome (Stream A)) (v : Validator) (done : list bool)
  : outcome (list (delivery A) * ending) :=
  match SubscribePackets rpc v with
  | Panic p => Panic p
  | Err e => Err e
  | Ok sub => Ok (forward sub 0 done)
  end.

End ValidatorClient.

(* ================================================================== *)
(** ** yellowstone-geyser: the stream client and its account filters *)

Module Geyser.

(** pb.SubscribeRequestFilterAccounts, as far as the client touches it. *)
Record FilterAccounts : Type := mkFilterAccounts {
  Account : list string;
  Owner : list string
}.

(** The map [SubscribeRequest.Accounts]: its values are pointers, and a
    key that is missing reads as the nil pointer. *)
Definition AccountsMap : Type := list (string * option FilterAccounts).

Fixpoint lookup (m : AccountsMap) (k : string) : option FilterAccounts :=
  match m with
  | [] => None
  | (k', v) :: rest => if String.eqb k k' then v else lookup rest k
  end.

(** [delete(m, k)] *)
Fixpoint delete (m : AccountsMap) (k : string) : AccountsMap :=
  match m with
  | [] => []
  | (k', v) :: rest =>
      if String.eqb k k' then delete rest k else (k', v) :: delete rest k
  end.

(** [m[k] = v] *)
Definition store (m : AccountsMap) (k : string) (v : option FilterAccounts)
  : AccountsMap :=
  (k, v) :: delete m k.

(** The part of pb.SubscribeRequest that the account operations work on.
    The map is one that [make] built, as in NewSubscribeClient; a request
    whose map is nil is not among these values.  The map holds pointers: an
    entry here is what its pointer points to, so these values describe each
    filter by its name and say nothing of two names sharing one pointer. *)
Record SubscribeRequest : Type := mkSubscribeRequest {
  Accounts : AccountsMap
}.

Record StreamClient : Type := mkStreamClient {
  Request : option SubscribeRequest;         (* the pointer SubscribeRequest *)
  sent : list (option SubscribeRequest);     (* what went out with Send, in order *)
  ErrCh : chan
}.

(** [SubscribeClient.Send], by call number: [None] is the nil error. *)
Definition Sender : Type := nat -> option error.

(** [return s.SubscribeClient.Send(s.SubscribeRequest)] once the request
    has been changed to [r]. *)
Definition Send (send : Sender) (s : StreamClient) (r : option SubscribeRequest)
  : outcome unit * StreamClient :=
  let s' := {| Request := r; sent := sent s ++ [r]; ErrCh := ErrCh s |} in
  match send (List.length (sent s)) with
  | Some e => (Err e, s')
  | None => (Ok tt, s')
  end.

Definition SubscribeAccounts (send : Sender) (filterName : string)
  (req : option FilterAccounts) (s : StreamClient) : outcome unit * StreamClient :=
  match Request s with
  | None => (Panic Pkg.nil_panic, s)
  | Some r => Send send s (Some {| Accounts := store (Accounts r) filterName req |})
  end.

Definition AppendAccounts (send : Sender) (filterName : string)
  (accounts : list string) (s : StreamClient) : outcome unit * StreamClient :=
  match Request s with
  | None => (Panic Pkg.nil_panic, s)
  | Some r =>
      match lookup (Accounts r) filterName with
      | None => (Panic Pkg.nil_panic, s)
      | Some f =>
          Send send s
            (Some {| Accounts := store (Accounts r) filterName
                                   (Some {| Account := Account f ++ accounts;
                                            Owner := Owner f |}) |})
      end
  end.

Definition UnsubscribeAccountsByID (send : Sender) (filterName : string)
  (s : StreamClient) : outcome unit * StreamClient :=
  match Request s with
  | None => (Panic Pkg.nil_panic, s)
  | Some r => Send send s (Some {| Accounts := delete (Accounts r) filterName |})
  end.

(** [slices.DeleteFunc(l, func(a string) bool { return a == account })] *)
Definition DeleteFunc (l : list string) (account : string) : list string :=
  filter (fun a => negb (String.eqb a account)) l.

(** The [for _, account := range accounts] of UnsubscribeAccounts: the
    filter is read through the map at every turn. *)
Fixpoint Unsubscribe_loop (filterName : string) (accounts : list string)
  (r : SubscribeRequest) : outcome SubscribeRequest :=
  match accounts with
  | [] => Ok r
  | account :: rest =>
      match lookup (Accounts r) filterName with
      | None => Panic Pkg.nil_panic
      | Some f =>
          Unsubscribe_loop filterName rest
            {| Accounts := store (Accounts r) filterName
                             (Some {| Account := DeleteFunc (Account f) account;
                                      Owner := Owner f |}) |}
      end
  end.

Definition UnsubscribeAccounts (send : Sender) (filterName : string)
  (accounts : list string) (s : StreamClient) : outcome unit * StreamClient :=
  match Request s with
  | None =>
      match accounts with
      | [] => Send send s None             (* the loop body never runs *)
      | _ => (Panic Pkg.nil_panic, s)
      end
  | Some r =>
      match Unsubscribe_loop filterName accounts r with
      | Ok r' => Send send s (Some r')
      | Err e => (Err e, s)
      | Panic p => (Panic p, s)
      end
  end.

(** The stream client NewSubscribeClient makes: every map is there, empty. *)
Definition new_stream_client : StreamClient :=
  {| Request := Some {| Accounts := [] |}; sent := []; ErrCh := make_chan 10 |}.

(** The DefaultStreamClient that NewClient makes: no SubscribeRequest. *)
Definition default_stream_client : StreamClient :=
  {| Request := None; sent := []; ErrCh := make_chan 10 |}.

End Geyser.

(* ================================================================== *)
(** ** The connection monitor and its error channel

    [Conn.monitor_pass] lists a send on [chErr] among the actions of a
    pass: it describes the passes whose sends complete.  Here the channel
    that [CreateGRPCConnection] was given is part of the state, and a send
    that cannot complete leaves the goroutine in it. *)

Module ConnErr.
Import Conn.

(** NewClient of the geyser package passes [nil] for [chErr] (line 20 of
    its file). *)
Definition NewClient_chErr : option chan := None.

(** [chErr <- e].  On the nil channel a send never completes.  Otherwise
    it completes when a goroutine is waiting to receive, which takes the
    value, or when the buffer has room.  [None]: the sender stays blocked. *)
Definition send_on (chErr : option chan) (receiving : bool) (e : error)
  : option (option chan) :=
  match chErr with
  | None => None
  | Some ch =>
      if receiving then Some (Some ch)
      else match send ch e with
           | Some ch' => Some (Some ch')
           | None => None
           end
  end.

(** How a pass of the goroutine ends. *)
Inductive ending : Type :=
| Continues                  (* on to the next pass *)
| Returns                    (* the [return] of the Done branch *)
| Panics                     (* a nil [conn] is dereferenced *)
| BlockedInSend (e : error). (* it stays in [chErr <- e] *)

(** Lines 131-135 and 138-142, then line 146: the dial, the send of its
    error, [retries = 0], and the wait on the connection just assigned. *)
Definition redial_on (env : Env) (chErr : option chan) (receiving : bool)
  (s : State) (m : Monitor) : list action * Monitor * option chan * ending :=
  match DialContext env (dialsMade m) (address m) (dialOpts m) with
  | None =>
      ([Dial (address m) (dialOpts m); WaitForStateChange (dialsMade m) s],
       {| conn := Some (dialsMade m); address := address m;
          dialOpts := dialOpts m; retries := 0; dialsMade := S (dialsMade m) |},
       chErr, Continues)
  | Some e =>
      match send_on chErr receiving e with
      | None =>
          ([Dial (address m) (dialOpts m)],
           {| conn := None; address := address m; dialOpts := dialOpts m;
              retries := retries m; dialsMade := S (dialsMade m) |},
           chErr, BlockedInSend e)
      | Some chErr' =>
          ([Dial (address m) (dialOpts m); SendErr e],
           {| conn := None; address := address m; dialOpts := dialOpts m;
              retries := 0; dialsMade := S (dialsMade m) |},
           chErr', Panics)
      end
  end.

(** One pass of the [for { select { ... } }] of lines 106-150. *)
Definition monitor_pass_on (env : Env) (chErr : option chan) (receiving : bool)
  (m : Monitor) (o : Observation) : list action * Monitor * option chan * ending :=
  match conn m with
  | None => ([], m, chErr, Panics)
  | Some c =>
      if ctxDone o then
        match closeErr o with
        | Some e =>
            match send_on chErr receiving e with
            | Some chErr' => ([Close c; SendErr e], m, chErr', Returns)
            | None => ([Close c], m, chErr, BlockedInSend e)
            end
        | None => ([Close c], m, chErr, Returns)
        end
      else
        match state o with
        | Ready => ([TimeSleep (1 * Second)], set_retries 0 m, chErr, Continues)
        | TransientFailure | Connecting | Idle =>
            if retries m <? 5 then
              ([TimeSleep (retries m * Second); ResetConnectBackoff c;
                WaitForStateChange c (state o)],
               set_retries (retries m + 1) m, chErr, Continues)
            else
              let '(acts, m', chErr', how) :=
                redial_on env chErr receiving (state o) m in
              (Close c :: acts, m', chErr', how)
        | Shutdown => redial_on env chErr receiving (state o) m
        end
  end.

(** The goroutine over successive passes, each with what it observes and
    whether somebody is receiving from [chErr] meanwhile.  It makes a next
    pass only after one that continues. *)
Fixpoint monitor_run_on (env : Env) (chErr : option chan) (m : Monitor)
  (obs : list (Observation * bool))
  : list action * Monitor * option chan * ending :=
  match obs with
  | [] => ([], m, chErr, Continues)
  | (o, receiving) :: rest =>
      match monitor_pass_on env chErr receiving m o with
      | (acts, m', chErr', Continues) =>
          let '(acts', m'', chErr'', how) := monitor_run_on env chErr' m' rest in
          (acts ++ acts', m'', chErr'', how)
      | r => r
      end
  end.

(** The status [Conn.monitor_pass] gives to a pass that ended so. *)
Definition status_of (how : ending) : option status :=
  match how with
  | Continues => Some Running
  | Returns => Some Stopped
  | Panics => Some Crashed
  | BlockedInSend _ => None
  end.

End ConnErr.

(* ================================================================== *)
(** ** Vocabulary of the statements *)

Module Vocabulary.
Import BlockEngine.

Definition signed (tx : Transaction) : Prop := Solana.Signatures tx <> [].
Definition unsigned (tx : Transaction) : Prop := Solana.Signatures tx = [].

(** [s] is the first signature of [tx]. *)
Definition first_signature (tx : Transaction) (s : Signature) : Prop :=
  exists rest, Solana.Signatures tx = s :: rest.

(** The five rejection reasons. *)
Inductive kind : Type :=
| SimulationFailure | StateAuctionLost | GlobalAuctionLost | InternalError | Dropped.

Definition kind_of (reason : Rejected_Reason) : kind :=
  match reason with
  | Rejected_StateAuctionBidRejected _ _ => StateAuctionLost
  | Rejected_WinningBatchBidRejected _ _ => GlobalAuctionLost
  | Rejected_SimulationFailure _ _ => SimulationFailure
  | Rejected_InternalError _ => InternalError
  | Rejected_DroppedBundle _ => Dropped
  end.

(** The error of types.go that belongs to a rejection reason. *)
Definition classified (reason : Rejected_Reason) : error :=
  match reason with
  | Rejected_StateAuctionBidRejected auction tip =>
      NewStateAuctionBidRejectedError auction tip
  | Rejected_WinningBatchBidRejected auction tip =>
      NewWinningBatchBidRejectedError auction tip
  | Rejected_SimulationFailure tx msg => NewSimulationFailureError tx (GetMsg msg)
  | Rejected_InternalError msg => NewInternalError msg
  | Rejected_DroppedBundle msg => NewDroppedBundle msg
  end.

(** strings.HasPrefix *)
Fixpoint HasPrefix (s prefix : string) {struct prefix} : bool :=
  match prefix with
  | EmptyString => true
  | String a prefix' =>
      match s with
      | EmptyString => false
      | String b s' => Ascii.eqb a b && HasPrefix s' prefix'
      end
  end.

(** Reading the reason back from the text of an error. *)
Definition kind_of_message (m : string) : option kind :=
  if HasPrefix m "bundle simulation failure on tx " then Some SimulationFailure
  else if HasPrefix m "bundle lost state auction, auction: " then Some StateAuctionLost
  else if HasPrefix m "bundle won state auction but failed global auction, auction "
       then Some GlobalAuctionLost
  else if HasPrefix m "internal error " then Some InternalError
  else if HasPrefix m "bundle dropped " then Some Dropped
  else None.

Definition kind_of_error (e : error) : option kind :=
  match e with
  | BundleRejectionError m => kind_of_message m
  | _ => None
  end.

(** A stream event that carries one of the five rejection reasons. *)
Definition is_rejection (br : BundleResult) : bool :=
  match Result br with
  | Some (BundleResult_Rejected r) =>
      match Reason r with Some _ => true | None => false end
  | _ => false
  end.

(** A stream read that brings no rejection: an error of the read, or an
    event that is not a rejection. *)
Definition quiet (o : outcome BundleResult) : Prop :=
  match o with
  | Ok br => is_rejection br = false
  | Err _ => True
  | Panic _ => False
  end.

Definition confirmed_status (s : option SignatureStatusesResult) : bool :=
  match s with
  | Some st =>
      String.eqb (ConfirmationStatus st) ConfirmationStatusProcessed
      || String.eqb (ConfirmationStatus st) ConfirmationStatusConfirmed
  | None => false
  end.

(** Every status is present and processed or confirmed. *)
Definition all_confirmed (statuses : GetSignatureStatusesResult) : bool :=
  forallb confirmed_status (Value statuses).

(** An answer of the status service that does not confirm the batch. *)
Definition unconfirmed (a : outcome GetSignatureStatusesResult) : Prop :=
  match a with
  | Ok statuses => all_confirmed statuses = false
  | Err _ => True
  | Panic _ => False
  end.

(** The three ways [CreateGRPCConnection] refuses an endpoint. *)
Definition invalid_endpoint (e : error) : Prop :=
  e = Conn.required_err
  \/ (exists cause, e = wrapError "could not parse grpcAddr: " cause)
  \/ e = Conn.format_err.

(** The channel states in which the monitor retries. *)
Definition degraded (s : Conn.State) : Prop :=
  s = Conn.TransientFailure \/ s = Conn.Connecting \/ s = Conn.Idle.


(** The (bearer, expiry) pair stored in the service. *)
Definition stored (a : Auth.AuthenticationService) : string * Z :=
  (Auth.BearerToken a, Auth.ExpiresAt a).

(** A pair that belongs to one credential, the old or the new. *)
Definition consistent (old new : Auth.Token) (p : string * Z) : Prop :=
  p = Auth.pair_of old \/ p = Auth.pair_of new.

(** What the writer's critical section gives: with the mutex free, the
    stored pair belongs to one credential. *)
Definition settled (old new : Auth.Token) (c : Auth.config) : Prop :=
  Auth.mu (Auth.shared c) = None -> consistent old new (stored (Auth.shared c)).

(** A trace of the refresh goroutine in which every refresh call carries
    the refresh token [tok] and every select that took the Done branch saw
    a cancelled context. *)
Definition sound (env : Auth.Env) (tok : string) (evs : list Auth.event) : Prop :=
  (forall t, In (Auth.CalledRefresh t) evs -> t = tok)
  /\ (forall e, In (Auth.SawDone e) evs ->
                exists k c, Auth.ctx_Err (Auth.cancelled env k) c = Some e).

End Vocabulary.
Import Vocabulary.

(* ================================================================== *)
(** ** Concrete runs *)

Module Scenario.
Import BlockEngine.

Definition sig1 : Signature := [Byte.x01].
Definition sig2 : Signature := [Byte.x02].
Definition sig3 : Signature := [Byte.x03].

Definition tx1 : Transaction := {| Solana.Signatures := [sig1; sig2]; Message := [Byte.xaa] |}.
Definition tx2 : Transaction := {| Solana.Signatures := [sig3]; Message := [Byte.xbb] |}.
Definition tx_unsigned : Transaction := {| Solana.Signatures := []; Message := [Byte.xcc] |}.

Definition batch : list Transaction := [tx1; tx2].

Definition w0 : World := {| now := 0; recvCalls := 0; statusCalls := 0; output := [] |}.

Definition ack : SendBundleResponse := {| Uuid := "b-1" |}.

Definition absent (sigs : list Signature) : GetSignatureStatusesResult :=
  {| Value := map (fun _ => None) sigs |}.

Definition landed (level : string) (sigs : list Signature) : GetSignatureStatusesResult :=
  {| Value := map (fun _ => Some {| Solana.Slot := 7%N; ConfirmationStatus := level |}) sigs |}.

Definition accepted : BundleResult :=
  {| BundleId := "b-1";
     Result := Some (BundleResult_Accepted {| Slot := 7%N; ValidatorIdentity := "v" |}) |}.

Definition simulation_failure : Rejected_Reason :=
  Rejected_SimulationFailure "sig" (Some "bad").

Definition rejected_bad : BundleResult :=
  {| BundleId := "b-1";
     Result := Some (BundleResult_Rejected {| Reason := Some simulation_failure |}) |}.

(** A rejection whose [oneof reason] is not set. *)
Definition rejected_without_reason : BundleResult :=
  {| BundleId := "b-1"; Result := Some (BundleResult_Rejected {| Reason := None |}) |}.

(** The stream is silent, the statuses stay absent. *)
Definition env_silent : Env :=
  {| MarshalBinary := fun tx => Ok (Message tx);
     rpc_SendBundle := fun _ => Ok ack;
     GRPCCtx_Err := fun _ => None;
     Stream_Recv := fun _ => Err (foreign "EOF");
     GetSignatureStatuses := fun _ sigs => (0%N, Ok (absent sigs)) |}.

(** A simulation failure arrives on the second read of the stream. *)
Definition env_rejected_second : Env :=
  {| MarshalBinary := fun tx => Ok (Message tx);
     rpc_SendBundle := fun _ => Ok ack;
     GRPCCtx_Err := fun _ => None;
     Stream_Recv := fun n => if Nat.eqb n 1 then Ok rejected_bad else Ok accepted;
     GetSignatureStatuses := fun _ sigs => (0%N, Ok (absent sigs)) |}.

(** No stream events; the statuses are confirmed from the third pass on
    (each unsuccessful poll makes 17 queries). *)
Definition env_confirmed_third : Env :=
  {| MarshalBinary := fun tx => Ok (Message tx);
     rpc_SendBundle := fun _ => Ok ack;
     GRPCCtx_Err := fun _ => None;
     Stream_Recv := fun _ => Err (foreign "EOF");
     GetSignatureStatuses := fun n sigs =>
       (0%N, Ok (if Nat.ltb n 34 then absent sigs
                 else landed ConfirmationStatusConfirmed sigs)) |}.

(** The unset-reason rejection arrives on the first read. *)
Definition env_unclassified : Env :=
  {| MarshalBinary := fun tx => Ok (Message tx);
     rpc_SendBundle := fun _ => Ok ack;
     GRPCCtx_Err := fun _ => None;
     Stream_Recv := fun n => if Nat.eqb n 0 then Ok rejected_without_reason
                             else Err (foreign "EOF");
     GetSignatureStatuses := fun _ sigs => (0%N, Ok (absent sigs)) |}.

(** The world after one pass that polled 17 times in vain. *)
Definition w_after_first_pass : World :=
  {| now := 21 * Second; recvCalls := 1; statusCalls := 17;
     output := ["Bundle was sent."] |}.

(** The world when the third pass of [env_confirmed_third] returns. *)
Definition w_confirmed_third : World :=
  {| now := 47 * Second; recvCalls := 3; statusCalls := 35;
     output := ["error while receiving bundle result: EOF";
                "error while receiving bundle result: EOF";
                "error while receiving bundle result: EOF"] |}.

(** *** Endpoints *)

Definition ny : string := "https://ny.mainnet.block-engine.jito.wtf".

(** What net/url makes of four addresses. *)
Definition parse (addr : string) : outcome Conn.URL :=
  if String.eqb addr "http://localhost"
  then Ok {| Conn.Scheme := "http"; Conn.Hostname := "localhost"; Conn.Port := "" |}
  else if String.eqb addr ny
  then Ok {| Conn.Scheme := "https"; Conn.Hostname := "ny.mainnet.block-engine.jito.wtf";
             Conn.Port := "" |}
  else if String.eqb addr "http://localhost:8080"
  then Ok {| Conn.Scheme := "http"; Conn.Hostname := "localhost"; Conn.Port := "8080" |}
  else if String.eqb addr "localhost:8080"
  then Ok {| Conn.Scheme := "localhost"; Conn.Hostname := ""; Conn.Port := "" |}
  else Err (foreign "parse: invalid URL escape").

Definition cenv : Conn.Env :=
  {| Conn.url_Parse := parse; Conn.DialContext := fun _ _ _ => None |}.

(** A monitor that has counted five retries. *)
Definition worn_monitor : Conn.Monitor :=
  {| Conn.conn := Some 0%nat; Conn.address := "localhost:80";
     Conn.dialOpts := [Conn.WithTransportCredentials Conn.insecure_NewCredentials;
                       Conn.WithKeepaliveParams Conn.kacp];
     Conn.retries := 5; Conn.dialsMade := 1 |}.

Definition failing : Conn.Observation :=
  {| Conn.ctxDone := false; Conn.state := Conn.TransientFailure; Conn.closeErr := None |}.

(** *** Authentication *)

Definition access1 : Auth.Token :=
  {| Auth.Value := "old";
     Auth.ExpiresAtUtc := Some {| Auth.Seconds := 100; Auth.Nanos := 0 |} |}.
Definition access2 : Auth.Token :=
  {| Auth.Value := "new";
     Auth.ExpiresAtUtc := Some {| Auth.Seconds := 200; Auth.Nanos := 0 |} |}.
Definition refresh1 : Auth.Token :=
  {| Auth.Value := "r-1";
     Auth.ExpiresAtUtc := Some {| Auth.Seconds := 9000; Auth.Nanos := 0 |} |}.

(** An access token whose [expires_at_utc] field is absent. *)
Definition access_bare : Auth.Token :=
  {| Auth.Value := "bare"; Auth.ExpiresAtUtc := None |}.

Definition tokens : Auth.GenerateAuthTokensResponse :=
  {| Auth.AccessToken := access1; Auth.RefreshToken := refresh1 |}.

Definition unavailable : error := foreign "rpc error: code = Unavailable".

(** The handshake succeeds; every refresh fails. *)
Definition aenv : Auth.Env :=
  {| Auth.PublicKey_String := "pk";
     Auth.GenerateAuthChallenge := fun _ => Ok "c";
     Auth.Sign_String := fun _ => Ok "s";
     Auth.base58_Decode := fun _ => Ok [Byte.x01];
     Auth.GenerateAuthTokens := fun _ _ => Ok tokens;
     Auth.RefreshAccessToken := fun _ _ => Err unavailable;
     Auth.cancelled := fun _ _ => false |}.

Definition keyPair : option (list Byte.byte) := Some [Byte.x07].

(** The refresh goroutine as the handshake of [aenv] starts it. *)
Definition refresher0 : Auth.Refresher :=
  Auth.started (Auth.holding access1) 0.

End Scenario.

(* ================================================================== *)
(** ** Further vocabulary *)

Module Terms.
Import BlockEngine.

(** The status is present and "finalized". *)
Definition finalized (s : option SignatureStatusesResult) : Prop :=
  exists st, s = Some st /\ ConfirmationStatus st = ConfirmationStatusFinalized.

(** [tx] marshals to the payload of [p], and [p] is the packet built
    around that payload. *)
Definition packed (env : Env) (tx : Transaction) (p : Packet) : Prop :=
  exists data, MarshalBinary env tx = Ok data /\ p = Packets.packet_of data.

(** The world a call leaves differs from the one it found by at most [r]
    stream reads and [q] status queries, and time has not run backwards. *)
Definition within (r q : nat) (w w' : World) : Prop :=
  (recvCalls w <= recvCalls w' <= recvCalls w + r)%nat
  /\ (statusCalls w <= statusCalls w' <= statusCalls w + q)%nat
  /\ now w <= now w'.

(** The monitor's pass is one of a live context on a channel that is not
    ready. *)
Definition failing_pass (o : Conn.Observation) : Prop :=
  Conn.ctxDone o = false /\ degraded (Conn.state o).

(** Time spent in [time.Sleep] by a list of actions. *)
Fixpoint slept (acts : list Conn.action) : Z :=
  match acts with
  | [] => 0
  | Conn.TimeSleep d :: rest => d + slept rest
  | _ :: rest => slept rest
  end.

Definition is_Dial (a : Conn.action) : bool :=
  match a with Conn.Dial _ _ => true | _ => false end.

(** The actions contain a dial. *)
Definition redialled (acts : list Conn.action) : bool := existsb is_Dial acts.

(** A pass of a live context that saw the channel shut down. *)
Definition saw_Shutdown (o : Conn.Observation) : Prop :=
  Conn.ctxDone o = false /\ Conn.state o = Conn.Shutdown.

(** The instant a token expires, in nanoseconds since the epoch. *)
Definition expiry (t : Auth.Token) : Z := Auth.AsTime (Auth.ExpiresAtUtc t).

(** What the forwarding goroutine does with one result of Recv. *)
Definition deliver {A : Type} (r : outcome A)
  : option (ValidatorClient.delivery A) :=
  match r with
  | Ok a => Some (ValidatorClient.OnUpdates a)
  | Err e => Some (ValidatorClient.OnErrors e)
  | Panic _ => None
  end.

Definition known_location (location : string) : Prop :=
  location = "AMS" \/ location = "FRA" \/ location = "NYC" \/ location = "TKO".

(** [k] is a key of the map. *)
Definition has_key (m : Geyser.AccountsMap) (k : string) : Prop :=
  In k (map fst m).


End Terms.
Import Terms.

(* ================================================================== *)
(** ** Further concrete runs *)

Module Cases.
Import BlockEngine.

(** The statuses are there at once, and already finalized. *)
Definition env_finalized : Env :=
  {| MarshalBinary := fun tx => Ok (Message tx);
     rpc_SendBundle := fun _ => Ok Scenario.ack;
     GRPCCtx_Err := fun _ => None;
     Stream_Recv := fun _ => Ok Scenario.accepted;
     GetSignatureStatuses := fun _ sigs =>
       (0%N, Ok (Scenario.landed ConfirmationStatusFinalized sigs)) |}.

(** The world of [Scenario.env_confirmed_third] after two passes that
    polled in vain. *)
Definition w_after_two_passes : World :=
  {| now := 42 * Second; recvCalls := 2; statusCalls := 34;
     output := ["error while receiving bundle result: EOF";
                "error while receiving bundle result: EOF"] |}.

(** The context is cancelled when the second pass starts. *)
Definition env_cancelled_second : Env :=
  {| MarshalBinary := fun tx => Ok (Message tx);
     rpc_SendBundle := fun _ => Ok Scenario.ack;
     GRPCCtx_Err := fun i => if Nat.eqb i 1 then Some Auth.Canceled else None;
     Stream_Recv := fun _ => Ok Scenario.accepted;
     GetSignatureStatuses := fun _ sigs => (0%N, Ok (Scenario.absent sigs)) |}.

Definition too_large : error := foreign "transaction too large".

(** The second transaction of the batch does not marshal. *)
Definition env_unmarshallable : Env :=
  {| MarshalBinary := fun tx =>
       if list_eq_dec Byte.byte_eq_dec (Message tx) [Byte.xbb]
       then Err too_large else Ok (Message tx);
     rpc_SendBundle := fun _ => Ok Scenario.ack;
     GRPCCtx_Err := fun _ => None;
     Stream_Recv := fun _ => Ok Scenario.accepted;
     GetSignatureStatuses := fun _ sigs => (0%N, Ok (Scenario.absent sigs)) |}.

(** A decoder that reads the message bytes back, for the two transactions
    of the batch. *)
Definition decode : Packets.Decoder :=
  fun data =>
    if list_eq_dec Byte.byte_eq_dec data [Byte.xaa] then Ok Scenario.tx1
    else if list_eq_dec Byte.byte_eq_dec data [Byte.xbb] then Ok Scenario.tx2
    else Err (foreign "unexpected EOF").

(** The monitor right after a successful [CreateGRPCConnection]. *)
Definition fresh_monitor : Conn.Monitor := Conn.set_retries 0 Scenario.worn_monitor.

Definition shut_down : Conn.Observation :=
  {| Conn.ctxDone := false; Conn.state := Conn.Shutdown; Conn.closeErr := None |}.

(** Dials succeed at first and fail from the second one on. *)
Definition cenv_no_redial : Conn.Env :=
  {| Conn.url_Parse := Scenario.parse;
     Conn.DialContext := fun n _ _ =>
       if Nat.eqb n 0 then None else Some Scenario.unavailable |}.

(** Refreshes succeed with a token that expires 100 s after the epoch. *)
Definition aenv_refreshing : Auth.Env :=
  {| Auth.PublicKey_String := "pk";
     Auth.GenerateAuthChallenge := fun _ => Ok "c";
     Auth.Sign_String := fun _ => Ok "s";
     Auth.base58_Decode := fun _ => Ok [Byte.x01];
     Auth.GenerateAuthTokens := fun _ _ => Ok Scenario.tokens;
     Auth.RefreshAccessToken := fun _ _ => Ok Scenario.access1;
     Auth.cancelled := fun _ _ => true |}.

(** The goroutine of [aenv_refreshing], started 90 s after the epoch. *)
Definition refresher_late : Auth.Refresher :=
  Auth.started
    (snd (Auth.updateAuthorizationMetadata Scenario.access1
            (Auth.NewAuthenticationService (Auth.WithCancel 0)))) (90 * Second).

(** A token stamped with Go's zero time, 1 January of the year 1. *)
Definition access_zero_time : Auth.Token :=
  {| Auth.Value := "zero";
     Auth.ExpiresAtUtc := Some {| Auth.Seconds := -62135596800; Auth.Nanos := 0 |} |}.

(** Refreshes answer with [access_zero_time]. *)
Definition aenv_zero_time : Auth.Env :=
  {| Auth.PublicKey_String := "pk";
     Auth.GenerateAuthChallenge := fun _ => Ok "c";
     Auth.Sign_String := fun _ => Ok "s";
     Auth.base58_Decode := fun _ => Ok [Byte.x01];
     Auth.GenerateAuthTokens := fun _ _ => Ok Scenario.tokens;
     Auth.RefreshAccessToken := fun _ _ => Ok access_zero_time;
     Auth.cancelled := fun _ _ => false |}.

(** Refreshes answer with a token that carries no timestamp. *)
Definition aenv_bare : Auth.Env :=
  {| Auth.PublicKey_String := "pk";
     Auth.GenerateAuthChallenge := fun _ => Ok "c";
     Auth.Sign_String := fun _ => Ok "s";
     Auth.base58_Decode := fun _ => Ok [Byte.x01];
     Auth.GenerateAuthTokens := fun _ _ => Ok Scenario.tokens;
     Auth.RefreshAccessToken := fun _ _ => Ok Scenario.access_bare;
     Auth.cancelled := fun _ _ => false |}.

(** A stream of two packets around a transient error. *)
Definition packets_stream : ValidatorClient.Stream string :=
  fun n => if Nat.eqb n 1 then Err (foreign "EOF") else Ok "packet".

(** A validator that holds an authentication service. *)
Definition validator : ValidatorClient.Validator :=
  {| ValidatorClient.GRPCConn := fresh_monitor;
     ValidatorClient.AuthenticationService :=
       Some (Auth.NewAuthenticationService Auth.Background);
     ValidatorClient.ErrChan := make_chan 0 |}.


(** A stream on which every Send fails. *)
Definition broken : Geyser.Sender := fun _ => Some (foreign "EOF").

End Cases.

(* ================================================================== *)
(** * Properties *)

Import BlockEngine.

(** ** Signature extraction *)

Lemma BatchExtract_loop_never_errs acc txs e :
  Pkg.BatchExtract_loop acc txs <> Err e.
Proof.
  revert acc; induction txs as [|tx txs IH]; intros acc; simpl.
  - discriminate.
  - destruct (Solana.Signatures tx); [discriminate | apply IH].
Qed.

Lemma BatchExtract_loop_Ok acc txs sigs :
  Pkg.BatchExtract_loop acc txs = Ok sigs ->
  exists firsts, sigs = acc ++ firsts /\ Forall2 first_signature txs firsts.
Proof.
  revert acc; induction txs as [|tx txs IH]; intros acc H; simpl in H.
  - injection H as <-. exists []. rewrite app_nil_r. split; [reflexivity | constructor].
  - destruct (Solana.Signatures tx) as [|s rest] eqn:E; [discriminate|].
    destruct (IH _ H) as (firsts & -> & HF).
    exists (s :: firsts). rewrite <- app_assoc. split; [reflexivity|].
    constructor; [exists rest; exact E | exact HF].
Qed.

Lemma BatchExtract_loop_signed acc txs :
  Forall signed txs -> exists sigs, Pkg.BatchExtract_loop acc txs = Ok sigs.
Proof.
  intros H; revert acc; induction H as [|tx txs Htx _ IH]; intros acc; simpl.
  - eexists; reflexivity.
  - destruct (Solana.Signatures tx) eqn:E; [contradiction|]. apply IH.
Qed.

Lemma BatchExtract_loop_unsigned acc txs :
  Exists unsigned txs -> Pkg.BatchExtract_loop acc txs = Panic Pkg.index_panic.
Proof.
  intros H; revert acc; induction H as [tx txs Htx | tx txs _ IH]; intros acc; simpl.
  - rewrite Htx. reflexivity.
  - destruct (Solana.Signatures tx); [reflexivity | apply IH].
Qed.

Lemma BatchExtractSigFromTx_Ok txs sigs :
  Pkg.BatchExtractSigFromTx txs = Ok sigs -> Forall2 first_signature txs sigs.
Proof.
  intros H. destruct (BatchExtract_loop_Ok _ _ _ H) as (firsts & -> & HF). exact HF.
Qed.

(** ** The status poll always comes back *)

Lemma waitLoop_total env fuel start txs w :
  (1 <= fuel)%nat ->
  SignaturesConfirmationTimeout - (now w - start) < (Z.of_nat fuel - 1) * Second ->
  exists r w', waitLoop env fuel start txs w = Some (r, w').
Proof.
  revert w; induction fuel as [|fuel IH]; intros w Hf Hb; [lia|].
  simpl. destruct (Pkg.BatchExtractSigFromTx txs) as [sigs|e|p]; try (eexists; eexists; reflexivity).
  destruct (GetSignatureStatuses env (statusCalls w) sigs) as [took [statuses|e|p]];
    try (eexists; eexists; reflexivity).
  destruct (Pkg.CheckSignatureStatuses statuses); [eexists; eexists; reflexivity|].
  cbn [now].
  destruct (now w + Z.of_N took - start >? SignaturesConfirmationTimeout) eqn:Ht;
    [eexists; eexists; reflexivity|].
  rewrite Z.gtb_ltb in Ht. apply Z.ltb_ge in Ht.
  unfold SignaturesConfirmationTimeout, SignaturesConfirmationRetryDelay, Second in *.
  apply IH; cbn [now Sleep]; lia.
Qed.

Lemma waitForSignatureStatuses_total env txs w :
  exists r w', waitForSignatureStatuses env txs w = Some (r, w').
Proof.
  apply waitLoop_total; unfold wait_rounds, SignaturesConfirmationTimeout, Second; lia.
Qed.

Lemma confirm_total env resp txs w :
  exists p w', confirm env resp txs w = Some (p, w').
Proof.
  unfold confirm.
  destruct (waitForSignatureStatuses_total env txs w) as (r & w' & ->).
  destruct r as [statuses|e|p]; try (eexists; eexists; reflexivity).
  destruct (Pkg.ValidateSignatureStatuses statuses); try (eexists; eexists; reflexivity).
  destruct (Pkg.BatchExtractSigFromTx txs); eexists; eexists; reflexivity.
Qed.

Lemma iteration_total env resp txs i w :
  exists p w', iteration env resp txs i w = Some (p, w').
Proof.
  unfold iteration.
  destruct (GRPCCtx_Err env i); [eexists; eexists; reflexivity|].
  cbn [receiveBundleResult].
  destruct (Stream_Recv env _) as [br|e|p].
  - destruct (handleBundleResult br); [eexists; eexists; reflexivity | apply confirm_total].
  - apply confirm_total.
  - eexists; eexists; reflexivity.
Qed.

Lemma confirmation_loop_total env resp txs remaining i w :
  exists r w', confirmation_loop env resp txs remaining i w = Some (r, w').
Proof.
  revert i w; induction remaining as [|n IH]; intros i w; simpl.
  - eexists; eexists; reflexivity.
  - destruct (iteration_total env resp txs i w) as ([r|] & w' & ->).
    + eexists; eexists; reflexivity.
    + apply IH.
Qed.

(** The model of the call never runs out of rounds: every call returns, or
    panics. *)
Lemma SendBundleWithConfirmation_total env txs w :
  exists r w', SendBundleWithConfirmation env txs w = Some (r, w').
Proof.
  unfold SendBundleWithConfirmation.
  destruct (SendBundle env txs); try (eexists; eexists; reflexivity).
  apply confirmation_loop_total.
Qed.

(** ** What a successful call returns *)

Lemma confirm_Ok env ack txs w resp w' :
  confirm env ack txs w = Some (Return (Ok resp), w') ->
  Response resp = ack /\ Forall2 first_signature txs (Signatures resp).
Proof.
  unfold confirm. intros H.
  destruct (waitForSignatureStatuses env txs w) as [[[statuses|e|p] w1]|]; try discriminate.
  destruct (Pkg.ValidateSignatureStatuses statuses); try discriminate.
  destruct (Pkg.BatchExtractSigFromTx txs) as [sigs|e|p] eqn:E; try discriminate.
  injection H as <- _. simpl. split; [reflexivity|].
  apply BatchExtractSigFromTx_Ok. exact E.
Qed.

Lemma iteration_Ok env ack txs i w resp w' :
  iteration env ack txs i w = Some (Return (Ok resp), w') ->
  Response resp = ack /\ Forall2 first_signature txs (Signatures resp).
Proof.
  unfold iteration. intros H.
  destruct (GRPCCtx_Err env i); [discriminate|].
  cbn [receiveBundleResult] in H.
  destruct (Stream_Recv env _) as [br|e|p]; try discriminate.
  - destruct (handleBundleResult br); [discriminate|]. eapply confirm_Ok; eauto.
  - eapply confirm_Ok; eauto.
Qed.

Lemma confirmation_loop_Ok env ack txs remaining i w resp w' :
  confirmation_loop env ack txs remaining i w = Some (Ok resp, w') ->
  Response resp = ack /\ Forall2 first_signature txs (Signatures resp).
Proof.
  revert i w; induction remaining as [|n IH]; intros i w H; simpl in H; [discriminate|].
  destruct (iteration env ack txs i w) as [[[r|] w1]|] eqn:E; try discriminate.
  - injection H as -> ->. eapply iteration_Ok; eauto.
  - eapply IH; eauto.
Qed.

(** C2.  When SendBundleWithConfirmation succeeds on a batch, the
    signatures of the response are, position by position, the first
    signature of each submitted transaction: same order, same length. *)
Theorem SendBundleWithConfirmation_signatures
  (env : Env) (txs : list Transaction) (w w' : World) (resp : BundleResponse) :
  SendBundleWithConfirmation env txs w = Some (Ok resp, w') ->
  Forall2 first_signature txs (Signatures resp)
  /\ List.length (Signatures resp) = List.length txs.
Proof.
  unfold SendBundleWithConfirmation. intros H.
  destruct (SendBundle env txs) as [ack|e|p]; try discriminate.
  apply confirmation_loop_Ok in H. destruct H as [_ H].
  split; [exact H | symmetry; eapply Forall2_length; eauto].
Qed.

(** The third pass confirms the two-transaction batch; its response lists
    the first signature of each, in order. *)
Lemma SendBundleWithConfirmation_signatures_witness :
  SendBundleWithConfirmation Scenario.env_confirmed_third Scenario.batch Scenario.w0
  = Some (Ok {| Response := Scenario.ack;
                Signatures := [Scenario.sig1; Scenario.sig3] |},
          Scenario.w_confirmed_third)
  /\ Forall2 first_signature Scenario.batch [Scenario.sig1; Scenario.sig3].
Proof.
  assert (E : SendBundleWithConfirmation Scenario.env_confirmed_third Scenario.batch
                Scenario.w0
              = Some (Ok {| Response := Scenario.ack;
                            Signatures := [Scenario.sig1; Scenario.sig3] |},
                      Scenario.w_confirmed_third))
    by (vm_compute; reflexivity).
  split; [exact E|].
  exact (proj1 (SendBundleWithConfirmation_signatures _ _ _ _ _ E)).
Defined.

(** ** Unsigned transactions *)

Lemma waitLoop_unsigned env fuel start txs w :
  Exists unsigned txs ->
  waitLoop env (S fuel) start txs w = Some (Panic Pkg.index_panic, w).
Proof.
  intros H. cbn [waitLoop]. unfold Pkg.BatchExtractSigFromTx.
  rewrite BatchExtract_loop_unsigned by exact H. reflexivity.
Qed.

Lemma confirm_unsigned env ack txs w :
  Exists unsigned txs ->
  confirm env ack txs w = Some (Return (Panic Pkg.index_panic), w).
Proof.
  intros H. unfold confirm, waitForSignatureStatuses.
  change wait_rounds with (S (Nat.pred wait_rounds)).
  rewrite waitLoop_unsigned by exact H. reflexivity.
Qed.

Lemma iteration_unsigned env ack txs i w p w' :
  Exists unsigned txs ->
  iteration env ack txs i w = Some (p, w') ->
  exists r, p = Return r /\ is_Ok r = false.
Proof.
  intros Hu. unfold iteration.
  destruct (GRPCCtx_Err env i).
  - intros H; injection H as <- _. eexists; split; reflexivity.
  - cbn [receiveBundleResult].
    destruct (Stream_Recv env _) as [br|e|q].
    + destruct (handleBundleResult br).
      * intros H; injection H as <- _. eexists; split; reflexivity.
      * rewrite confirm_unsigned by exact Hu.
        intros H; injection H as <- _. eexists; split; reflexivity.
    + rewrite confirm_unsigned by exact Hu.
      intros H; injection H as <- _. eexists; split; reflexivity.
    + intros H; injection H as <- _. eexists; split; reflexivity.
Qed.

Lemma confirmation_loop_unsigned env ack txs remaining i w r w' :
  Exists unsigned txs ->
  confirmation_loop env ack txs remaining i w = Some (r, w') ->
  is_Ok r = false.
Proof.
  intros Hu. destruct remaining as [|n]; simpl.
  - intros H; injection H as <- _. reflexivity.
  - destruct (iteration env ack txs i w) as [[p w1]|] eqn:E; [|discriminate].
    destruct (iteration_unsigned _ _ _ _ _ _ _ Hu E) as (r0 & -> & Hr).
    intros H; injection H as <- _. exact Hr.
Qed.

(** C10.  Extraction returns the first signature of a transaction that has
    one, and the list of first signatures of a batch whose transactions all
    have one; on a transaction without signatures the index is out of range
    and the extraction panics, so that SendBundleWithConfirmation never
    succeeds on a batch with an unsigned transaction: the pass that reaches
    the status poll panics. *)
Theorem extraction_requires_signatures
  (env : Env) (txs : list Transaction) (w : World) :
  (forall tx s rest, Solana.Signatures tx = s :: rest -> Pkg.ExtractSigFromTx tx = Ok s)
  /\ (forall tx, unsigned tx -> Pkg.ExtractSigFromTx tx = Panic Pkg.index_panic)
  /\ (Forall signed txs ->
      exists sigs, Pkg.BatchExtractSigFromTx txs = Ok sigs
                   /\ Forall2 (fun tx s => Pkg.ExtractSigFromTx tx = Ok s) txs sigs)
  /\ (Exists unsigned txs ->
      Pkg.BatchExtractSigFromTx txs = Panic Pkg.index_panic
      /\ (forall ack w1, confirm env ack txs w1 = Some (Return (Panic Pkg.index_panic), w1))
      /\ (forall r w', SendBundleWithConfirmation env txs w = Some (r, w') -> is_Ok r = false)).
Proof.
  split; [|split; [|split]].
  - intros tx s rest H. unfold Pkg.ExtractSigFromTx. rewrite H. reflexivity.
  - intros tx H. unfold Pkg.ExtractSigFromTx. rewrite H. reflexivity.
  - intros H. destruct (BatchExtract_loop_signed [] txs H) as (sigs & E).
    exists sigs. split; [exact E|].
    apply BatchExtractSigFromTx_Ok in E.
    induction E as [|tx s txs' sigs' (rest & Hs) _ IH]; constructor.
    + unfold Pkg.ExtractSigFromTx. rewrite Hs. reflexivity.
    + apply IH. inversion H; assumption.
  - intros H. split; [apply BatchExtract_loop_unsigned; exact H|].
    split; [intros; apply confirm_unsigned; exact H|].
    intros r w'. unfold SendBundleWithConfirmation.
    destruct (SendBundle env txs) as [ack|e|p].
    + apply confirmation_loop_unsigned; exact H.
    + intros E; injection E as <- _; reflexivity.
    + intros E; injection E as <- _; reflexivity.
Qed.

(** On a signed batch the extraction gives the two first signatures; with an
    unsigned transaction appended the call panics at its first status poll. *)
Lemma extraction_requires_signatures_witness :
  Pkg.BatchExtractSigFromTx Scenario.batch = Ok [Scenario.sig1; Scenario.sig3]
  /\ Pkg.BatchExtractSigFromTx (Scenario.batch ++ [Scenario.tx_unsigned])
     = Panic Pkg.index_panic
  /\ is_Ok (Panic (A:=BundleResponse) Pkg.index_panic) = false.
Proof.
  pose proof (extraction_requires_signatures Scenario.env_silent
                (Scenario.batch ++ [Scenario.tx_unsigned]) Scenario.w0) as (_ & _ & _ & H).
  assert (Hu : Exists unsigned (Scenario.batch ++ [Scenario.tx_unsigned])).
  { apply Exists_exists. exists Scenario.tx_unsigned. split; [|reflexivity].
    simpl. auto. }
  destruct (H Hu) as (Hp & _ & Hr).
  split; [reflexivity|]. split; [exact Hp|].
  apply (Hr (Panic Pkg.index_panic)
            {| now := 5000000000; recvCalls := 1; statusCalls := 0;
               output := ["error while receiving bundle result: EOF"] |}).
  vm_compute. reflexivity.
Defined.

(** ** Passes that neither reject nor confirm *)

Lemma handleBundleResult_quiet br :
  is_rejection br = false -> handleBundleResult br = None.
Proof.
  unfold is_rejection, handleBundleResult.
  destruct (Result br) as [[a|r]|]; try reflexivity.
  destruct (Reason r); [discriminate | reflexivity].
Qed.

Lemma handleBundleResult_classified br rejected reason :
  Result br = Some (BundleResult_Rejected rejected) ->
  Reason rejected = Some reason ->
  handleBundleResult br = Some (classified reason).
Proof.
  intros H1 H2. unfold handleBundleResult. rewrite H1, H2.
  destruct reason; reflexivity.
Qed.

Lemma Validate_unconfirmed v :
  Pkg.CheckSignatureStatuses_loop v = true ->
  forallb confirmed_status v = false ->
  Pkg.ValidateSignatureStatuses_loop v = Err Pkg.status_err.
Proof.
  induction v as [|[st|] v IH]; simpl; try discriminate.
  intros Hc Hf.
  destruct (String.eqb (ConfirmationStatus st) ConfirmationStatusProcessed); simpl in *.
  - auto.
  - destruct (String.eqb (ConfirmationStatus st) ConfirmationStatusConfirmed); simpl in *; auto.
Qed.

(** A status that is already "finalized" does not pass the validation. *)
Lemma Validate_finalized sigs :
  sigs <> [] ->
  Pkg.ValidateSignatureStatuses (Scenario.landed ConfirmationStatusFinalized sigs)
  = Err Pkg.status_err.
Proof.
  destruct sigs as [|s sigs]; [contradiction | reflexivity].
Qed.

Section Unconfirmed.
Variable env : Env.
Variable txs : list Transaction.
Hypothesis txs_signed : Forall signed txs.
Hypothesis polls_unconfirmed :
  forall n sigs, Pkg.BatchExtractSigFromTx txs = Ok sigs ->
                 unconfirmed (snd (GetSignatureStatuses env n sigs)).

Lemma waitLoop_unconfirmed fuel start w r w' :
  waitLoop env fuel start txs w = Some (r, w') ->
  recvCalls w' = recvCalls w
  /\ ((exists e, r = Err e)
      \/ (exists statuses, r = Ok statuses
                           /\ Pkg.CheckSignatureStatuses statuses = true
                           /\ all_confirmed statuses = false)).
Proof.
  revert w; induction fuel as [|fuel IH]; intros w; simpl; [discriminate|].
  destruct (BatchExtract_loop_signed [] txs txs_signed) as (sigs & E).
  unfold Pkg.BatchExtractSigFromTx. rewrite E.
  pose proof (polls_unconfirmed (statusCalls w) sigs E) as Hu.
  destruct (GetSignatureStatuses env (statusCalls w) sigs) as [took [statuses|e|p]];
    simpl in Hu.
  - destruct (Pkg.CheckSignatureStatuses_loop (Value statuses)) eqn:Hc.
    + unfold Pkg.CheckSignatureStatuses. rewrite Hc.
      intros H; injection H as <- <-. split; [reflexivity|].
      right. exists statuses. auto.
    + unfold Pkg.CheckSignatureStatuses. rewrite Hc.
      destruct (_ >? _).
      * intros H; injection H as <- <-. split; [reflexivity|]. left; eauto.
      * intros H. apply IH in H. exact H.
  - intros H; injection H as <- <-. split; [reflexivity|]. left; eauto.
  - contradiction.
Qed.

Lemma waitForSignatureStatuses_unconfirmed w r w' :
  waitForSignatureStatuses env txs w = Some (r, w') ->
  recvCalls w' = recvCalls w
  /\ ((exists e, r = Err e)
      \/ (exists statuses, r = Ok statuses
                           /\ Pkg.CheckSignatureStatuses statuses = true
                           /\ all_confirmed statuses = false)).
Proof. exact (waitLoop_unconfirmed wait_rounds (now w) w r w'). Qed.

Lemma confirm_unconfirmed ack w :
  exists w', confirm env ack txs w = Some (Continue, w')
             /\ recvCalls w' = recvCalls w.
Proof.
  unfold confirm.
  destruct (waitForSignatureStatuses_total env txs w) as (r & w' & E). rewrite E.
  apply waitForSignatureStatuses_unconfirmed in E. destruct E as (Hr & [(e & ->) | (sts & -> & Hc & Hf)]).
  - eauto.
  - unfold Pkg.ValidateSignatureStatuses.
    rewrite (Validate_unconfirmed _ Hc Hf). eauto.
Qed.

Hypothesis reads_quiet : forall n, quiet (Stream_Recv env n).

Lemma iteration_unconfirmed ack i w :
  GRPCCtx_Err env i = None ->
  exists w', iteration env ack txs i w = Some (Continue, w')
             /\ recvCalls w' = S (recvCalls w).
Proof.
  intros Hctx. unfold iteration. rewrite Hctx. cbn [receiveBundleResult].
  pose proof (reads_quiet (recvCalls (Sleep CheckBundleRetryDelay w))) as Hq.
  destruct (Stream_Recv env _) as [br|e|p]; simpl in Hq.
  - rewrite (handleBundleResult_quiet _ Hq).
    destruct (confirm_unconfirmed ack (Println "Bundle was sent."
      {| now := now (Sleep CheckBundleRetryDelay w);
         recvCalls := S (recvCalls (Sleep CheckBundleRetryDelay w));
         statusCalls := statusCalls (Sleep CheckBundleRetryDelay w);
         output := output (Sleep CheckBundleRetryDelay w) |})) as (w' & -> & Hr).
    exists w'. split; [reflexivity | exact Hr].
  - match goal with |- context [confirm env ack txs ?W] =>
      destruct (confirm_unconfirmed ack W) as (w' & -> & Hr) end.
    exists w'. split; [reflexivity | exact Hr].
  - contradiction.
Qed.

Lemma confirmation_loop_exhausted ack remaining i w :
  (forall j, (i <= j < i + remaining)%nat -> GRPCCtx_Err env j = None) ->
  exists w', confirmation_loop env ack txs remaining i w = Some (Err max_retries_err, w')
             /\ recvCalls w' = (recvCalls w + remaining)%nat.
Proof.
  revert i w; induction remaining as [|n IH]; intros i w Hctx; simpl.
  - exists w. split; [reflexivity | lia].
  - destruct (iteration_unconfirmed ack i w) as (w1 & -> & Hr1); [apply Hctx; lia|].
    destruct (IH (S i) w1) as (w' & -> & Hr); [intros j Hj; apply Hctx; lia|].
    exists w'. split; [reflexivity | lia].
Qed.

End Unconfirmed.

(** C3.  When the bundle was sent, the authentication context stays live
    through the five passes, no read of the stream brings a rejection and no
    answer of the status service shows every signature processed or
    confirmed, SendBundleWithConfirmation makes its five passes and returns
    the max-retries error, not a response. *)
Theorem SendBundleWithConfirmation_max_retries
  (env : Env) (txs : list Transaction) (w : World) (ack : SendBundleResponse) :
  SendBundle env txs = Ok ack ->
  Forall signed txs ->
  (forall i, (i < CheckBundleRetries)%nat -> GRPCCtx_Err env i = None) ->
  (forall n, quiet (Stream_Recv env n)) ->
  (forall n sigs, Pkg.BatchExtractSigFromTx txs = Ok sigs ->
                  unconfirmed (snd (GetSignatureStatuses env n sigs))) ->
  exists w',
    SendBundleWithConfirmation env txs w = Some (Err max_retries_err, w')
    /\ recvCalls w' = (recvCalls w + CheckBundleRetries)%nat
    /\ Error max_retries_err
       = "BroadcastBundleWithConfirmation error: max retries (5) exceeded".
Proof.
  intros Hsend Hsigned Hctx Hquiet Hpolls.
  unfold SendBundleWithConfirmation. rewrite Hsend.
  destruct (confirmation_loop_exhausted env txs Hsigned Hpolls Hquiet ack
              CheckBundleRetries 0 w) as (w' & E & Hr).
  - intros j Hj. apply Hctx. lia.
  - exists w'. split; [exact E|]. split; [exact Hr | reflexivity].
Qed.

(** Statuses perpetually absent and a silent stream: five passes, then the
    max-retries error. *)
Lemma SendBundleWithConfirmation_max_retries_witness :
  exists w',
    SendBundleWithConfirmation Scenario.env_silent Scenario.batch Scenario.w0
      = Some (Err max_retries_err, w')
    /\ recvCalls w' = 5%nat.
Proof.
  destruct (SendBundleWithConfirmation_max_retries
              Scenario.env_silent Scenario.batch Scenario.w0 Scenario.ack)
    as (w' & E & Hr & _).
  - reflexivity.
  - repeat constructor; discriminate.
  - intros; reflexivity.
  - intros n; exact I.
  - intros n sigs E. injection E as <-. reflexivity.
  - exists w'. split; [exact E | exact Hr].
Defined.

(** ** A rejection ends the call *)

Lemma confirmation_loop_after_passes env ack txs k r i w wk :
  after_passes env ack txs k i w = Some wk ->
  confirmation_loop env ack txs (k + r) i w
  = confirmation_loop env ack txs r (i + k) wk.
Proof.
  revert i w; induction k as [|k IH]; intros i w; simpl.
  - intros H; injection H as <-. rewrite Nat.add_0_r. reflexivity.
  - destruct (iteration env ack txs i w) as [[[o|] w1]|]; try discriminate.
    intros H. rewrite (IH _ _ H). f_equal. lia.
Qed.

(** C1.  Take a call that reaches pass [k] of the confirmation loop (the
    passes before it went on to the next one) with the context live, and let
    the stream deliver an event there.  If the event is a rejection with one
    of the five reasons, the call returns the error of that reason from this
    pass: no status query follows the read and no further read is made.  If
    the event is an acceptance, it raises no error and the pass goes on to
    poll the signature statuses. *)
Theorem rejection_is_terminal
  (env : Env) (txs : list Transaction) (w wk : World) (ack : SendBundleResponse)
  (k : nat) (event : BundleResult) :
  SendBundle env txs = Ok ack ->
  (k < CheckBundleRetries)%nat ->
  after_passes env ack txs k 0 w = Some wk ->
  GRPCCtx_Err env k = None ->
  Stream_Recv env (recvCalls wk) = Ok event ->
  (forall rejected reason,
      Result event = Some (BundleResult_Rejected rejected) ->
      Reason rejected = Some reason ->
      exists w',
        SendBundleWithConfirmation env txs w = Some (Err (classified reason), w')
        /\ kind_of_error (classified reason) = Some (kind_of reason)
        /\ recvCalls w' = S (recvCalls wk)
        /\ statusCalls w' = statusCalls wk
        /\ now w' = now wk + CheckBundleRetryDelay)
  /\ (forall a,
      Result event = Some (BundleResult_Accepted a) ->
      handleBundleResult event = None
      /\ iteration env ack txs k wk
         = confirm env ack txs
             (Println "Bundle was sent."
                (snd (receiveBundleResult env (Sleep CheckBundleRetryDelay wk))))).
Proof.
  intros Hsend Hk Hreach Hctx Hrecv. split.
  - intros rejected reason HR Hreason.
    unfold SendBundleWithConfirmation. rewrite Hsend.
    replace CheckBundleRetries with (k + S (CheckBundleRetries - S k))%nat by lia.
    rewrite (confirmation_loop_after_passes _ _ _ _ _ _ _ _ Hreach).
    cbn [confirmation_loop Nat.add]. unfold iteration. rewrite Hctx.
    cbn [receiveBundleResult Sleep recvCalls]. rewrite Hrecv.
    rewrite (handleBundleResult_classified _ _ _ HR Hreason).
    eexists. split; [reflexivity|].
    split; [destruct reason; reflexivity|].
    cbn. auto.
  - intros a HA.
    assert (Hh : handleBundleResult event = None)
      by (unfold handleBundleResult; rewrite HA; reflexivity).
    split; [exact Hh|].
    unfold iteration. rewrite Hctx.
    cbn [receiveBundleResult Sleep recvCalls snd]. rewrite Hrecv, Hh. reflexivity.
Qed.

(** A simulation failure delivered on pass 2 of 5: the call returns the
    simulation-failure error after two reads of the stream. *)
Lemma rejection_is_terminal_witness :
  exists w',
    SendBundleWithConfirmation Scenario.env_rejected_second Scenario.batch Scenario.w0
      = Some (Err (NewSimulationFailureError "sig" "bad"), w')
    /\ recvCalls w' = 2%nat.
Proof.
  destruct (rejection_is_terminal Scenario.env_rejected_second Scenario.batch
              Scenario.w0
              Scenario.w_after_first_pass
              Scenario.ack 1 Scenario.rejected_bad) as [H _].
  - reflexivity.
  - unfold CheckBundleRetries; lia.
  - vm_compute. reflexivity.
  - reflexivity.
  - reflexivity.
  - destruct (H {| Reason := Some Scenario.simulation_failure |}
                Scenario.simulation_failure eq_refl eq_refl)
      as (w' & E & _ & Hr & _).
    exists w'. split; [exact E | exact Hr].
Defined.

(** ** Classification of rejections *)

Lemma classified_kind reason :
  kind_of_error (classified reason) = Some (kind_of reason).
Proof. destruct reason; reflexivity. Qed.

(** Errors of different reasons are different errors. *)
Lemma classified_distinct r1 r2 :
  kind_of r1 <> kind_of r2 -> classified r1 <> classified r2.
Proof.
  intros Hk E. apply Hk.
  pose proof (classified_kind r1) as H1. pose proof (classified_kind r2) as H2.
  rewrite E in H1. congruence.
Qed.

(** handleBundleResult is a function of the event alone, and for the five
    reasons its error is never nil. *)
Lemma handleBundleResult_five_reasons event rejected reason :
  Result event = Some (BundleResult_Rejected rejected) ->
  Reason rejected = Some reason ->
  exists e, handleBundleResult event = Some e
            /\ kind_of_error e = Some (kind_of reason).
Proof.
  intros H1 H2. exists (classified reason).
  split; [eapply handleBundleResult_classified; eauto | apply classified_kind].
Qed.

(** C8.  A rejection whose reason is not one of the five known ones (the
    [oneof] is unset) takes the [default: return nil] branch: the event is a
    rejection, handleBundleResult returns the nil error for it, and
    SendBundleWithConfirmation logs "Bundle was sent." and goes on polling
    until the retries are used up. *)
Theorem rejection_without_reason_is_dropped :
  Result Scenario.rejected_without_reason
  = Some (BundleResult_Rejected {| Reason := None |})
  /\ handleBundleResult Scenario.rejected_without_reason = None
  /\ exists w',
      SendBundleWithConfirmation Scenario.env_unclassified Scenario.batch Scenario.w0
      = Some (Err max_retries_err, w')
      /\ hd_error (output w') = Some "Bundle was sent.".
Proof.
  split; [reflexivity|]. split; [reflexivity|].
  eexists. split; vm_compute; reflexivity.
Qed.

(** ** Opening a connection *)

(** C7.  An endpoint that is empty, that net/url cannot parse, or that
    parses without a host is refused with one of the three endpoint errors
    and nothing is dialled; an accepted endpoint without a port is dialled
    on port 80 when its scheme is http and on port 443 otherwise. *)
Theorem CreateGRPCConnection_endpoint
  (env : Conn.Env) (grpcAddr : string) (opts : list Conn.DialOption) :
  ((grpcAddr = ""
    \/ (exists e, Conn.url_Parse env grpcAddr = Err e)
    \/ (exists u, Conn.url_Parse env grpcAddr = Ok u /\ Conn.Hostname u = "")) ->
   exists e, Conn.CreateGRPCConnection env grpcAddr opts = (Err e, [])
             /\ invalid_endpoint e)
  /\ (forall u,
         grpcAddr <> "" ->
         Conn.url_Parse env grpcAddr = Ok u ->
         Conn.Hostname u <> "" ->
         Conn.Port u = "" ->
         let port := if String.eqb (Conn.Scheme u) "http" then "80" else "443" in
         exists opts',
           snd (Conn.CreateGRPCConnection env grpcAddr opts)
           = [Conn.Dial (Conn.Hostname u +++ ":" +++ port) opts']
           /\ forall m, fst (Conn.CreateGRPCConnection env grpcAddr opts) = Ok m ->
                        Conn.address m = Conn.Hostname u +++ ":" +++ port).
Proof.
  split.
  - intros [-> | [(e & He) | (u & Hu & Hh)]].
    + exists Conn.required_err. split; [reflexivity | left; reflexivity].
    + unfold Conn.CreateGRPCConnection.
      destruct (String.eqb grpcAddr "") eqn:E.
      * exists Conn.required_err. split; [reflexivity | left; reflexivity].
      * rewrite He. eexists. split; [reflexivity | right; left; eauto].
    + unfold Conn.CreateGRPCConnection.
      destruct (String.eqb grpcAddr "") eqn:E.
      * exists Conn.required_err. split; [reflexivity | left; reflexivity].
      * rewrite Hu, Hh. cbn. exists Conn.format_err.
        split; [reflexivity | right; right; reflexivity].
  - intros u Hne Hu Hh Hp port. subst port.
    unfold Conn.CreateGRPCConnection.
    apply String.eqb_neq in Hne. rewrite Hne, Hu.
    apply String.eqb_neq in Hh. rewrite Hh, Hp. cbn [String.eqb].
    destruct (Conn.DialContext env 0 _ _) eqn:Ed.
    + eexists. split; [reflexivity|]. intros m Hm. discriminate.
    + eexists. split; [reflexivity|]. intros m Hm. injection Hm as <-. reflexivity.
Qed.

(** "localhost:8080" parses without a host and is refused before any dial;
    the New York endpoint, which names no port, is dialled on 443. *)
Lemma CreateGRPCConnection_endpoint_witness :
  (exists e, Conn.CreateGRPCConnection Scenario.cenv "localhost:8080" [] = (Err e, [])
             /\ invalid_endpoint e)
  /\ exists opts',
      snd (Conn.CreateGRPCConnection Scenario.cenv Scenario.ny [])
      = [Conn.Dial "ny.mainnet.block-engine.jito.wtf:443" opts'].
Proof.
  split.
  - apply (proj1 (CreateGRPCConnection_endpoint Scenario.cenv "localhost:8080" [])).
    right; right. eexists. split; reflexivity.
  - destruct (proj2 (CreateGRPCConnection_endpoint Scenario.cenv Scenario.ny [])
                {| Conn.Scheme := "https";
                   Conn.Hostname := "ny.mainnet.block-engine.jito.wtf";
                   Conn.Port := "" |}) as (opts' & H & _).
    + discriminate.
    + reflexivity.
    + discriminate.
    + reflexivity.
    + exists opts'. exact H.
Defined.

(** ** The connection monitor *)






Lemma close_and_redial_app_wait acts c s :
  Conn.close_and_redial (acts ++ [Conn.WaitForStateChange c s])
  = Conn.close_and_redial acts.
Proof.
  induction acts as [|a acts IH]; [reflexivity|].
  destruct a; cbn [app Conn.close_and_redial]; try exact IH.
  destruct acts as [|b acts']; [reflexivity|].
  destruct b; try reflexivity; exact IH.
Qed.



(** ** Error channels *)

(** C9 (as the code has it).  The authentication service's ErrChan is made
    with room for one error: a first push on it completes, a second one
    waits for a consumer.  The error channel that NewSearcherClient makes
    and hands to the connection monitor is unbuffered: every client it
    returns carries a channel of capacity 0, on which a push completes only
    when a receiver takes the error. *)
Theorem error_channel_capacities :
  (forall ctx, exists ch,
      Auth.ErrChan (Auth.NewAuthenticationService ctx) = Some ch
      /\ cap ch = 1%nat /\ buf ch = [])
  /\ (forall ctx e, exists a,
         Auth.push e (Auth.NewAuthenticationService ctx) = Some a
         /\ forall e', Auth.push e' a = None)
  /\ (forall cenv aenv subscribe ctx grpcAddr keyPair opts client,
         Searcher.NewSearcherClient cenv aenv subscribe ctx grpcAddr keyPair opts
         = Some (Ok client) ->
         cap (Searcher.ErrChan client) = 0%nat
         /\ forall e, send (Searcher.ErrChan client) e = None).
Proof.
  split; [|split].
  - intros ctx. eexists. split; [reflexivity|]. split; reflexivity.
  - intros ctx e. eexists. split; [reflexivity|]. intros e'. reflexivity.
  - intros cenv aenv subscribe ctx grpcAddr keyPair opts client.
    unfold Searcher.NewSearcherClient.
    destruct (fst (Conn.CreateGRPCConnection cenv grpcAddr opts)) as [conn|e|p];
      try discriminate.
    assert (Hfin : forall a,
      match subscribe (Auth.GRPCCtx a) with
      | Some e => Err (Searcher.subscription_err e)
      | None => Ok {| Searcher.GRPCConn := conn; Searcher.AuthenticationService := a;
                      Searcher.ErrChan := Searcher.chErr |}
      end = Ok client ->
      cap (Searcher.ErrChan client) = 0%nat
      /\ forall e, send (Searcher.ErrChan client) e = None).
    { intros a. destruct (subscribe (Auth.GRPCCtx a)); [discriminate|].
      intros H; injection H as <-. split; reflexivity. }
    destruct keyPair as [key|].
    + destruct (Auth.handshake aenv Auth.Role_SEARCHER _) as [[a tp]|e|p];
        try discriminate.
      destruct (Auth.bearer_installed a); [|discriminate].
      intros H; injection H as H. exact (Hfin _ H).
    + intros H; injection H as H. exact (Hfin (Searcher.unauthenticated ctx) H).
Qed.

(** The client built for "http://localhost" carries an error channel on
    which a push does not complete. *)
Lemma error_channel_capacities_witness :
  exists client,
    Searcher.NewSearcherClient Scenario.cenv Scenario.aenv (fun _ => None)
      Auth.Background "http://localhost" Scenario.keyPair [] = Some (Ok client)
    /\ cap (Searcher.ErrChan client) = 0%nat
    /\ send (Searcher.ErrChan client) Scenario.unavailable = None.
Proof.
  eexists. split; [reflexivity|].
  destruct error_channel_capacities as (_ & _ & H).
  destruct (H Scenario.cenv Scenario.aenv (fun _ => None) Auth.Background
              "http://localhost" Scenario.keyPair [] _ eq_refl) as (Hc & Hs).
  split; [exact Hc | apply Hs].
Defined.

(** A capacity between 1 and 10 does not hold of the connection manager's
    channel: its capacity is 0, and a push on it with no receiver waits. *)
Lemma error_channel_unbuffered :
  exists client,
    Searcher.NewSearcherClient Scenario.cenv Scenario.aenv (fun _ => None)
      Auth.Background "http://localhost" Scenario.keyPair [] = Some (Ok client)
    /\ ~ (1 <= cap (Searcher.ErrChan client) <= 10)%nat
    /\ send (Searcher.ErrChan client) Scenario.unavailable = None.
Proof.
  eexists. split; [reflexivity|]. split; [cbn; lia | reflexivity].
Qed.

(** ** The refresh goroutine *)

(** What updateAuthorizationMetadata leaves alone, and what it installs
    whether or not it panics. *)
Lemma updateAuthorizationMetadata_installs token a :
  Auth.GRPCCtx (snd (Auth.updateAuthorizationMetadata token a)) = Auth.bearer_metadata token
  /\ Auth.BearerToken (snd (Auth.updateAuthorizationMetadata token a)) = Auth.Value token
  /\ Auth.ErrChan (snd (Auth.updateAuthorizationMetadata token a)) = Auth.ErrChan a
  /\ Auth.mu (snd (Auth.updateAuthorizationMetadata token a)) = Auth.mu a.
Proof.
  unfold Auth.updateAuthorizationMetadata.
  destruct (Auth.ExpiresAtUtc token); cbn; auto.
Qed.

Lemma updateAuthorizationMetadata_Ok token a u a' :
  Auth.updateAuthorizationMetadata token a = (Ok u, a') ->
  stored a' = Auth.pair_of token /\ Auth.ExpiresAtUtc token <> None.
Proof.
  unfold Auth.updateAuthorizationMetadata, Auth.pair_of, stored.
  destruct (Auth.ExpiresAtUtc token) as [ts|]; [|discriminate].
  intros H; injection H as _ <-. cbn. split; [reflexivity | discriminate].
Qed.

Section Refresh.
Variable env : Auth.Env.
Variable respToken : Auth.GenerateAuthTokensResponse.


(** A consumer changes nothing but the buffer of the channel. *)
Lemma drain_preserves s s' :
  Auth.drain s = Some s' ->
  Auth.at_pc s' = Auth.at_pc s
  /\ Auth.clock s' = Auth.clock s
  /\ Auth.selects s' = Auth.selects s
  /\ Auth.refreshCalls s' = Auth.refreshCalls s
  /\ Auth.GRPCCtx (Auth.svc s') = Auth.GRPCCtx (Auth.svc s).
Proof.
  unfold Auth.drain. destruct (Auth.ErrChan (Auth.svc s)) as [ch|]; [|discriminate].
  destruct (recv ch) as [[e ch']|]; [|discriminate].
  intros H; injection H as <-. cbn. auto.
Qed.

Ltac sound_events :=
  split; intros x Hx; cbn in Hx;
  repeat (destruct Hx as [Hx|Hx];
          [first [discriminate | injection Hx as <-; solve [eauto | reflexivity]]|]);
  contradiction.

Lemma sound_app evs1 evs2 :
  sound env (Auth.Value (Auth.RefreshToken respToken)) evs1 -> sound env (Auth.Value (Auth.RefreshToken respToken)) evs2 -> sound env (Auth.Value (Auth.RefreshToken respToken)) (evs1 ++ evs2).
Proof.
  intros [A1 B1] [A2 B2]. split; intros x Hx; apply in_app_or in Hx;
    destruct Hx; auto.
Qed.

Lemma refresh_step_sound s evs s' :
  Auth.refresh_step env respToken s = Some (evs, s') -> sound env (Auth.Value (Auth.RefreshToken respToken)) evs.
Proof.
  unfold Auth.refresh_step.
  destruct (Auth.at_pc s) as [ |e|e|d| | ]; try discriminate.
  - destruct (Auth.ctx_Err _ _) as [e|] eqn:Ec.
    + intros H; injection H as <- _. sound_events.
    + destruct (Auth.RefreshAccessToken env _ _) as [token|err|p];
        [destruct (Auth.updateAuthorizationMetadata token (Auth.svc s)) as [[u|e|p] a]| |];
        intros H; injection H as <- _; sound_events.
  - destruct (Auth.push e _); [|discriminate].
    intros H; injection H as <- _. sound_events.
  - destruct (Auth.push e _); [|discriminate].
    intros H; injection H as <- _. sound_events.
  - intros H; injection H as <- _. sound_events.
Qed.

Lemma execution_sound moves s evs s' :
  Auth.execution env respToken moves s = Some (evs, s') -> sound env (Auth.Value (Auth.RefreshToken respToken)) evs.
Proof.
  revert s evs s'; induction moves as [|[|] moves IH]; intros s evs s'; simpl.
  - intros H; injection H as <- _. split; intros x [].
  - destruct (Auth.refresh_step env respToken s) as [[evs1 s1]|] eqn:E1; [|discriminate].
    destruct (Auth.execution env respToken moves s1) as [[evs2 s2]|] eqn:E2; [|discriminate].
    intros H; injection H as <- _.
    apply sound_app; [eapply refresh_step_sound; eauto | eapply IH; eauto].
  - destruct (Auth.drain s) as [s1|]; [|discriminate]. apply IH.
Qed.

(** One statement reaches [Exited] only from the push of the context's
    error. *)
Lemma refresh_step_exit s evs s' :
  Auth.refresh_step env respToken s = Some (evs, s') ->
  Auth.at_pc s' = Auth.Exited ->
  exists e, Auth.at_pc s = Auth.PushCtxErr e.
Proof.
  unfold Auth.refresh_step.
  destruct (Auth.at_pc s) as [ |e|e|d| | ]; try discriminate; eauto.
  - destruct (Auth.ctx_Err _ _); [intros H; injection H as _ <-; discriminate|].
    destruct (Auth.RefreshAccessToken env _ _) as [token|err|p];
      [destruct (Auth.updateAuthorizationMetadata token (Auth.svc s)) as [[u|e|p] a]| |];
      intros H; injection H as _ <-; cbn; try discriminate.
    destruct (_ >? 0); discriminate.
  - destruct (Auth.push e _); [|discriminate]. intros H; injection H as _ <-. discriminate.
  - intros H; injection H as _ <-. discriminate.
Qed.

(** One statement reaches the push of the context's error only from a
    select that saw the context done. *)
Lemma refresh_step_done s evs s' e :
  Auth.refresh_step env respToken s = Some (evs, s') ->
  Auth.at_pc s' = Auth.PushCtxErr e ->
  In (Auth.SawDone e) evs.
Proof.
  unfold Auth.refresh_step.
  destruct (Auth.at_pc s) as [ |e0|e0|d| | ]; try discriminate.
  - destruct (Auth.ctx_Err _ _) as [e1|].
    + intros H; injection H as <- <-. cbn. intros H; injection H as ->. left; reflexivity.
    + destruct (Auth.RefreshAccessToken env _ _) as [token|err|p];
        [destruct (Auth.updateAuthorizationMetadata token (Auth.svc s)) as [[u|e2|p] a]| |];
        intros H; injection H as _ <-; cbn; try discriminate.
      destruct (_ >? 0); discriminate.
  - destruct (Auth.push e0 _); [|discriminate]. intros H; injection H as _ <-. discriminate.
  - destruct (Auth.push e0 _); [|discriminate]. intros H; injection H as _ <-. discriminate.
  - intros H; injection H as _ <-. discriminate.
Qed.

(** The goroutine returns only through the Done branch of its select. *)
Lemma execution_exit moves s evs s' :
  Auth.execution env respToken moves s = Some (evs, s') ->
  Auth.at_pc s' = Auth.Exited ->
  Auth.at_pc s = Auth.Exited
  \/ (exists e, Auth.at_pc s = Auth.PushCtxErr e)
  \/ (exists e, In (Auth.SawDone e) evs).
Proof.
  revert s evs; induction moves as [|[|] moves IH]; intros s evs; simpl.
  - intros H; injection H as _ <-. auto.
  - destruct (Auth.refresh_step env respToken s) as [[evs1 s1]|] eqn:E1; [|discriminate].
    destruct (Auth.execution env respToken moves s1) as [[evs2 s2]|] eqn:E2; [|discriminate].
    intros H Hx; injection H as <- <-.
    destruct (IH _ _ E2 Hx) as [Hs1 | [(e & Hs1) | (e & Hin)]].
    + right; left. exact (refresh_step_exit _ _ _ E1 Hs1).
    + right; right. exists e. apply in_or_app. left.
      exact (refresh_step_done _ _ _ _ E1 Hs1).
    + right; right. exists e. apply in_or_app. auto.
  - destruct (Auth.drain s) as [s1|] eqn:Ed; [|discriminate].
    intros H Hx. destruct (drain_preserves _ _ Ed) as (Hpc & _).
    rewrite <- Hpc. eapply IH; eauto.
Qed.

(** From [time.Sleep(d)] the next statement of the goroutine is the sleep. *)
Lemma execution_from_sleep d moves s evs s' :
  Auth.at_pc s = Auth.Sleeping d ->
  Auth.execution env respToken moves s = Some (evs, s') ->
  evs = [] \/ exists rest, evs = Auth.Slept d :: rest.
Proof.
  revert s evs; induction moves as [|[|] moves IH]; intros s evs Hpc; simpl.
  - intros H; injection H as <- _. auto.
  - unfold Auth.refresh_step. rewrite Hpc.
    destruct (Auth.execution env respToken moves _) as [[evs2 s2]|]; [|discriminate].
    intros H; injection H as <- _. right. eexists; reflexivity.
  - destruct (Auth.drain s) as [s1|] eqn:Ed; [|discriminate].
    destruct (drain_preserves _ _ Ed) as (Hpc1 & _).
    apply IH. congruence.
Qed.

(** From the push of a refresh error: the push, then the minute's sleep. *)
Lemma execution_from_push e moves s evs s' :
  Auth.at_pc s = Auth.PushRefreshErr e ->
  Auth.execution env respToken moves s = Some (evs, s') ->
  evs = [] \/ evs = [Auth.Pushed e]
  \/ exists rest, evs = Auth.Pushed e :: Auth.Slept Minute :: rest.
Proof.
  revert s evs; induction moves as [|[|] moves IH]; intros s evs Hpc; simpl.
  - intros H; injection H as <- _. auto.
  - unfold Auth.refresh_step. rewrite Hpc.
    destruct (Auth.push e (Auth.svc s)) as [a|]; [|discriminate].
    destruct (Auth.execution env respToken moves _) as [[evs2 s2]|] eqn:E2; [|discriminate].
    intros H; injection H as <- _.
    apply execution_from_sleep with (d := Minute) in E2; [|reflexivity].
    destruct E2 as [-> | (rest & ->)].
    + right; left; reflexivity.
    + right; right. eexists; reflexivity.
  - destruct (Auth.drain s) as [s1|] eqn:Ed; [|discriminate].
    destruct (drain_preserves _ _ Ed) as (Hpc1 & _).
    apply IH. congruence.
Qed.

(** From a select whose refresh call fails. *)
Lemma execution_from_failure err moves s evs s' :
  Auth.at_pc s = Auth.AtSelect ->
  Auth.ctx_Err (Auth.cancelled env (Auth.selects s)) (Auth.GRPCCtx (Auth.svc s)) = None ->
  Auth.RefreshAccessToken env (Auth.refreshCalls s)
    (Auth.Value (Auth.RefreshToken respToken)) = Err err ->
  Auth.execution env respToken moves s = Some (evs, s') ->
  let tok := Auth.Value (Auth.RefreshToken respToken) in
  let e := Auth.refresh_failed err in
  evs = [] \/ evs = [Auth.CalledRefresh tok]
  \/ evs = [Auth.CalledRefresh tok; Auth.Pushed e]
  \/ exists rest,
      evs = Auth.CalledRefresh tok :: Auth.Pushed e :: Auth.Slept Minute :: rest.
Proof.
  revert s evs; induction moves as [|[|] moves IH]; intros s evs Hpc Hctx Hfail; simpl.
  - intros H; injection H as <- _. auto.
  - unfold Auth.refresh_step. rewrite Hpc, Hctx, Hfail.
    destruct (Auth.execution env respToken moves _) as [[evs2 s2]|] eqn:E2; [|discriminate].
    intros H; injection H as <- _.
    apply execution_from_push with (e := Auth.refresh_failed err) in E2; [|reflexivity].
    destruct E2 as [-> | [-> | (rest & ->)]].
    + right; left; reflexivity.
    + right; right; left; reflexivity.
    + right; right; right. eexists; reflexivity.
  - destruct (Auth.drain s) as [s1|] eqn:Ed; [|discriminate].
    destruct (drain_preserves _ _ Ed) as (Hpc1 & _ & Hsel & Hcalls & Hc).
    apply IH; congruence.
Qed.

(** A goroutine that cannot make its next statement cannot make any
    number of them: without a consumer it stays where it is. *)
Lemma blocked_stays_blocked s n :
  Auth.refresh_step env respToken s = None ->
  Auth.execution env respToken (repeat Auth.Loop (S n)) s = None.
Proof. intros H. cbn [repeat Auth.execution]. rewrite H. reflexivity. Qed.

(** The push of a refresh error on a channel without room does not
    complete. *)
Lemma push_on_full_channel s e ch :
  Auth.at_pc s = Auth.PushRefreshErr e ->
  Auth.ErrChan (Auth.svc s) = Some ch ->
  (cap ch <= List.length (buf ch))%nat ->
  Auth.refresh_step env respToken s = None.
Proof.
  intros Hpc Hch Hfull. unfold Auth.refresh_step. rewrite Hpc.
  unfold Auth.push. rewrite Hch. unfold send.
  apply Nat.ltb_ge in Hfull. rewrite Hfull. reflexivity.
Qed.

End Refresh.

(** C5 (as the code has it).  Take the refresh goroutine at its select,
    with the context live and the RefreshAccessToken call failing.  The
    goroutine has called with the refresh token of the handshake and is at
    the push of the wrapped error, the credential untouched.  The push is a
    blocking send on ErrChan.  With room in the channel the next statements
    are the push, which puts the error at the back of the buffer, and a
    sleep of one minute, after which the goroutine is back at its select
    one call later.  With the channel full the goroutine stays in the push
    and calls nothing, however long it is let run; when a consumer takes the
    oldest error off the channel the push goes through and the minute's
    sleep follows.  In every execution the trace begins call, push, sleep
    in this order, every refresh call carries the same refresh token, and
    the goroutine has returned only if a select saw the context
    cancelled. *)
Theorem refresh_failure_is_retried
  (env : Auth.Env) (respToken : Auth.GenerateAuthTokensResponse)
  (s : Auth.Refresher) (err : error) :
  Auth.at_pc s = Auth.AtSelect ->
  Auth.ctx_Err (Auth.cancelled env (Auth.selects s)) (Auth.GRPCCtx (Auth.svc s)) = None ->
  Auth.RefreshAccessToken env (Auth.refreshCalls s)
    (Auth.Value (Auth.RefreshToken respToken)) = Err err ->
  let tok := Auth.Value (Auth.RefreshToken respToken) in
  let e := Auth.refresh_failed err in
  (exists s1,
      Auth.refresh_step env respToken s = Some ([Auth.CalledRefresh tok], s1)
      /\ Auth.at_pc s1 = Auth.PushRefreshErr e
      /\ Auth.refreshCalls s1 = S (Auth.refreshCalls s)
      /\ Auth.svc s1 = Auth.svc s)
  /\ (forall ch,
         Auth.ErrChan (Auth.svc s) = Some ch ->
         (List.length (buf ch) < cap ch)%nat ->
         exists s3,
           Auth.execution env respToken [Auth.Loop; Auth.Loop; Auth.Loop] s
           = Some ([Auth.CalledRefresh tok; Auth.Pushed e; Auth.Slept Minute], s3)
           /\ Auth.at_pc s3 = Auth.AtSelect
           /\ Auth.clock s3 = Auth.clock s + Minute
           /\ Auth.refreshCalls s3 = S (Auth.refreshCalls s)
           /\ Auth.ErrChan (Auth.svc s3) = Some {| cap := cap ch; buf := buf ch ++ [e] |}
           /\ stored (Auth.svc s3) = stored (Auth.svc s)
           /\ Auth.GRPCCtx (Auth.svc s3) = Auth.GRPCCtx (Auth.svc s))
  /\ (forall ch,
         Auth.ErrChan (Auth.svc s) = Some ch ->
         (cap ch <= List.length (buf ch))%nat ->
         (forall n, Auth.execution env respToken (Auth.Loop :: repeat Auth.Loop (S n)) s
                    = None)
         /\ forall oldest rest,
             buf ch = oldest :: rest ->
             (List.length rest < cap ch)%nat ->
             exists s3,
               Auth.execution env respToken
                 [Auth.Loop; Auth.Drain; Auth.Loop; Auth.Loop] s
               = Some ([Auth.CalledRefresh tok; Auth.Pushed e; Auth.Slept Minute], s3)
               /\ Auth.at_pc s3 = Auth.AtSelect
               /\ Auth.clock s3 = Auth.clock s + Minute
               /\ Auth.ErrChan (Auth.svc s3)
                  = Some {| cap := cap ch; buf := rest ++ [e] |})
  /\ (forall moves evs s',
         Auth.execution env respToken moves s = Some (evs, s') ->
         (evs = [] \/ evs = [Auth.CalledRefresh tok]
          \/ evs = [Auth.CalledRefresh tok; Auth.Pushed e]
          \/ exists rest,
              evs = Auth.CalledRefresh tok :: Auth.Pushed e :: Auth.Slept Minute :: rest)
         /\ (forall t, In (Auth.CalledRefresh t) evs -> t = tok)
         /\ (Auth.at_pc s' = Auth.Exited ->
             exists e' k c, In (Auth.SawDone e') evs
                            /\ Auth.ctx_Err (Auth.cancelled env k) c = Some e')).
Proof.
  intros Hpc Hctx Hfail tok e.
  assert (Hstep : Auth.refresh_step env respToken s
                  = Some ([Auth.CalledRefresh tok],
                          {| Auth.svc := Auth.svc s; Auth.at_pc := Auth.PushRefreshErr e;
                             Auth.clock := Auth.clock s;
                             Auth.selects := S (Auth.selects s);
                             Auth.refreshCalls := S (Auth.refreshCalls s) |})).
  { unfold Auth.refresh_step. rewrite Hpc, Hctx, Hfail. reflexivity. }
  split; [|split; [|split]].
  - eexists. split; [exact Hstep|]. cbn. auto.
  - intros ch Hch Hroom.
    cbn [Auth.execution]. rewrite Hstep.
    unfold Auth.refresh_step at 1. cbn [Auth.at_pc Auth.svc].
    unfold Auth.push. rewrite Hch. unfold send.
    apply Nat.ltb_lt in Hroom. rewrite Hroom.
    unfold Auth.refresh_step. cbn [Auth.at_pc Auth.svc Auth.clock app].
    eexists. split; [reflexivity|]. cbn. repeat split.
  - intros ch Hch Hfull. split.
    + intros n. cbn [Auth.execution]. rewrite Hstep.
      rewrite (blocked_stays_blocked env respToken _ n); [reflexivity|].
      apply (push_on_full_channel env respToken _ e ch); [reflexivity | exact Hch | exact Hfull].
    + intros oldest rest Hbuf Hroom.
      cbn [Auth.execution]. rewrite Hstep.
      unfold Auth.drain. cbn [Auth.svc]. rewrite Hch. unfold recv. rewrite Hbuf.
      unfold Auth.refresh_step at 1. cbn [Auth.at_pc Auth.svc].
      unfold Auth.push, Auth.with_chan. cbn [Auth.ErrChan]. unfold send. cbn [buf cap].
      apply Nat.ltb_lt in Hroom. rewrite Hroom.
      unfold Auth.refresh_step. cbn [Auth.at_pc Auth.svc Auth.clock app].
      eexists. split; [reflexivity|]. cbn. repeat split.
  - intros moves evs s' Hex.
    split; [exact (execution_from_failure env respToken err moves s evs s' Hpc Hctx Hfail Hex)|].
    destruct (execution_sound env respToken moves s evs s' Hex) as [Hcalls Hdone].
    split; [exact Hcalls|].
    intros Hexit.
    destruct (execution_exit env respToken moves s evs s' Hex Hexit)
      as [H | [(e0 & H) | (e0 & Hin)]]; try congruence.
    destruct (Hdone e0 Hin) as (k & c & Hc). eauto.
Qed.

(** After the handshake every refresh fails: the first failure is pushed
    on the empty ErrChan, which then holds it; the goroutine sleeps a
    minute and is back at its select. *)
Lemma refresh_failure_is_retried_witness :
  exists s3,
    Auth.execution Scenario.aenv Scenario.tokens [Auth.Loop; Auth.Loop; Auth.Loop]
      Scenario.refresher0
    = Some ([Auth.CalledRefresh "r-1";
             Auth.Pushed (Auth.refresh_failed Scenario.unavailable);
             Auth.Slept Minute], s3)
    /\ Auth.at_pc s3 = Auth.AtSelect
    /\ Auth.clock s3 = Minute
    /\ Auth.ErrChan (Auth.svc s3)
       = Some {| cap := 1; buf := [Auth.refresh_failed Scenario.unavailable] |}.
Proof.
  destruct (refresh_failure_is_retried Scenario.aenv Scenario.tokens
              Scenario.refresher0 Scenario.unavailable eq_refl eq_refl eq_refl)
    as (_ & H & _).
  destruct (H (make_chan 1) eq_refl) as (s3 & E & Hpc & Hclock & _ & Hch & _).
  - cbn. lia.
  - exists s3. split; [exact E|]. split; [exact Hpc|]. split; [exact Hclock | exact Hch].
Defined.

(** Nothing receives from ErrChan: after the handshake, with every refresh
    failing, the first error fills the channel and the second failure leaves
    the goroutine in its push.  Two calls have been made, and no number of
    further statements makes a third. *)
Lemma second_failure_is_not_retried :
  exists evs s,
    Auth.execution Scenario.aenv Scenario.tokens (repeat Auth.Loop 4) Scenario.refresher0
    = Some (evs, s)
    /\ Auth.refreshCalls s = 2%nat
    /\ Auth.at_pc s = Auth.PushRefreshErr (Auth.refresh_failed Scenario.unavailable)
    /\ Auth.ErrChan (Auth.svc s)
       = Some {| cap := 1; buf := [Auth.refresh_failed Scenario.unavailable] |}
    /\ forall n,
         Auth.execution Scenario.aenv Scenario.tokens (repeat Auth.Loop (S n)) s = None.
Proof.
  eassert (E : Auth.execution Scenario.aenv Scenario.tokens (repeat Auth.Loop 4)
                 Scenario.refresher0 = Some (_, _)) by (vm_compute; reflexivity).
  eexists; eexists. split; [exact E|].
  split; [reflexivity|]. split; [reflexivity|]. split; [reflexivity|].
  intros n. apply blocked_stays_blocked. reflexivity.
Qed.

(** The context the handshake installs is derived from
    [context.Background()]: it is never cancelled, so the goroutine started
    by AuthenticateAndRefresh never leaves its loop. *)
Lemma refresh_loop_never_exits env respToken moves a t0 evs s' token :
  Auth.GRPCCtx a = Auth.bearer_metadata token ->
  Auth.execution env respToken moves (Auth.started a t0) = Some (evs, s') ->
  Auth.at_pc s' <> Auth.Exited.
Proof.
  intros Hctx Hex Hexit.
  assert (Hinv : forall moves s evs s',
    (exists token, Auth.GRPCCtx (Auth.svc s) = Auth.bearer_metadata token) ->
    Auth.execution env respToken moves s = Some (evs, s') ->
    forall e, ~ In (Auth.SawDone e) evs).
  { clear. induction moves as [|[|] moves IH]; intros s evs s' (token & Hc); simpl.
    - intros H; injection H as <- _. intros e [].
    - destruct (Auth.refresh_step env respToken s) as [[evs1 s1]|] eqn:E1; [|discriminate].
      destruct (Auth.execution env respToken moves s1) as [[evs2 s2]|] eqn:E2; [|discriminate].
      intros H; injection H as <- _. intros e Hin.
      assert (H1 : (exists token, Auth.GRPCCtx (Auth.svc s1) = Auth.bearer_metadata token)
                   /\ ~ In (Auth.SawDone e) evs1).
      { unfold Auth.refresh_step in E1.
        destruct (Auth.at_pc s) as [ |e0|e0|d| | ]; try discriminate.
        - rewrite Hc in E1. cbn [Auth.ctx_Err Auth.bearer_metadata] in E1.
          destruct (Auth.RefreshAccessToken env _ _) as [tk|err|p].
          + pose proof (updateAuthorizationMetadata_installs tk (Auth.svc s)) as (Hg & _).
            destruct (Auth.updateAuthorizationMetadata tk (Auth.svc s)) as [[u|e1|p] a1];
              cbn [snd] in Hg; injection E1 as <- <-; cbn;
              (split; [eauto | intros Hx; repeat (destruct Hx as [Hx|Hx]; [discriminate|]);
                                contradiction]).
          + injection E1 as <- <-; cbn.
            split; [eauto | intros Hx; repeat (destruct Hx as [Hx|Hx]; [discriminate|]);
                            contradiction].
          + injection E1 as <- <-; cbn.
            split; [eauto | intros Hx; repeat (destruct Hx as [Hx|Hx]; [discriminate|]);
                            contradiction].
        - unfold Auth.push in E1. destruct (Auth.ErrChan (Auth.svc s)) as [ch|]; [|discriminate].
          destruct (send ch e0); [|discriminate]. injection E1 as <- <-; cbn.
          split; [eauto | intros Hx; repeat (destruct Hx as [Hx|Hx]; [discriminate|]);
                          contradiction].
        - unfold Auth.push in E1. destruct (Auth.ErrChan (Auth.svc s)) as [ch|]; [|discriminate].
          destruct (send ch e0); [|discriminate]. injection E1 as <- <-; cbn.
          split; [eauto | intros Hx; repeat (destruct Hx as [Hx|Hx]; [discriminate|]);
                          contradiction].
        - injection E1 as <- <-; cbn.
          split; [eauto | intros Hx; repeat (destruct Hx as [Hx|Hx]; [discriminate|]);
                          contradiction]. }
      destruct H1 as [Hc1 Hn1]. apply in_app_or in Hin. destruct Hin as [Hin|Hin].
      + exact (Hn1 Hin).
      + exact (IH _ _ _ Hc1 E2 e Hin).
    - destruct (Auth.drain s) as [s1|] eqn:Ed; [|discriminate].
      destruct (drain_preserves _ _ Ed) as (_ & _ & _ & _ & Hg).
      apply IH. exists token. congruence. }
  destruct (execution_exit env respToken moves _ evs s' Hex Hexit)
    as [H | [(e0 & H) | (e0 & Hin)]]; try discriminate.
  eapply Hinv; [|exact Hex|exact Hin]. exists token. exact Hctx.
Qed.

(** ** Readers of the credential during a refresh *)

Lemma level_nil k : Auth.level k [] = [].
Proof. induction k as [|k IH]; [reflexivity | exact IH]. Qed.

Lemma level_add j k cs : Auth.level (j + k) cs = Auth.level k (Auth.level j cs).
Proof.
  revert cs; induction j as [|j IH]; intros cs; [reflexivity|].
  cbn [Nat.add Auth.level]. apply IH.
Qed.

Lemma step_in_successors who c c' :
  Auth.step who c = Some c' -> In c' (Auth.successors c).
Proof.
  intros H. unfold Auth.successors. apply in_or_app.
  destruct who; [left | right]; rewrite H; left; reflexivity.
Qed.

(** A configuration reached by a schedule of [k] statements is on level [k]. *)
Lemma run_in_level schedule c c' cs :
  Auth.run schedule c = Some c' -> In c cs ->
  In c' (Auth.level (List.length schedule) cs).
Proof.
  revert c cs; induction schedule as [|who rest IH]; intros c cs; simpl.
  - intros H Hin; injection H as <-. exact Hin.
  - destruct (Auth.step who c) as [c1|] eqn:E; [|discriminate].
    intros H Hin. apply (IH c1); [exact H|].
    apply in_flat_map. exists c. split; [exact Hin|].
    eapply step_in_successors; eauto.
Qed.

(** The statements of updateAuthorizationMetadata, run by a goroutine that
    finds the mutex free and is not interleaved with another, do what the
    function does, panic or not. *)
Lemma updateAuthorizationMetadata_body_alone token a rd :
  Auth.mu a = None ->
  Auth.run (repeat Auth.W (List.length (Auth.updateAuthorizationMetadata_body token)))
    {| Auth.shared := a;
       Auth.writer := Auth.spawn (Auth.updateAuthorizationMetadata_body token);
       Auth.reader := rd |}
  = Some {| Auth.shared := snd (Auth.updateAuthorizationMetadata token a);
            Auth.writer := Auth.spawn [];
            Auth.reader := rd |}.
Proof.
  destruct a as [ctx bearer expiresAt ch m]. cbn [Auth.mu]. intros ->.
  unfold Auth.updateAuthorizationMetadata_body, Auth.updateAuthorizationMetadata.
  destruct (Auth.ExpiresAtUtc token) as [ts|]; reflexivity.
Qed.

(** Settle a property of every configuration of an explicit level. *)
Ltac each_configuration tac :=
  repeat (first [apply Forall_nil | apply Forall_cons; [tac|]]).

Ltac pair_is_consistent :=
  first [left; reflexivity | right; reflexivity].

Ltac check_settled :=
  cbv beta;
  let Hmu := fresh "Hmu" in
  intros Hmu; first [discriminate Hmu | pair_is_consistent].

(** The seven statements of a refresh and a read leave nothing to run
    after seven steps. *)
Lemma levels_settled old new k :
  Auth.ExpiresAtUtc new <> None ->
  Forall (settled old new)
    (Auth.level k [Auth.refresh_against Auth.read_credential old new]).
Proof.
  destruct new as [vn [tn|]]; [intros _ | intros H; contradiction H; reflexivity].
  destruct old as [vo [to|]];
    (do 8 (destruct k as [|k]; [cbv; each_configuration check_settled|]);
     change (S (S (S (S (S (S (S (S k)))))))) with (8 + k)%nat;
     rewrite level_add;
     match goal with
     | |- context [Auth.level 8 ?cs] =>
         replace (Auth.level 8 cs) with (@nil Auth.config) by (vm_compute; reflexivity)
     end;
     rewrite level_nil; constructor).
Qed.

(** What the writer's mutex does give.  For a new token that carries its
    timestamp: whatever the schedule, whenever the replacement is out of
    the mutex the stored pair is the old or the new credential's. *)
Lemma refresh_settles old new schedule c :
  Auth.ExpiresAtUtc new <> None ->
  Auth.run schedule (Auth.refresh_against Auth.read_credential old new) = Some c ->
  settled old new c.
Proof.
  intros Hnew H.
  pose proof (levels_settled old new (List.length schedule) Hnew) as HF.
  rewrite Forall_forall in HF. apply HF.
  eapply run_in_level; [exact H | left; reflexivity].
Qed.

(** C4 (a defect of the code).  Only the writer takes the mutex.  A
    service holds the credential ("old", 100) and a refresh installs
    ("new", 200).  A reader of the exported fields that runs between the
    writes of lines 121 and 122 observes the new bearer with the old expiry;
    one that reads the bearer before the replacement and the expiry after
    it observes the old bearer with the new expiry.  And a replacement by a
    token without a timestamp panics at line 122 after the bearer has been
    written: the deferred Unlock frees the mutex and the service is left,
    at rest, with the new bearer and the old expiry. *)
Theorem unlocked_read_is_torn :
  (exists c,
      Auth.run [Auth.W; Auth.W; Auth.W; Auth.R; Auth.R]
        (Auth.refresh_against Auth.read_credential Scenario.access1 Scenario.access2)
      = Some c
      /\ Auth.observed c = Some ("new", 100)
      /\ ~ consistent Scenario.access1 Scenario.access2 ("new", 100))
  /\ (exists c,
         Auth.run [Auth.R; Auth.W; Auth.W; Auth.W; Auth.W; Auth.R]
           (Auth.refresh_against Auth.read_credential Scenario.access1 Scenario.access2)
         = Some c
         /\ Auth.observed c = Some ("old", 200)
         /\ ~ consistent Scenario.access1 Scenario.access2 ("old", 200))
  /\ (exists a,
         Auth.updateAuthorizationMetadata Scenario.access_bare
           (Auth.holding Scenario.access1)
         = (Panic Pkg.nil_panic, a)
         /\ Auth.mu a = None
         /\ stored a = ("bare", 100)
         /\ ~ consistent Scenario.access1 Scenario.access_bare ("bare", 100)).
Proof.
  split; [|split].
  - eexists. split; [vm_compute; reflexivity|].
    split; [vm_compute; reflexivity|]. intros [H|H]; discriminate H.
  - eexists. split; [vm_compute; reflexivity|].
    split; [vm_compute; reflexivity|]. intros [H|H]; discriminate H.
  - eexists. split; [reflexivity|].
    split; [reflexivity|]. split; [reflexivity|]. intros [H|H]; discriminate H.
Qed.

(* ================================================================== *)
(** * Further properties of the sources *)

(** ** The two status checks *)

Lemma Check_loop_no_nil v :
  Pkg.CheckSignatureStatuses_loop v = true <-> ~ In None v.
Proof.
  induction v as [|[st|] v IH]; simpl.
  - split; [intros _ [] | reflexivity].
  - rewrite IH. split.
    + intros H [E|E]; [discriminate | auto].
    + intros H E. apply H. right. exact E.
  - split; [discriminate | intros H; exfalso; apply H; left; reflexivity].
Qed.

Lemma Validate_loop_after_Check v :
  Pkg.CheckSignatureStatuses_loop v = true ->
  Pkg.ValidateSignatureStatuses_loop v
  = if forallb confirmed_status v then Ok tt else Err Pkg.status_err.
Proof.
  induction v as [|[st|] v IH]; simpl; try discriminate; [reflexivity|].
  intros Hc. specialize (IH Hc).
  destruct (String.eqb (ConfirmationStatus st) ConfirmationStatusProcessed); simpl.
  - exact IH.
  - destruct (String.eqb (ConfirmationStatus st) ConfirmationStatusConfirmed); simpl.
    + exact IH.
    + reflexivity.
Qed.

(** X1.  CheckSignatureStatuses is true exactly when no entry is nil.  On
    statuses that pass it, ValidateSignatureStatuses does not panic: it
    returns nil when every status is "processed" or "confirmed" and its
    error otherwise; in particular an empty answer passes both. *)
Theorem Check_then_Validate (statuses : GetSignatureStatusesResult) :
  (Pkg.CheckSignatureStatuses statuses = true <-> ~ In None (Value statuses))
  /\ (Pkg.CheckSignatureStatuses statuses = true ->
      Pkg.ValidateSignatureStatuses statuses
      = if all_confirmed statuses then Ok tt else Err Pkg.status_err)
  /\ (Value statuses = [] ->
      Pkg.CheckSignatureStatuses statuses = true
      /\ Pkg.ValidateSignatureStatuses statuses = Ok tt).
Proof.
  split; [apply Check_loop_no_nil|]. split; [apply Validate_loop_after_Check|].
  intros E. unfold Pkg.CheckSignatureStatuses, Pkg.ValidateSignatureStatuses.
  rewrite E. split; reflexivity.
Qed.

Lemma Check_then_Validate_witness :
  Pkg.ValidateSignatureStatuses
    (Scenario.landed ConfirmationStatusProcessed [Scenario.sig1; Scenario.sig3])
  = Ok tt
  /\ Pkg.ValidateSignatureStatuses
       (Scenario.landed ConfirmationStatusFinalized [Scenario.sig1])
     = Err Pkg.status_err.
Proof.
  split.
  - exact (proj1 (proj2 (Check_then_Validate
                           (Scenario.landed ConfirmationStatusProcessed
                              [Scenario.sig1; Scenario.sig3]))) eq_refl).
  - exact (proj1 (proj2 (Check_then_Validate
                           (Scenario.landed ConfirmationStatusFinalized
                              [Scenario.sig1]))) eq_refl).
Defined.

(** X2.  ValidateSignatureStatuses goes through the statuses in order and
    the first one that is not "processed" or "confirmed" decides: a nil
    entry there is dereferenced and the call panics, whatever follows; a
    present one gives the error. *)
Theorem Validate_first_refused
  (before after : list (option SignatureStatusesResult))
  (entry : option SignatureStatusesResult) :
  forallb confirmed_status before = true ->
  confirmed_status entry = false ->
  Pkg.ValidateSignatureStatuses {| Value := before ++ entry :: after |}
  = match entry with
    | None => Panic Pkg.nil_panic
    | Some _ => Err Pkg.status_err
    end.
Proof.
  unfold Pkg.ValidateSignatureStatuses. cbn [Value].
  induction before as [|[st|] before IH]; simpl.
  - intros _ He. destruct entry as [st|]; [|reflexivity].
    simpl in He. apply orb_false_elim in He. destruct He as [H1 H2].
    rewrite H1, H2. reflexivity.
  - intros Hb He. apply andb_prop in Hb. destruct Hb as [Hst Hb].
    apply orb_prop in Hst.
    destruct (String.eqb (ConfirmationStatus st) ConfirmationStatusProcessed); simpl.
    + apply IH; assumption.
    + destruct Hst as [Hst|Hst]; [discriminate|]. rewrite Hst. simpl.
      apply IH; assumption.
  - discriminate.
Qed.

Lemma Validate_first_refused_witness :
  Pkg.ValidateSignatureStatuses
    {| Value := [Some {| Solana.Slot := 7%N; ConfirmationStatus := "confirmed" |};
                 None;
                 Some {| Solana.Slot := 7%N; ConfirmationStatus := "finalized" |}] |}
  = Panic Pkg.nil_panic.
Proof.
  exact (Validate_first_refused
           [Some {| Solana.Slot := 7%N; ConfirmationStatus := "confirmed" |}]
           [Some {| Solana.Slot := 7%N; ConfirmationStatus := "finalized" |}]
           None eq_refl eq_refl).
Defined.

(** ** Transactions to packets and back *)

Lemma ConvertBatch_loop_spec env acc txs packets :
  ConvertBatch_loop env acc txs = Ok packets <->
  exists built, packets = acc ++ built /\ Forall2 (packed env) txs built.
Proof.
  revert acc packets; induction txs as [|tx txs IH]; intros acc packets; simpl.
  - split.
    + intros H; injection H as <-. exists []. rewrite app_nil_r. split; [reflexivity|constructor].
    + intros (built & -> & HF). inversion HF. rewrite app_nil_r. reflexivity.
  - unfold ConvertTransactionToProtobufPacket.
    destruct (MarshalBinary env tx) as [data|e|p] eqn:E.
    + rewrite IH. split.
      * intros (built & -> & HF). exists (Packets.packet_of data :: built).
        rewrite <- app_assoc. split; [reflexivity|].
        constructor; [exists data; split; [exact E | reflexivity] | exact HF].
      * intros (built & -> & HF). inversion HF as [|? p0 ? built' (d & Hd & ->) HF']; subst.
        rewrite E in Hd. injection Hd as <-.
        exists built'. rewrite <- app_assoc. split; [reflexivity | exact HF'].
    + split; [discriminate|].
      intros (built & _ & HF). inversion HF as [|? ? ? ? (d & Hd & _) _]; subst.
      rewrite E in Hd. discriminate.
    + split; [discriminate|].
      intros (built & _ & HF). inversion HF as [|? ? ? ? (d & Hd & _) _]; subst.
      rewrite E in Hd. discriminate.
Qed.

Lemma ConvertBatch_packed env txs packets :
  ConvertBatchTransactionToProtobufPacket env txs = Ok packets
  <-> Forall2 (packed env) txs packets.
Proof.
  unfold ConvertBatchTransactionToProtobufPacket. rewrite ConvertBatch_loop_spec.
  split; [intros (built & -> & HF); exact HF | intros HF; exists packets; auto].
Qed.

(** X3.  ConvertBatchTransactionToProtobufPacket succeeds exactly when
    every transaction of the batch marshals; its packets are then, in the
    order of the batch, the marshalled bytes with a Meta whose Size is their
    length and whose other fields are zero.  NewBundle wraps exactly these
    packets; an empty batch gives a bundle without packets. *)
Theorem ConvertBatch_packets
  (env : Env) (txs : list Transaction) (packets : list Packet) :
  (ConvertBatchTransactionToProtobufPacket env txs = Ok packets
   <-> Forall2 (packed env) txs packets)
  /\ (ConvertBatchTransactionToProtobufPacket env txs = Ok packets ->
      NewBundle env txs = Ok {| Packets := packets |}
      /\ List.length packets = List.length txs)
  /\ NewBundle env [] = Ok {| Packets := [] |}.
Proof.
  pose proof (ConvertBatch_packed env txs packets) as H.
  split; [exact H|]. split; [|reflexivity].
  intros E. split.
  - unfold NewBundle. rewrite E. reflexivity.
  - apply H in E. symmetry. eapply Forall2_length; eauto.
Qed.

Lemma ConvertBatch_packets_witness :
  ConvertBatchTransactionToProtobufPacket Scenario.env_silent Scenario.batch
  = Ok [Packets.packet_of [Byte.xaa]; Packets.packet_of [Byte.xbb]]
  /\ List.length [Packets.packet_of [Byte.xaa]; Packets.packet_of [Byte.xbb]]
     = List.length Scenario.batch.
Proof.
  split; [reflexivity|].
  exact (proj2 (proj1 (proj2 (ConvertBatch_packets Scenario.env_silent Scenario.batch
                                [Packets.packet_of [Byte.xaa];
                                 Packets.packet_of [Byte.xbb]])) eq_refl)).
Defined.

Lemma ConvertBatch_loop_first_error env acc before tx after e :
  Forall (fun t => exists data, MarshalBinary env t = Ok data) before ->
  MarshalBinary env tx = Err e ->
  ConvertBatch_loop env acc (before ++ tx :: after) = Err e.
Proof.
  intros Hb He. revert acc; induction Hb as [|t before (d & Hd) _ IH]; intros acc; simpl.
  - unfold ConvertTransactionToProtobufPacket. rewrite He. reflexivity.
  - unfold ConvertTransactionToProtobufPacket at 1. rewrite Hd. apply IH.
Qed.

(** X4.  When a transaction of the batch does not marshal, the error of the
    first such transaction is what the conversion, NewBundle and SendBundle
    return, and SendBundleWithConfirmation returns it at once: nothing is
    sent, no time passes, the stream is not read and no status is queried. *)
Theorem marshal_error_is_returned
  (env : Env) (before after : list Transaction) (tx : Transaction)
  (e : error) (w : World) :
  Forall (fun t => exists data, MarshalBinary env t = Ok data) before ->
  MarshalBinary env tx = Err e ->
  ConvertBatchTransactionToProtobufPacket env (before ++ tx :: after) = Err e
  /\ SendBundle env (before ++ tx :: after) = Err e
  /\ SendBundleWithConfirmation env (before ++ tx :: after) w = Some (Err e, w).
Proof.
  intros Hb He.
  assert (E : ConvertBatchTransactionToProtobufPacket env (before ++ tx :: after) = Err e)
    by (apply ConvertBatch_loop_first_error; assumption).
  assert (E2 : SendBundle env (before ++ tx :: after) = Err e)
    by (unfold SendBundle, NewBundle; rewrite E; reflexivity).
  split; [exact E|]. split; [exact E2|].
  unfold SendBundleWithConfirmation. rewrite E2. reflexivity.
Qed.

Lemma marshal_error_is_returned_witness :
  SendBundleWithConfirmation Cases.env_unmarshallable Scenario.batch Scenario.w0
  = Some (Err Cases.too_large, Scenario.w0).
Proof.
  refine (proj2 (proj2 (marshal_error_is_returned Cases.env_unmarshallable
                          [Scenario.tx1] [] Scenario.tx2 Cases.too_large Scenario.w0
                          _ eq_refl))).
  constructor; [|constructor]. exists [Byte.xaa]. reflexivity.
Defined.

(** X5.  If the decoder reads back what MarshalBinary wrote for the
    transactions of a batch, converting the batch to packets and the packets
    back to transactions gives the batch again, in the same order. *)
Theorem packets_round_trip
  (env : Env) (unmarshal : Packets.Decoder)
  (txs : list Transaction) (packets : list Packet) :
  (forall tx data, In tx txs -> MarshalBinary env tx = Ok data -> unmarshal data = Ok tx) ->
  ConvertBatchTransactionToProtobufPacket env txs = Ok packets ->
  Packets.ConvertBatchProtobufPacketToTransaction unmarshal packets = Ok txs.
Proof.
  intros Hcodec E.
  apply ConvertBatch_packed in E.
  unfold Packets.ConvertBatchProtobufPacketToTransaction.
  assert (G : forall acc, Packets.ConvertBatchPacket_loop unmarshal acc packets
                          = Ok (acc ++ txs)); [|apply (G [])].
  induction E as [|tx p txs packets (data & Hd & ->) _ IH]; intros acc; simpl.
  - rewrite app_nil_r. reflexivity.
  - unfold Packets.ConvertProtobufPacketToTransaction. cbn [Data Packets.packet_of].
    rewrite (Hcodec tx data (or_introl eq_refl) Hd).
    rewrite IH; [rewrite <- app_assoc; reflexivity|].
    intros t d Hin. apply Hcodec. right. exact Hin.
Qed.

Lemma packets_round_trip_witness :
  Packets.ConvertBatchProtobufPacketToTransaction Cases.decode
    [Packets.packet_of [Byte.xaa]; Packets.packet_of [Byte.xbb]]
  = Ok Scenario.batch.
Proof.
  apply (packets_round_trip Scenario.env_silent Cases.decode Scenario.batch).
  - intros tx data [<-|[<-|[]]] H; injection H as <-; reflexivity.
  - reflexivity.
Defined.

(** ** More on the confirmation loop *)

(** X6.  A call that reaches pass [k] and finds the authentication context
    cancelled there returns the context's error from that pass at once:
    without the five-second sleep, without reading the stream and without a
    status query. *)
Theorem cancellation_is_terminal
  (env : Env) (txs : list Transaction) (w wk : World) (ack : SendBundleResponse)
  (k : nat) (e : error) :
  SendBundle env txs = Ok ack ->
  (k < CheckBundleRetries)%nat ->
  after_passes env ack txs k 0 w = Some wk ->
  GRPCCtx_Err env k = Some e ->
  SendBundleWithConfirmation env txs w = Some (Err e, wk).
Proof.
  intros Hsend Hk Hreach Hctx.
  unfold SendBundleWithConfirmation. rewrite Hsend.
  replace CheckBundleRetries with (k + S (CheckBundleRetries - S k))%nat by lia.
  rewrite (confirmation_loop_after_passes _ _ _ _ _ _ _ _ Hreach).
  cbn [confirmation_loop Nat.add]. unfold iteration. rewrite Hctx. reflexivity.
Qed.

Lemma cancellation_is_terminal_witness :
  SendBundleWithConfirmation Cases.env_cancelled_second Scenario.batch Scenario.w0
  = Some (Err Auth.Canceled, Scenario.w_after_first_pass).
Proof.
  apply (cancellation_is_terminal Cases.env_cancelled_second Scenario.batch
           Scenario.w0 Scenario.w_after_first_pass Scenario.ack 1).
  - reflexivity.
  - unfold CheckBundleRetries; lia.
  - vm_compute. reflexivity.
  - reflexivity.
Defined.

(** The first answer of the status service ends the poll when it has every
    status. *)
Lemma waitLoop_first_answer env fuel start txs w sigs took statuses :
  Pkg.BatchExtractSigFromTx txs = Ok sigs ->
  GetSignatureStatuses env (statusCalls w) sigs = (took, Ok statuses) ->
  Pkg.CheckSignatureStatuses statuses = true ->
  waitLoop env (S fuel) start txs w
  = Some (Ok statuses,
          {| now := now w + Z.of_N took; recvCalls := recvCalls w;
             statusCalls := S (statusCalls w); output := output w |}).
Proof.
  intros Hs Hq Hc. cbn [waitLoop]. rewrite Hs, Hq, Hc. reflexivity.
Qed.

Lemma waitForSignatureStatuses_first_answer env txs w sigs took statuses :
  Pkg.BatchExtractSigFromTx txs = Ok sigs ->
  GetSignatureStatuses env (statusCalls w) sigs = (took, Ok statuses) ->
  Pkg.CheckSignatureStatuses statuses = true ->
  waitForSignatureStatuses env txs w
  = Some (Ok statuses,
          {| now := now w + Z.of_N took; recvCalls := recvCalls w;
             statusCalls := S (statusCalls w); output := output w |}).
Proof.
  exact (waitLoop_first_answer env (Nat.pred wait_rounds) (now w) txs w sigs took statuses).
Qed.

Lemma all_confirmed_Check statuses :
  all_confirmed statuses = true -> Pkg.CheckSignatureStatuses statuses = true.
Proof.
  unfold all_confirmed, Pkg.CheckSignatureStatuses.
  induction (Value statuses) as [|[st|] v IH]; simpl; intros H.
  - reflexivity.
  - apply andb_prop in H. apply IH. apply H.
  - discriminate.
Qed.

(** X7.  Success needs no acceptance from the stream.  In a call that
    reaches pass [k] with the context live, if the read of the stream fails
    or brings anything but a classified rejection, and the status service
    then answers with every signature processed or confirmed, the call
    returns from this pass with the acknowledgement of SendBundle and the
    first signatures of the batch, after one status query. *)
Theorem confirmation_succeeds
  (env : Env) (txs : list Transaction) (w wk : World) (ack : SendBundleResponse)
  (k : nat) (sigs : list Signature) (took : N)
  (statuses : GetSignatureStatusesResult) :
  SendBundle env txs = Ok ack ->
  (k < CheckBundleRetries)%nat ->
  after_passes env ack txs k 0 w = Some wk ->
  GRPCCtx_Err env k = None ->
  quiet (Stream_Recv env (recvCalls wk)) ->
  Pkg.BatchExtractSigFromTx txs = Ok sigs ->
  GetSignatureStatuses env (statusCalls wk) sigs = (took, Ok statuses) ->
  all_confirmed statuses = true ->
  exists w',
    SendBundleWithConfirmation env txs w
    = Some (Ok {| Response := ack; Signatures := sigs |}, w')
    /\ recvCalls w' = S (recvCalls wk)
    /\ statusCalls w' = S (statusCalls wk)
    /\ now w' = now wk + CheckBundleRetryDelay + Z.of_N took.
Proof.
  intros Hsend Hk Hreach Hctx Hquiet Hsigs Hq Hall.
  pose proof (all_confirmed_Check _ Hall) as Hc.
  assert (Hv : Pkg.ValidateSignatureStatuses statuses = Ok tt).
  { unfold Pkg.ValidateSignatureStatuses.
    rewrite (Validate_loop_after_Check _ Hc). unfold all_confirmed in Hall.
    rewrite Hall. reflexivity. }
  assert (Hconfirm : forall w2,
    statusCalls w2 = statusCalls wk ->
    confirm env ack txs w2
    = Some (Return (Ok {| Response := ack; Signatures := sigs |}),
            {| now := now w2 + Z.of_N took; recvCalls := recvCalls w2;
               statusCalls := S (statusCalls w2); output := output w2 |})).
  { intros w2 Hw2. unfold confirm. rewrite <- Hw2 in Hq.
    rewrite (waitForSignatureStatuses_first_answer env txs w2 sigs took statuses Hsigs Hq Hc).
    rewrite Hv, Hsigs. reflexivity. }
  unfold SendBundleWithConfirmation. rewrite Hsend.
  replace CheckBundleRetries with (k + S (CheckBundleRetries - S k))%nat by lia.
  rewrite (confirmation_loop_after_passes _ _ _ _ _ _ _ _ Hreach).
  cbn [confirmation_loop Nat.add]. unfold iteration. rewrite Hctx.
  cbn [receiveBundleResult Sleep recvCalls] in *.
  destruct (Stream_Recv env (recvCalls wk)) as [br|e|p]; simpl in Hquiet.
  - rewrite (handleBundleResult_quiet _ Hquiet).
    rewrite Hconfirm by reflexivity.
    eexists. split; [reflexivity|]. cbn. auto.
  - rewrite Hconfirm by reflexivity.
    eexists. split; [reflexivity|]. cbn. auto.
  - contradiction.
Qed.

Lemma confirmation_succeeds_witness :
  exists w',
    SendBundleWithConfirmation Scenario.env_confirmed_third Scenario.batch Scenario.w0
    = Some (Ok {| Response := Scenario.ack;
                  Signatures := [Scenario.sig1; Scenario.sig3] |}, w')
    /\ statusCalls w' = 35%nat.
Proof.
  destruct (confirmation_succeeds Scenario.env_confirmed_third Scenario.batch
              Scenario.w0 Cases.w_after_two_passes
              Scenario.ack 2 [Scenario.sig1; Scenario.sig3] 0%N
              (Scenario.landed ConfirmationStatusConfirmed [Scenario.sig1; Scenario.sig3]))
    as (w' & E & _ & Hq & _).
  - reflexivity.
  - unfold CheckBundleRetries; lia.
  - vm_compute. reflexivity.
  - reflexivity.
  - exact I.
  - reflexivity.
  - reflexivity.
  - reflexivity.
  - exists w'. split; [exact E | exact Hq].
Defined.

(** ** Bounds on what a call does *)

Lemma within_refl w : within 0 0 w w.
Proof. unfold within. lia. Qed.

Lemma within_trans a b c d w w1 w2 :
  within a b w w1 -> within c d w1 w2 -> within (a + c) (b + d) w w2.
Proof. unfold within. lia. Qed.

Lemma within_weaken a b c d w w' :
  (a <= c)%nat -> (b <= d)%nat -> within a b w w' -> within c d w w'.
Proof. unfold within. lia. Qed.

Lemma waitLoop_within env fuel start txs w r w' :
  waitLoop env fuel start txs w = Some (r, w') -> within 0 fuel w w'.
Proof.
  revert w; induction fuel as [|fuel IH]; intros w; simpl; [discriminate|].
  destruct (Pkg.BatchExtractSigFromTx txs) as [sigs|e|p].
  - destruct (GetSignatureStatuses env (statusCalls w) sigs) as [took [statuses|e|p]].
    + destruct (Pkg.CheckSignatureStatuses statuses).
      * intros H; injection H as _ <-. unfold within; cbn. lia.
      * destruct (_ >? _).
        -- intros H; injection H as _ <-. unfold within; cbn. lia.
        -- intros H. apply IH in H. revert H.
           unfold within, Sleep, SignaturesConfirmationRetryDelay, Second; cbn. lia.
    + intros H; injection H as _ <-. unfold within; cbn. lia.
    + intros H; injection H as _ <-. unfold within; cbn. lia.
  - intros H; injection H as _ <-. unfold within; lia.
  - intros H; injection H as _ <-. unfold within; lia.
Qed.

Lemma waitForSignatureStatuses_within env txs w r w' :
  waitForSignatureStatuses env txs w = Some (r, w') -> within 0 wait_rounds w w'.
Proof. exact (waitLoop_within env wait_rounds (now w) txs w r w'). Qed.

Lemma confirm_within env ack txs w p w' :
  confirm env ack txs w = Some (p, w') -> within 0 wait_rounds w w'.
Proof.
  unfold confirm.
  destruct (waitForSignatureStatuses env txs w) as [[r w1]|] eqn:E; [|discriminate].
  apply waitForSignatureStatuses_within in E.
  destruct r as [statuses|e|q].
  - destruct (Pkg.ValidateSignatureStatuses statuses).
    + destruct (Pkg.BatchExtractSigFromTx txs); intros H; injection H as _ <-; exact E.
    + intros H; injection H as _ <-; exact E.
    + intros H; injection H as _ <-; exact E.
  - intros H; injection H as _ <-; exact E.
  - intros H; injection H as _ <-; exact E.
Qed.

Lemma iteration_within env ack txs i w p w' :
  iteration env ack txs i w = Some (p, w') -> within 1 wait_rounds w w'.
Proof.
  unfold iteration.
  destruct (GRPCCtx_Err env i).
  { intros H; injection H as _ <-. unfold within; lia. }
  cbn [receiveBundleResult].
  assert (Hstep : forall line w1,
    within 0 wait_rounds
      (Println line
         {| now := now (Sleep CheckBundleRetryDelay w);
            recvCalls := S (recvCalls (Sleep CheckBundleRetryDelay w));
            statusCalls := statusCalls (Sleep CheckBundleRetryDelay w);
            output := output (Sleep CheckBundleRetryDelay w) |}) w1 ->
    within 1 wait_rounds w w1).
  { intros line w1. unfold within, Println, Sleep, CheckBundleRetryDelay, Second; cbn. lia. }
  destruct (Stream_Recv env _) as [br|e|q].
  - destruct (handleBundleResult br).
    + intros H; injection H as _ <-.
      unfold within, Sleep, CheckBundleRetryDelay, Second; cbn. lia.
    + intros H. apply confirm_within in H. eapply Hstep; eauto.
  - intros H. apply confirm_within in H. eapply Hstep; eauto.
  - intros H; injection H as _ <-.
    unfold within, Sleep, CheckBundleRetryDelay, Second; cbn. lia.
Qed.

Lemma confirmation_loop_within env ack txs remaining i w r w' :
  confirmation_loop env ack txs remaining i w = Some (r, w') ->
  within remaining (remaining * wait_rounds) w w'.
Proof.
  revert i w; induction remaining as [|n IH]; intros i w; cbn [confirmation_loop].
  - intros H; injection H as _ <-. apply within_refl.
  - destruct (iteration env ack txs i w) as [[[o|] w1]|] eqn:E; try discriminate.
    + intros H; injection H as _ <-. apply iteration_within in E.
      eapply within_weaken; [| |exact E]; unfold wait_rounds; lia.
    + intros H. apply IH in H. apply iteration_within in E.
      exact (within_trans _ _ _ _ _ _ _ E H).
Qed.

(** X8.  A call of SendBundleWithConfirmation that returns has read the
    stream at most 5 times and queried the statuses at most 85 times, 17 per
    pass, whatever the services answered; and time has not run backwards.
    (Whether it returns is up to the services: Recv is called without a
    deadline.) *)
Theorem SendBundleWithConfirmation_is_bounded
  (env : Env) (txs : list Transaction) (w w' : World)
  (r : outcome BundleResponse) :
  SendBundleWithConfirmation env txs w = Some (r, w') -> within 5 85 w w'.
Proof.
  intros E. unfold SendBundleWithConfirmation in E.
  destruct (SendBundle env txs) as [ack|e|p].
  - apply confirmation_loop_within in E. exact E.
  - injection E as _ <-. unfold within; lia.
  - injection E as _ <-. unfold within; lia.
Qed.

Lemma SendBundleWithConfirmation_is_bounded_witness :
  exists r w',
    SendBundleWithConfirmation Scenario.env_silent Scenario.batch Scenario.w0
    = Some (r, w')
    /\ within 5 85 Scenario.w0 w'.
Proof.
  eassert (E : SendBundleWithConfirmation Scenario.env_silent Scenario.batch Scenario.w0
               = Some (_, _)) by (vm_compute; reflexivity).
  eexists; eexists. split; [exact E|].
  exact (SendBundleWithConfirmation_is_bounded _ _ _ _ _ E).
Defined.

(** ** A poll that finds nothing *)

Section Absent.
Variable env : Env.
Variable txs : list Transaction.
Hypothesis txs_signed : Forall signed txs.
Hypothesis always_absent :
  forall n sigs, Pkg.BatchExtractSigFromTx txs = Ok sigs ->
    exists took statuses,
      GetSignatureStatuses env n sigs = (took, Ok statuses)
      /\ Pkg.CheckSignatureStatuses statuses = false.

Lemma waitLoop_absent fuel start w r w' :
  waitLoop env fuel start txs w = Some (r, w') ->
  r = Err timeout_err /\ now w' - start > SignaturesConfirmationTimeout.
Proof.
  revert w; induction fuel as [|fuel IH]; intros w; simpl; [discriminate|].
  destruct (BatchExtract_loop_signed [] txs txs_signed) as (sigs & E).
  unfold Pkg.BatchExtractSigFromTx. rewrite E.
  destruct (always_absent (statusCalls w) sigs E) as (took & statuses & -> & ->).
  cbn [now].
  destruct (now w + Z.of_N took - start >? SignaturesConfirmationTimeout) eqn:Ht.
  - intros H; injection H as <- <-. split; [reflexivity|].
    cbn [now]. rewrite Z.gtb_ltb in Ht. apply Z.ltb_lt in Ht. lia.
  - apply IH.
Qed.

Lemma waitForSignatureStatuses_absent w r w' :
  waitForSignatureStatuses env txs w = Some (r, w') ->
  r = Err timeout_err /\ now w' - now w > SignaturesConfirmationTimeout.
Proof. exact (waitLoop_absent wait_rounds (now w) w r w'). Qed.

End Absent.

(** X9.  When the status service keeps answering with a status missing,
    waitForSignatureStatuses gives up with its timeout error, more than 15
    seconds after it was entered and after at most 17 queries; it reads
    nothing from the stream. *)
Theorem poll_times_out (env : Env) (txs : list Transaction) (w : World) :
  Forall signed txs ->
  (forall n sigs, Pkg.BatchExtractSigFromTx txs = Ok sigs ->
     exists took statuses,
       GetSignatureStatuses env n sigs = (took, Ok statuses)
       /\ Pkg.CheckSignatureStatuses statuses = false) ->
  exists w',
    waitForSignatureStatuses env txs w = Some (Err timeout_err, w')
    /\ now w' - now w > 15 * Second
    /\ (statusCalls w' <= statusCalls w + 17)%nat
    /\ recvCalls w' = recvCalls w.
Proof.
  intros Hs Ha.
  destruct (waitForSignatureStatuses_total env txs w) as (r & w' & E).
  destruct (waitForSignatureStatuses_absent env txs Hs Ha w r w' E) as (-> & Ht).
  pose proof (waitForSignatureStatuses_within _ _ _ _ _ E) as Hw.
  exists w'. split; [exact E|]. split; [exact Ht|].
  unfold within, wait_rounds in Hw. lia.
Qed.

Lemma poll_times_out_witness :
  exists w',
    waitForSignatureStatuses Scenario.env_silent Scenario.batch Scenario.w0
    = Some (Err timeout_err, w')
    /\ now w' - 0 > 15 * Second.
Proof.
  destruct (poll_times_out Scenario.env_silent Scenario.batch Scenario.w0)
    as (w' & E & Ht & _).
  - repeat constructor; discriminate.
  - intros n sigs H. injection H as <-. exists 0%N. eexists. split; reflexivity.
  - exists w'. split; [exact E | exact Ht].
Defined.

(** ** Statuses that are already finalized *)

Lemma finalized_statuses v :
  v <> [] -> Forall finalized v ->
  Pkg.CheckSignatureStatuses_loop v = true /\ forallb confirmed_status v = false.
Proof.
  intros Hne HF. split.
  - clear Hne. induction HF as [|s v (st & -> & _) _ IH]; [reflexivity | exact IH].
  - destruct HF as [|s v (st & -> & Hst) _]; [contradiction|].
    simpl. rewrite Hst. reflexivity.
Qed.

Section Finalized.
Variable env : Env.
Variable txs : list Transaction.
Hypothesis txs_signed : Forall signed txs.
Hypothesis always_finalized :
  forall n sigs, Pkg.BatchExtractSigFromTx txs = Ok sigs ->
    exists took statuses,
      GetSignatureStatuses env n sigs = (took, Ok statuses)
      /\ Value statuses <> [] /\ Forall finalized (Value statuses).
Hypothesis reads_quiet : forall n, quiet (Stream_Recv env n).

Lemma confirm_finalized ack w :
  exists w', confirm env ack txs w = Some (Continue, w')
             /\ recvCalls w' = recvCalls w
             /\ statusCalls w' = S (statusCalls w).
Proof.
  destruct (BatchExtract_loop_signed [] txs txs_signed) as (sigs & E).
  destruct (always_finalized (statusCalls w) sigs E) as (took & statuses & Hq & Hne & HF).
  destruct (finalized_statuses _ Hne HF) as (Hc & Hf).
  unfold confirm.
  rewrite (waitForSignatureStatuses_first_answer env txs w sigs took statuses E Hq Hc).
  unfold Pkg.ValidateSignatureStatuses.
  rewrite (Validate_loop_after_Check _ Hc), Hf.
  eexists. split; [reflexivity|]. split; reflexivity.
Qed.

Lemma iteration_finalized ack i w :
  GRPCCtx_Err env i = None ->
  exists w', iteration env ack txs i w = Some (Continue, w')
             /\ recvCalls w' = S (recvCalls w)
             /\ statusCalls w' = S (statusCalls w).
Proof.
  intros Hctx. unfold iteration. rewrite Hctx. cbn [receiveBundleResult].
  pose proof (reads_quiet (recvCalls (Sleep CheckBundleRetryDelay w))) as Hq.
  destruct (Stream_Recv env _) as [br|e|p]; simpl in Hq; [| |contradiction].
  - rewrite (handleBundleResult_quiet _ Hq).
    match goal with |- context [confirm env ack txs ?W] =>
      destruct (confirm_finalized ack W) as (w' & -> & Hr & Hs) end.
    exists w'. split; [reflexivity|]. split; [exact Hr | exact Hs].
  - match goal with |- context [confirm env ack txs ?W] =>
      destruct (confirm_finalized ack W) as (w' & -> & Hr & Hs) end.
    exists w'. split; [reflexivity|]. split; [exact Hr | exact Hs].
Qed.

Lemma confirmation_loop_finalized ack remaining i w :
  (forall j, (i <= j < i + remaining)%nat -> GRPCCtx_Err env j = None) ->
  exists w', confirmation_loop env ack txs remaining i w = Some (Err max_retries_err, w')
             /\ statusCalls w' = (statusCalls w + remaining)%nat.
Proof.
  revert i w; induction remaining as [|n IH]; intros i w Hctx; cbn [confirmation_loop].
  - exists w. split; [reflexivity | lia].
  - destruct (iteration_finalized ack i w) as (w1 & -> & _ & Hs1); [apply Hctx; lia|].
    destruct (IH (S i) w1) as (w' & -> & Hs); [intros j Hj; apply Hctx; lia|].
    exists w'. split; [reflexivity | lia].
Qed.

End Finalized.

(** X10.  A bundle whose transactions are already "finalized" when their
    statuses are polled is not reported as confirmed: the validation accepts
    only "processed" and "confirmed", so each of the five passes gets the
    statuses with its first query, refuses them, and the call ends with the
    max-retries error. *)
Theorem finalized_is_not_confirmed
  (env : Env) (txs : list Transaction) (w : World) (ack : SendBundleResponse) :
  SendBundle env txs = Ok ack ->
  Forall signed txs ->
  (forall i, (i < CheckBundleRetries)%nat -> GRPCCtx_Err env i = None) ->
  (forall n, quiet (Stream_Recv env n)) ->
  (forall n sigs, Pkg.BatchExtractSigFromTx txs = Ok sigs ->
     exists took statuses,
       GetSignatureStatuses env n sigs = (took, Ok statuses)
       /\ Value statuses <> [] /\ Forall finalized (Value statuses)) ->
  exists w',
    SendBundleWithConfirmation env txs w = Some (Err max_retries_err, w')
    /\ statusCalls w' = (statusCalls w + 5)%nat.
Proof.
  intros Hsend Hsigned Hctx Hquiet Hfin.
  unfold SendBundleWithConfirmation. rewrite Hsend.
  destruct (confirmation_loop_finalized env txs Hsigned Hfin Hquiet ack
              CheckBundleRetries 0 w) as (w' & E & Hs).
  - intros j Hj. apply Hctx. lia.
  - exists w'. split; [exact E | exact Hs].
Qed.

Lemma finalized_is_not_confirmed_witness :
  exists w',
    SendBundleWithConfirmation Cases.env_finalized Scenario.batch Scenario.w0
    = Some (Err max_retries_err, w')
    /\ statusCalls w' = 5%nat.
Proof.
  destruct (finalized_is_not_confirmed Cases.env_finalized Scenario.batch
              Scenario.w0 Scenario.ack) as (w' & E & Hs).
  - reflexivity.
  - repeat constructor; discriminate.
  - intros; reflexivity.
  - intros n. reflexivity.
  - intros n sigs H. injection H as <-. exists 0%N. eexists.
    split; [reflexivity|]. split; [discriminate|].
    repeat constructor; eexists; split; reflexivity.
  - exists w'. split; [exact E | exact Hs].
Defined.

(** ** More on the connection monitor *)

Lemma slept_app a b : slept (a ++ b) = slept a + slept b.
Proof.
  induction a as [|x a IH]; [reflexivity|].
  destruct x; cbn [app slept]; rewrite ?IH; lia.
Qed.

Lemma redialled_app a b : redialled (a ++ b) = redialled a || redialled b.
Proof. apply existsb_app. Qed.

Lemma monitor_pass_retry env m o c :
  Conn.conn m = Some c -> failing_pass o -> Conn.retries m < 5 ->
  Conn.monitor_pass env m o
  = ([Conn.TimeSleep (Conn.retries m * Second); Conn.ResetConnectBackoff c;
      Conn.WaitForStateChange c (Conn.state o)],
     Conn.set_retries (Conn.retries m + 1) m, Conn.Running).
Proof.
  intros Hc (Hctx & Hdeg) Hlt. unfold Conn.monitor_pass. rewrite Hc, Hctx.
  apply Z.ltb_lt in Hlt.
  destruct Hdeg as [-> | [-> | ->]]; rewrite Hlt; unfold Conn.await; cbn;
    rewrite Hc; reflexivity.
Qed.

Lemma monitor_run_backoff env obs m c :
  Conn.conn m = Some c ->
  Forall failing_pass obs ->
  0 <= Conn.retries m ->
  Conn.retries m + Z.of_nat (List.length obs) <= 5 ->
  exists acts m',
    Conn.monitor_run env m obs = (acts, m', Conn.Running)
    /\ Conn.retries m' = Conn.retries m + Z.of_nat (List.length obs)
    /\ Conn.conn m' = Some c
    /\ Conn.dialsMade m' = Conn.dialsMade m
    /\ redialled acts = false
    /\ Conn.close_and_redial acts = false
    /\ 2 * slept acts
       = Z.of_nat (List.length obs)
         * (2 * Conn.retries m + Z.of_nat (List.length obs) - 1) * Second.
Proof.
  intros Hc HF; revert m Hc; induction HF as [|o obs Ho _ IH]; intros m Hc H0 Hle.
  - exists [], m. cbn. repeat split; first [assumption | reflexivity | lia].
  - cbn [List.length] in *. rewrite Nat2Z.inj_succ in *.
    cbn [Conn.monitor_run]. rewrite (monitor_pass_retry env m o c Hc Ho) by lia.
    destruct (IH (Conn.set_retries (Conn.retries m + 1) m)) as
      (acts & m' & E & Hr & Hc' & Hd & Hn & Hcr & Hs);
      [exact Hc | cbn; lia | cbn; lia |].
    rewrite E. eexists; eexists. split; [reflexivity|].
    cbn [Conn.retries Conn.set_retries Conn.dialsMade] in *.
    split; [lia|]. split; [exact Hc'|]. split; [exact Hd|].
    split; [exact Hn|]. split; [exact Hcr|].
    cbn [app slept]. nia.
Qed.

(** X11.  Starting from a counter of zero, up to five consecutive passes
    that find the channel in TransientFailure, Connecting or Idle redial
    nothing and close nothing: the [i]-th of them sleeps [i-1] seconds and
    resets the connect backoff, so that [n] such passes sleep
    [n (n - 1) / 2] seconds in all and leave the counter at [n]. *)
Theorem monitor_backs_off_before_redialling
  (env : Conn.Env) (m : Conn.Monitor) (c : Conn.ClientConn)
  (obs : list Conn.Observation) :
  Conn.conn m = Some c ->
  Conn.retries m = 0 ->
  Forall failing_pass obs ->
  (List.length obs <= 5)%nat ->
  exists acts m',
    Conn.monitor_run env m obs = (acts, m', Conn.Running)
    /\ Conn.retries m' = Z.of_nat (List.length obs)
    /\ Conn.conn m' = Some c
    /\ redialled acts = false
    /\ Conn.close_and_redial acts = false
    /\ 2 * slept acts
       = Z.of_nat (List.length obs) * (Z.of_nat (List.length obs) - 1) * Second.
Proof.
  intros Hc Hr HF Hn.
  destruct (monitor_run_backoff env obs m c Hc HF) as
    (acts & m' & E & Hr' & Hc' & _ & Hd & Hcr & Hs); try lia.
  exists acts, m'. rewrite Hr in *.
  repeat split; first [assumption | lia].
Qed.

Lemma monitor_backs_off_before_redialling_witness :
  exists acts m',
    Conn.monitor_run Scenario.cenv Cases.fresh_monitor (repeat Scenario.failing 5)
    = (acts, m', Conn.Running)
    /\ Conn.retries m' = 5
    /\ redialled acts = false
    /\ 2 * slept acts = 20 * Second.
Proof.
  destruct (monitor_backs_off_before_redialling Scenario.cenv Cases.fresh_monitor 0%nat
              (repeat Scenario.failing 5))
    as (acts & m' & E & Hr & _ & Hd & _ & Hs).
  - reflexivity.
  - reflexivity.
  - repeat constructor.
  - cbn. lia.
  - exists acts, m'. split; [exact E|]. split; [exact Hr|]. split; [exact Hd | exact Hs].
Defined.

(** What a pass does to the connection the monitor watches: it keeps it
    and dials nothing, or it dials, and then watches the fresh connection
    (or none, when the dial failed), having closed the old one unless the
    channel was reported shut down. *)
Lemma monitor_pass_conn env m o acts m' st c :
  Conn.conn m = Some c ->
  Conn.monitor_pass env m o = (acts, m', st) ->
  (redialled acts = false /\ Conn.conn m' = Some c
   /\ Conn.dialsMade m' = Conn.dialsMade m)
  \/ (redialled acts = true
      /\ Conn.dialsMade m' = S (Conn.dialsMade m)
      /\ (Conn.conn m' = Some (Conn.dialsMade m)
          \/ (Conn.conn m' = None /\ st = Conn.Crashed))
      /\ (In (Conn.Close c) acts \/ saw_Shutdown o)).
Proof.
  intros Hc. unfold Conn.monitor_pass, saw_Shutdown. rewrite Hc.
  destruct (Conn.ctxDone o) eqn:Hctx.
  { destruct (Conn.closeErr o); intros H; injection H as <- <- <-;
      left; cbn; repeat split; first [reflexivity | assumption]. }
  destruct (Conn.state o) eqn:Hst;
    try (destruct (Conn.retries m <? 5));
    unfold Conn.redial, Conn.await;
    try (destruct (Conn.DialContext env (Conn.dialsMade m) (Conn.address m)
                     (Conn.dialOpts m)));
    cbn; rewrite ?Hc;
    intros H; injection H as <- <- <-; cbn;
    first [ left; repeat split; first [reflexivity | assumption]
          | right; repeat split; solve [auto] ].
Qed.

Lemma monitor_pass_fresh env m o acts m' st c :
  Conn.conn m <> Some c -> (c < Conn.dialsMade m)%nat ->
  Conn.monitor_pass env m o = (acts, m', st) ->
  Conn.conn m' <> Some c /\ (c < Conn.dialsMade m')%nat.
Proof.
  intros Hne Hlt H.
  destruct (Conn.conn m) as [c0|] eqn:Hc.
  - destruct (monitor_pass_conn env m o acts m' st c0 Hc H)
      as [(_ & Hc' & Hd) | (_ & Hd & [Hc' | (Hc' & _)] & _)];
      rewrite Hc', Hd; split; try lia; try congruence.
    intros E; injection E as E. lia.
  - unfold Conn.monitor_pass in H. rewrite Hc in H. injection H as _ <- _.
    rewrite Hc. split; [discriminate | exact Hlt].
Qed.

Lemma monitor_run_fresh env obs m acts m' st c :
  Conn.conn m <> Some c -> (c < Conn.dialsMade m)%nat ->
  Conn.monitor_run env m obs = (acts, m', st) ->
  Conn.conn m' <> Some c.
Proof.
  revert m acts m' st; induction obs as [|o obs IH]; intros m acts m' st Hne Hlt;
    cbn [Conn.monitor_run].
  - intros H; injection H as _ <- _. exact Hne.
  - destruct (Conn.monitor_pass env m o) as [[acts1 m1] st1] eqn:E.
    destruct (monitor_pass_fresh env m o acts1 m1 st1 c Hne Hlt E) as (Hne1 & Hlt1).
    destruct st1.
    + destruct (Conn.monitor_run env m1 obs) as [[acts2 m2] st2] eqn:E2.
      intros H; injection H as _ <- _. eapply IH; eauto.
    + intros H; injection H as _ <- _. exact Hne1.
    + intros H; injection H as _ <- _. exact Hne1.
Qed.

Lemma monitor_run_conn env obs m acts m' st c :
  Conn.conn m = Some c -> (c < Conn.dialsMade m)%nat ->
  Conn.monitor_run env m obs = (acts, m', st) ->
  (redialled acts = false -> Conn.conn m' = Some c)
  /\ (redialled acts = true ->
      Conn.conn m' <> Some c
      /\ (In (Conn.Close c) acts \/ Exists saw_Shutdown obs)).
Proof.
  revert m acts m' st; induction obs as [|o obs IH]; intros m acts m' st Hc Hlt;
    cbn [Conn.monitor_run].
  - intros H; injection H as <- <- _. split; [intros _; exact Hc | discriminate].
  - destruct (Conn.monitor_pass env m o) as [[acts1 m1] st1] eqn:E.
    destruct (monitor_pass_conn env m o acts1 m1 st1 c Hc E)
      as [(Hn & Hc1 & Hd1) | (Hy & Hd1 & Hc1 & Hclosed)].
    + (* the pass kept the connection *)
      assert (Hstop : (acts, m', st) = (acts1, m1, st1) ->
                (redialled acts = false -> Conn.conn m' = Some c)
                /\ (redialled acts = true ->
                    Conn.conn m' <> Some c
                    /\ (In (Conn.Close c) acts \/ Exists saw_Shutdown (o :: obs)))).
      { intros H; injection H as -> -> _.
        split; [intros _; exact Hc1 | rewrite Hn; discriminate]. }
      destruct st1; [|intros H; apply Hstop; symmetry; exact H
                     |intros H; apply Hstop; symmetry; exact H].
      destruct (Conn.monitor_run env m1 obs) as [[acts2 m2] st2] eqn:E2.
      intros H; injection H as <- <- _.
      destruct (IH m1 acts2 m2 st2 Hc1 ltac:(lia) E2) as (IH1 & IH2).
      rewrite redialled_app, Hn. cbn [orb]. split; [exact IH1|].
      intros Hy. destruct (IH2 Hy) as (Hne & [Hin | Hex]).
      * split; [exact Hne|]. left. apply in_or_app. right. exact Hin.
      * split; [exact Hne|]. right. apply Exists_cons_tl. exact Hex.
    + (* the pass dialled *)
      assert (Hne1 : Conn.conn m1 <> Some c).
      { destruct Hc1 as [Hc1 | (Hc1 & _)]; rewrite Hc1; [|discriminate].
        intros H; injection H as H. lia. }
      assert (Hclosed' : forall rest,
                In (Conn.Close c) (acts1 ++ rest) \/ Exists saw_Shutdown (o :: obs)).
      { intros rest. destruct Hclosed as [Hin | Hs].
        - left. apply in_or_app. left. exact Hin.
        - right. apply Exists_cons_hd. exact Hs. }
      destruct st1.
      * destruct (Conn.monitor_run env m1 obs) as [[acts2 m2] st2] eqn:E2.
        intros H; injection H as <- <- _.
        rewrite redialled_app, Hy. cbn [orb]. split; [discriminate|].
        intros _. split; [|apply Hclosed'].
        eapply monitor_run_fresh; [exact Hne1 | | exact E2]. lia.
      * intros H; injection H as <- <- _. rewrite Hy. split; [discriminate|].
        intros _. split; [exact Hne1|].
        specialize (Hclosed' []). rewrite app_nil_r in Hclosed'. exact Hclosed'.
      * intros H; injection H as <- <- _. rewrite Hy. split; [discriminate|].
        intros _. split; [exact Hne1|].
        specialize (Hclosed' []). rewrite app_nil_r in Hclosed'. exact Hclosed'.
Qed.

(** X12.  CreateGRPCConnection hands connection 0 to its caller and keeps
    a variable of its own for the monitor.  Over any run of the monitor: as
    long as it has dialled nothing it watches connection 0; once it has
    dialled, it never watches connection 0 again, and connection 0 has been
    closed by the monitor or was reported Shutdown.  The caller's connection
    is thus not the one that a redial repairs. *)
Theorem redial_abandons_the_callers_connection
  (env : Conn.Env) (grpcAddr : string) (opts : list Conn.DialOption)
  (m0 m : Conn.Monitor) (acts0 acts : list Conn.action)
  (obs : list Conn.Observation) (st : Conn.status) :
  Conn.CreateGRPCConnection env grpcAddr opts = (Ok m0, acts0) ->
  Conn.monitor_run env m0 obs = (acts, m, st) ->
  Conn.conn m0 = Some 0%nat
  /\ (redialled acts = false -> Conn.conn m = Some 0%nat)
  /\ (redialled acts = true ->
      Conn.conn m <> Some 0%nat
      /\ (In (Conn.Close 0%nat) acts \/ Exists saw_Shutdown obs)).
Proof.
  intros Hcreate Hrun.
  assert (H0 : Conn.conn m0 = Some 0%nat /\ Conn.dialsMade m0 = 1%nat).
  { revert Hcreate. unfold Conn.CreateGRPCConnection.
    destruct (String.eqb grpcAddr ""); [discriminate|].
    destruct (Conn.url_Parse env grpcAddr) as [u|e|p]; try discriminate.
    destruct (String.eqb (Conn.Hostname u) ""); [discriminate|].
    destruct (Conn.DialContext env 0 _ _); [discriminate|].
    intros H; injection H as <- _. split; reflexivity. }
  destruct H0 as (Hc & Hd). split; [exact Hc|].
  apply (monitor_run_conn env obs m0 acts m st 0%nat Hc); [lia | exact Hrun].
Qed.

Lemma redial_abandons_the_callers_connection_witness :
  exists acts m,
    Conn.monitor_run Scenario.cenv Cases.fresh_monitor (repeat Scenario.failing 6)
    = (acts, m, Conn.Running)
    /\ Conn.conn m = Some 1%nat
    /\ In (Conn.Close 0%nat) acts.
Proof.
  eassert (E : Conn.monitor_run Scenario.cenv Cases.fresh_monitor
                 (repeat Scenario.failing 6) = (_, _, Conn.Running))
    by (vm_compute; reflexivity).
  destruct (redial_abandons_the_callers_connection Scenario.cenv "http://localhost" []
              Cases.fresh_monitor _
              [Conn.Dial "localhost:80" (Conn.dialOpts Scenario.worn_monitor)]
              _ _ _ eq_refl E) as (_ & _ & H).
  destruct (H eq_refl) as (_ & [Hin | Hex]).
  - eexists; eexists. split; [exact E|]. split; [reflexivity | exact Hin].
  - exfalso. repeat (apply Exists_cons in Hex; destruct Hex as [(_ & Hex) | Hex];
                     [discriminate Hex|]).
    inversion Hex.
Defined.

(** The passes of [Conn.monitor_pass] are those of the goroutine in which
    no send stays blocked. *)
Lemma monitor_pass_on_agrees env chErr receiving m o acts m' chErr' how st :
  ConnErr.monitor_pass_on env chErr receiving m o = (acts, m', chErr', how) ->
  ConnErr.status_of how = Some st ->
  Conn.monitor_pass env m o = (acts, m', st).
Proof.
  unfold ConnErr.monitor_pass_on, Conn.monitor_pass.
  destruct (Conn.conn m) as [c|] eqn:Ec.
  2:{ intros H; injection H as <- <- _ <-. intros H; injection H as <-. reflexivity. }
  destruct (Conn.ctxDone o).
  { destruct (Conn.closeErr o) as [e|].
    - destruct (ConnErr.send_on chErr receiving e);
        intros H; injection H as <- <- _ <-; intros H; try discriminate H;
        injection H as <-; reflexivity.
    - intros H; injection H as <- <- _ <-. intros H; injection H as <-. reflexivity. }
  assert (Hredial : forall pre,
    (let '(acts0, m0, ch0, how0) :=
       ConnErr.redial_on env chErr receiving (Conn.state o) m in
     (pre ++ acts0, m0, ch0, how0)) = (acts, m', chErr', how) ->
    ConnErr.status_of how = Some st ->
    (let '(acts1, m1) := Conn.redial env m in
     Conn.await (Conn.state o) (pre ++ acts1, m1)) = (acts, m', st)).
  { intros pre. unfold ConnErr.redial_on, Conn.redial, Conn.await.
    destruct (Conn.DialContext env _ _ _) as [e|].
    - destruct (ConnErr.send_on chErr receiving e);
        intros H; injection H as <- <- _ <-; intros H; try discriminate H;
        injection H as <-; reflexivity.
    - intros H; injection H as <- <- _ <-. intros H; injection H as <-.
      cbn [fst snd Conn.conn]. rewrite <- app_assoc. reflexivity. }
  assert (Hretry :
    (if Conn.retries m <? 5
     then ([Conn.TimeSleep (Conn.retries m * Second); Conn.ResetConnectBackoff c;
            Conn.WaitForStateChange c (Conn.state o)],
           Conn.set_retries (Conn.retries m + 1) m, chErr, ConnErr.Continues)
     else let '(acts0, m0, ch0, how0) :=
            ConnErr.redial_on env chErr receiving (Conn.state o) m in
          (Conn.Close c :: acts0, m0, ch0, how0)) = (acts, m', chErr', how) ->
    ConnErr.status_of how = Some st ->
    (if Conn.retries m <? 5
     then Conn.await (Conn.state o)
            ([Conn.TimeSleep (Conn.retries m * Second); Conn.ResetConnectBackoff c],
             Conn.set_retries (Conn.retries m + 1) m)
     else let '(acts1, m1) := Conn.redial env m in
          Conn.await (Conn.state o) (Conn.Close c :: acts1, m1)) = (acts, m', st)).
  { destruct (Conn.retries m <? 5).
    - intros H; injection H as <- <- _ <-. intros H; injection H as <-.
      unfold Conn.await. cbn [fst snd Conn.set_retries Conn.conn]. rewrite Ec. reflexivity.
    - exact (Hredial [Conn.Close c]). }
  destruct (Conn.state o); try exact Hretry.
  - intros H; injection H as <- <- _ <-. intros H; injection H as <-. reflexivity.
  - intros H Hst. pose proof (Hredial []) as H'.
    destruct (ConnErr.redial_on env chErr receiving Conn.Shutdown m) as [[[a0 m0] c0] h0].
    destruct (Conn.redial env m) as [a1 m1].
    exact (H' H Hst).
Qed.

(** X13.  When the dial of a replacement fails (after the ceiling of
    retries, or after a Shutdown), the monitor makes no other attempt.  Its
    next statement is the send of the dial error on chErr, with the
    connection variable already nil.  If the send cannot complete, it
    stays in the send: the error is not among its actions, the counter is
    not reset and no later pass happens; that is so whenever chErr is nil,
    as in NewClient of the geyser package, and on the unbuffered channel of
    the block-engine constructors while nobody receives.  If the send
    completes, the counter is set to 0 and the WaitForStateChange that
    follows dereferences the nil connection: the goroutine panics. *)
Theorem failed_redial_ends_the_monitor
  (env : Conn.Env) (chErr : option chan) (receiving : bool)
  (m : Conn.Monitor) (o : Conn.Observation)
  (c : Conn.ClientConn) (e : error) (rest : list (Conn.Observation * bool)) :
  Conn.conn m = Some c ->
  Conn.ctxDone o = false ->
  Conn.state o = Conn.Shutdown \/ (degraded (Conn.state o) /\ 5 <= Conn.retries m) ->
  Conn.DialContext env (Conn.dialsMade m) (Conn.address m) (Conn.dialOpts m) = Some e ->
  (ConnErr.send_on chErr receiving e = None ->
   exists acts m',
     ConnErr.monitor_run_on env chErr m ((o, receiving) :: rest)
     = (acts, m', chErr, ConnErr.BlockedInSend e)
     /\ Conn.conn m' = None
     /\ Conn.retries m' = Conn.retries m
     /\ last acts (Conn.TimeSleep 0) = Conn.Dial (Conn.address m) (Conn.dialOpts m)
     /\ ~ In (Conn.SendErr e) acts)
  /\ (forall chErr',
         ConnErr.send_on chErr receiving e = Some chErr' ->
         exists acts m',
           ConnErr.monitor_run_on env chErr m ((o, receiving) :: rest)
           = (acts, m', chErr', ConnErr.Panics)
           /\ Conn.conn m' = None
           /\ Conn.retries m' = 0
           /\ last acts (Conn.TimeSleep 0) = Conn.SendErr e)
  /\ ConnErr.send_on ConnErr.NewClient_chErr receiving e = None
  /\ ConnErr.send_on (Some Searcher.chErr) false e = None.
Proof.
  intros Hc Hctx Hcase Hdial.
  assert (Hpass : exists pre,
    ConnErr.monitor_pass_on env chErr receiving m o
    = (let '(acts0, m0, ch0, how0) :=
         ConnErr.redial_on env chErr receiving (Conn.state o) m in
       (pre ++ acts0, m0, ch0, how0))
    /\ ~ In (Conn.SendErr e) pre).
  { unfold ConnErr.monitor_pass_on. rewrite Hc, Hctx.
    destruct Hcase as [-> | (Hdeg & Hge)].
    - exists []. split.
      + destruct (ConnErr.redial_on env chErr receiving Conn.Shutdown m)
          as [[[a0 m0] c0] h0]. reflexivity.
      + intros [].
    - apply Z.ltb_ge in Hge.
      exists [Conn.Close c]. split.
      + destruct Hdeg as [-> | [-> | ->]]; rewrite Hge; reflexivity.
      + intros [H|[]]. discriminate H. }
  destruct Hpass as (pre & Hpass & Hpre).
  cbn [ConnErr.monitor_run_on]. rewrite Hpass.
  unfold ConnErr.redial_on. rewrite Hdial.
  split; [|split; [|split; reflexivity]].
  - intros Hsend. rewrite Hsend.
    eexists; eexists. split; [reflexivity|]. cbn [Conn.conn Conn.retries].
    split; [reflexivity|]. split; [reflexivity|]. split.
    + rewrite last_last. reflexivity.
    + intros Hin. apply in_app_or in Hin. destruct Hin as [Hin | [Hin | []]].
      * exact (Hpre Hin).
      * discriminate Hin.
  - intros chErr' Hsend. rewrite Hsend.
    eexists; eexists. split; [reflexivity|]. cbn [Conn.conn Conn.retries].
    split; [reflexivity|]. split; [reflexivity|].
    change [Conn.Dial (Conn.address m) (Conn.dialOpts m); Conn.SendErr e]
      with ([Conn.Dial (Conn.address m) (Conn.dialOpts m)] ++ [Conn.SendErr e]).
    rewrite app_assoc, last_last. reflexivity.
Qed.

Lemma failed_redial_ends_the_monitor_witness :
  exists acts m',
    ConnErr.monitor_run_on Cases.cenv_no_redial (Some Searcher.chErr)
      Scenario.worn_monitor [(Scenario.failing, false); (Scenario.failing, true)]
    = (acts, m', Some Searcher.chErr, ConnErr.BlockedInSend Scenario.unavailable)
    /\ Conn.conn m' = None
    /\ Conn.retries m' = 5.
Proof.
  destruct (failed_redial_ends_the_monitor Cases.cenv_no_redial (Some Searcher.chErr)
              false Scenario.worn_monitor Scenario.failing 0%nat Scenario.unavailable
              [(Scenario.failing, true)])
    as (H & _).
  - reflexivity.
  - reflexivity.
  - right. split; [left; reflexivity | cbn; lia].
  - reflexivity.
  - destruct H as (acts & m' & E & Hc & Hr & _); [reflexivity|].
    exists acts, m'. split; [exact E|]. split; [exact Hc | exact Hr].
Defined.

(** ** The endpoint table *)

(** X14.  GetEndpoint knows the four codes AMS, FRA, NYC and TKO, in
    upper case only, and gives each its own address; for any other location
    it returns the empty string, which CreateGRPCConnection refuses with
    "gRPC address is required" before parsing or dialling anything. *)
Theorem GetEndpoint_unknown_location
  (location : string) (env : Conn.Env) (opts : list Conn.DialOption) :
  (Endpoints.GetEndpoint location <> "" <-> known_location location)
  /\ (~ known_location location ->
      Conn.CreateGRPCConnection env (Endpoints.GetEndpoint location) opts
      = (Err Conn.required_err, []))
  /\ (forall other, known_location location -> known_location other ->
        Endpoints.GetEndpoint location = Endpoints.GetEndpoint other ->
        location = other).
Proof.
  assert (Hget : known_location location \/
                 (~ known_location location /\ Endpoints.GetEndpoint location = "")).
  { unfold Endpoints.GetEndpoint, known_location.
    destruct (String.eqb_spec location "AMS"); [auto|].
    destruct (String.eqb_spec location "FRA"); [auto|].
    destruct (String.eqb_spec location "NYC"); [auto|].
    destruct (String.eqb_spec location "TKO"); [auto 6|].
    right. split; [intros [H|[H|[H|H]]]; contradiction | reflexivity]. }
  split; [|split].
  - split.
    + intros Hne. destruct Hget as [Hk | (_ & He)]; [exact Hk | contradiction].
    + intros [-> | [-> | [-> | ->]]]; discriminate.
  - intros Hn. destruct Hget as [Hk | (_ & ->)]; [contradiction | reflexivity].
  - intros other [-> | [-> | [-> | ->]]] [-> | [-> | [-> | ->]]] H;
      first [reflexivity | discriminate H].
Qed.

Lemma GetEndpoint_unknown_location_witness :
  Conn.CreateGRPCConnection Scenario.cenv (Endpoints.GetEndpoint "ams") []
  = (Err Conn.required_err, []).
Proof.
  apply (proj1 (proj2 (GetEndpoint_unknown_location "ams" Scenario.cenv []))).
  intros [H | [H | [H | H]]]; discriminate H.
Defined.

(** ** More on the refresh goroutine *)

Lemma wrap64_in_range z : minDuration <= z <= maxDuration -> wrap64 z = z.
Proof.
  unfold wrap64, minDuration, maxDuration.
  change (2 ^ 63) with 9223372036854775808.
  change (2 ^ 64) with 18446744073709551616.
  intros H. rewrite Z.mod_small by lia. lia.
Qed.

Lemma wrap64_below z :
  minDuration - 2 ^ 63 <= z < minDuration -> wrap64 z = z + 2 ^ 64.
Proof.
  unfold wrap64, minDuration.
  change (2 ^ 63) with 9223372036854775808.
  change (2 ^ 64) with 18446744073709551616.
  intros H.
  replace (z + 9223372036854775808)
    with (z + 9223372036854775808 + 18446744073709551616
          + (-1) * 18446744073709551616) by lia.
  rewrite Z_mod_plus_full. rewrite Z.mod_small by lia. lia.
Qed.

(** [time.Until(t) - 15*time.Second] as the code computes it. *)
Lemma sleepDuration_exact now t :
  minDuration + 15 * Second <= t - now <= maxDuration ->
  wrap64 (time_Until now t - 15 * Second) = t - now - 15 * Second.
Proof.
  unfold time_Until, time_Sub, minDuration, maxDuration, Second.
  change (2 ^ 63) with 9223372036854775808. intros H.
  rewrite wrap64_in_range;
    unfold minDuration, maxDuration; change (2 ^ 63) with 9223372036854775808; lia.
Qed.

Lemma sleepDuration_far_future now t :
  maxDuration < t - now ->
  wrap64 (time_Until now t - 15 * Second) = maxDuration - 15 * Second.
Proof.
  unfold time_Until, time_Sub, minDuration, maxDuration, Second.
  change (2 ^ 63) with 9223372036854775808. intros H.
  rewrite wrap64_in_range;
    unfold minDuration, maxDuration; change (2 ^ 63) with 9223372036854775808; lia.
Qed.

Lemma sleepDuration_far_past now t :
  t - now < minDuration + 15 * Second ->
  maxDuration - 15 * Second < wrap64 (time_Until now t - 15 * Second) <= maxDuration.
Proof.
  unfold time_Until, time_Sub, minDuration, maxDuration, Second.
  change (2 ^ 63) with 9223372036854775808. intros H.
  rewrite wrap64_below;
    unfold minDuration; change (2 ^ 63) with 9223372036854775808;
    change (2 ^ 64) with 18446744073709551616; lia.
Qed.

(** The select of a live context whose refresh call succeeds with a token
    that carries its timestamp. *)
Lemma refresh_step_installs env respToken s token ts :
  Auth.at_pc s = Auth.AtSelect ->
  Auth.ctx_Err (Auth.cancelled env (Auth.selects s)) (Auth.GRPCCtx (Auth.svc s)) = None ->
  Auth.RefreshAccessToken env (Auth.refreshCalls s)
    (Auth.Value (Auth.RefreshToken respToken)) = Ok token ->
  Auth.ExpiresAtUtc token = Some ts ->
  exists a,
    Auth.refresh_step env respToken s
    = Some ([Auth.CalledRefresh (Auth.Value (Auth.RefreshToken respToken));
             Auth.Installed token],
            {| Auth.svc := a;
               Auth.at_pc :=
                 if wrap64 (time_Until (Auth.clock s) (expiry token) - 15 * Second) >? 0
                 then Auth.Sleeping
                        (wrap64 (time_Until (Auth.clock s) (expiry token) - 15 * Second))
                 else Auth.AtSelect;
               Auth.clock := Auth.clock s;
               Auth.selects := S (Auth.selects s);
               Auth.refreshCalls := S (Auth.refreshCalls s) |})
    /\ stored a = Auth.pair_of token
    /\ Auth.GRPCCtx a = Auth.bearer_metadata token
    /\ Auth.ErrChan a = Auth.ErrChan (Auth.svc s).
Proof.
  intros Hpc Hctx Hok Hts.
  unfold Auth.refresh_step. rewrite Hpc, Hctx, Hok.
  unfold Auth.updateAuthorizationMetadata, expiry, Auth.pair_of, stored. rewrite Hts.
  eexists. split; [reflexivity|]. cbn. auto.
Qed.

Lemma refresh_step_without_sleep env respToken s token ts :
  Auth.at_pc s = Auth.AtSelect ->
  Auth.ctx_Err (Auth.cancelled env (Auth.selects s)) (Auth.GRPCCtx (Auth.svc s)) = None ->
  Auth.RefreshAccessToken env (Auth.refreshCalls s)
    (Auth.Value (Auth.RefreshToken respToken)) = Ok token ->
  Auth.ExpiresAtUtc token = Some ts ->
  Auth.clock s + minDuration + 15 * Second <= expiry token <= Auth.clock s + 15 * Second ->
  exists s1,
    Auth.refresh_step env respToken s
    = Some ([Auth.CalledRefresh (Auth.Value (Auth.RefreshToken respToken));
             Auth.Installed token], s1)
    /\ Auth.at_pc s1 = Auth.AtSelect
    /\ Auth.clock s1 = Auth.clock s
    /\ Auth.refreshCalls s1 = S (Auth.refreshCalls s)
    /\ stored (Auth.svc s1) = Auth.pair_of token
    /\ Auth.GRPCCtx (Auth.svc s1) = Auth.bearer_metadata token.
Proof.
  intros Hpc Hctx Hok Hts Hle.
  destruct (refresh_step_installs env respToken s token ts Hpc Hctx Hok Hts)
    as (a & E & Hst & Hg & _).
  rewrite sleepDuration_exact in E
    by (unfold minDuration, maxDuration, Second in *;
        change (2 ^ 63) with 9223372036854775808 in *; lia).
  replace (_ >? 0) with false in E by (symmetry; rewrite Z.gtb_ltb; apply Z.ltb_ge; lia).
  eexists. split; [exact E|]. cbn. auto.
Qed.

(** X15.  After a refresh that succeeds with a token carrying its
    timestamp the new token is installed.  When the token expires more than
    15 seconds after the clock, and no further off than a Duration can
    hold, the goroutine sleeps until 15 seconds before the expiry: its next
    select happens at that instant.  When the token expires within 15
    seconds or has expired, no longer ago than a Duration can hold (less
    those 15 seconds), it does not sleep at all and is back at its select at
    once. *)
Theorem refresh_wakes_before_expiry
  (env : Auth.Env) (respToken : Auth.GenerateAuthTokensResponse)
  (s : Auth.Refresher) (token : Auth.Token) (ts : Auth.Timestamp) :
  Auth.at_pc s = Auth.AtSelect ->
  Auth.ctx_Err (Auth.cancelled env (Auth.selects s)) (Auth.GRPCCtx (Auth.svc s)) = None ->
  Auth.RefreshAccessToken env (Auth.refreshCalls s)
    (Auth.Value (Auth.RefreshToken respToken)) = Ok token ->
  Auth.ExpiresAtUtc token = Some ts ->
  let tok := Auth.Value (Auth.RefreshToken respToken) in
  (Auth.clock s + 15 * Second < expiry token <= Auth.clock s + maxDuration ->
   exists s2,
     Auth.execution env respToken [Auth.Loop; Auth.Loop] s
     = Some ([Auth.CalledRefresh tok; Auth.Installed token;
              Auth.Slept (expiry token - Auth.clock s - 15 * Second)], s2)
     /\ Auth.at_pc s2 = Auth.AtSelect
     /\ Auth.clock s2 = expiry token - 15 * Second
     /\ stored (Auth.svc s2) = Auth.pair_of token
     /\ Auth.GRPCCtx (Auth.svc s2) = Auth.bearer_metadata token)
  /\ (Auth.clock s + minDuration + 15 * Second <= expiry token
      <= Auth.clock s + 15 * Second ->
      exists s1,
        Auth.refresh_step env respToken s
        = Some ([Auth.CalledRefresh tok; Auth.Installed token], s1)
        /\ Auth.at_pc s1 = Auth.AtSelect
        /\ Auth.clock s1 = Auth.clock s
        /\ Auth.refreshCalls s1 = S (Auth.refreshCalls s)
        /\ stored (Auth.svc s1) = Auth.pair_of token
        /\ Auth.GRPCCtx (Auth.svc s1) = Auth.bearer_metadata token).
Proof.
  intros Hpc Hctx Hok Hts tok. split.
  - intros Hlt.
    destruct (refresh_step_installs env respToken s token ts Hpc Hctx Hok Hts)
      as (a & E & Hst & Hg & _).
    rewrite sleepDuration_exact in E
      by (unfold minDuration, maxDuration, Second in *;
          change (2 ^ 63) with 9223372036854775808 in *; lia).
    replace (_ >? 0) with true in E by (symmetry; rewrite Z.gtb_ltb; apply Z.ltb_lt; lia).
    cbn [Auth.execution]. rewrite E.
    unfold Auth.refresh_step. cbn [Auth.at_pc Auth.clock Auth.svc app].
    eexists. split; [reflexivity|]. cbn. repeat split; first [assumption | lia].
  - exact (refresh_step_without_sleep env respToken s token ts Hpc Hctx Hok Hts).
Qed.

Lemma refresh_wakes_before_expiry_witness :
  exists s2,
    Auth.execution Cases.aenv_refreshing Scenario.tokens [Auth.Loop; Auth.Loop]
      Scenario.refresher0
    = Some ([Auth.CalledRefresh "r-1"; Auth.Installed Scenario.access1;
             Auth.Slept (85 * Second)], s2)
    /\ Auth.clock s2 = 85 * Second.
Proof.
  destruct (refresh_wakes_before_expiry Cases.aenv_refreshing Scenario.tokens
              Scenario.refresher0 Scenario.access1 _ eq_refl eq_refl eq_refl eq_refl)
    as (H & _).
  destruct H as (s2 & E & _ & Hc & _).
  - vm_compute. split; [reflexivity | discriminate].
  - exists s2. split; [exact E | exact Hc].
Defined.

(** X16.  If the service keeps answering refreshes with tokens that expire
    within 15 seconds of the goroutine's clock, or have expired (no longer
    ago than a Duration can hold, less 15 seconds), the goroutine calls
    RefreshAccessToken again and again without ever sleeping: [n]
    statements of it are [n] calls, and no time has passed. *)
Theorem refresh_spins_on_short_lived_tokens
  (env : Auth.Env) (respToken : Auth.GenerateAuthTokensResponse) (n : nat)
  (s : Auth.Refresher) (installed : Auth.Token) :
  Auth.at_pc s = Auth.AtSelect ->
  Auth.GRPCCtx (Auth.svc s) = Auth.bearer_metadata installed ->
  (forall k, exists token ts,
      Auth.RefreshAccessToken env k (Auth.Value (Auth.RefreshToken respToken)) = Ok token
      /\ Auth.ExpiresAtUtc token = Some ts
      /\ Auth.clock s + minDuration + 15 * Second <= expiry token
         <= Auth.clock s + 15 * Second) ->
  exists evs s',
    Auth.execution env respToken (repeat Auth.Loop n) s = Some (evs, s')
    /\ Auth.at_pc s' = Auth.AtSelect
    /\ Auth.clock s' = Auth.clock s
    /\ Auth.refreshCalls s' = (Auth.refreshCalls s + n)%nat
    /\ forall d, ~ In (Auth.Slept d) evs.
Proof.
  revert s installed; induction n as [|n IH]; intros s installed Hpc Hctx Hshort.
  - exists [], s. cbn [repeat Auth.execution].
    split; [reflexivity|]. split; [exact Hpc|]. split; [reflexivity|].
    split; [lia | intros d []].
  - destruct (Hshort (Auth.refreshCalls s)) as (token & ts & Hok & Hts & Hexp).
    assert (Hlive : Auth.ctx_Err (Auth.cancelled env (Auth.selects s))
                      (Auth.GRPCCtx (Auth.svc s)) = None)
      by (rewrite Hctx; reflexivity).
    destruct (refresh_step_without_sleep env respToken s token ts Hpc Hlive Hok Hts Hexp)
      as (s1 & E1 & Hpc1 & Hc1 & Hr1 & _ & Hg1).
    destruct (IH s1 token Hpc1) as (evs & s' & E & Hpc' & Hc' & Hr' & Hns).
    + exact Hg1.
    + rewrite Hc1. exact Hshort.
    + cbn [repeat Auth.execution]. rewrite E1, E.
      eexists; eexists. split; [reflexivity|].
      split; [exact Hpc'|]. split; [congruence|]. split; [lia|].
      intros d [H | [H | H]]; try discriminate. exact (Hns d H).
Qed.

Lemma refresh_spins_on_short_lived_tokens_witness :
  exists evs s',
    Auth.execution Cases.aenv_refreshing Scenario.tokens (repeat Auth.Loop 3)
      Cases.refresher_late = Some (evs, s')
    /\ Auth.clock s' = 90 * Second
    /\ Auth.refreshCalls s' = 3%nat.
Proof.
  destruct (refresh_spins_on_short_lived_tokens Cases.aenv_refreshing Scenario.tokens 3
              Cases.refresher_late Scenario.access1 eq_refl eq_refl)
    as (evs & s' & E & _ & Hc & Hr & _).
  - intros k. exists Scenario.access1. eexists. split; [reflexivity|].
    split; [reflexivity|]. vm_compute. split; discriminate.
  - exists evs, s'. split; [exact E|]. split; [exact Hc | exact Hr].
Defined.

(** X17.  A handshake that succeeds installs the access token together
    with a context made from [context.Background()], whatever context the
    service was created with: afterwards GRPCCtx is live under every
    cancellation, and the refresh goroutine, which watches that context,
    never returns. *)
Theorem handshake_detaches_the_context
  (env : Auth.Env) (role : Auth.Role) (ctx : Auth.Context)
  (a : Auth.AuthenticationService) (respToken : Auth.GenerateAuthTokensResponse) :
  Auth.handshake env role (Auth.NewAuthenticationService ctx) = Ok (a, respToken) ->
  stored a = Auth.pair_of (Auth.AccessToken respToken)
  /\ (forall cancelled, Auth.ctx_Err cancelled (Auth.GRPCCtx a) = None)
  /\ (forall moves t0 evs s',
         Auth.execution env respToken moves (Auth.started a t0) = Some (evs, s') ->
         Auth.at_pc s' <> Auth.Exited).
Proof.
  unfold Auth.handshake.
  destruct (Auth.GenerateAuthChallenge env role) as [ch|e|p]; try discriminate.
  destruct (Auth.generateChallengeSignature env _) as [sig|e|p]; try discriminate.
  destruct (Auth.GenerateAuthTokens env _ sig) as [tp|e|p]; try discriminate.
  pose proof (updateAuthorizationMetadata_installs (Auth.AccessToken tp)
                (Auth.NewAuthenticationService ctx)) as (Hg & _).
  destruct (Auth.updateAuthorizationMetadata (Auth.AccessToken tp) _)
    as [[u|e|p] a'] eqn:Eu; try discriminate.
  cbn [snd] in Hg.
  intros H; injection H as <- <-.
  split; [exact (proj1 (updateAuthorizationMetadata_Ok _ _ _ _ Eu))|].
  split; [intros cancelled; rewrite Hg; reflexivity|].
  intros moves t0 evs s' Hex.
  eapply refresh_loop_never_exits; [|exact Hex]. exact Hg.
Qed.

Lemma handshake_detaches_the_context_witness :
  Auth.ctx_Err (fun _ => true)
    (Auth.GRPCCtx (snd (Auth.updateAuthorizationMetadata Scenario.access1
                          (Auth.NewAuthenticationService (Auth.WithCancel 0)))))
  = None.
Proof.
  exact (proj1 (proj2 (handshake_detaches_the_context Cases.aenv_refreshing
                         Auth.Role_SEARCHER (Auth.WithCancel 0) _ _ eq_refl))
           (fun _ => true)).
Defined.

(** X25.  The sleep is computed in int64 nanoseconds: [time.Until] gives
    the nearest Duration when the distance to the expiry does not fit, and
    the subtraction of 15 seconds wraps around.  For an expiry further in
    the future than a Duration can hold the goroutine sleeps the maximum
    Duration less 15 seconds.  For an expiry further in the past than the
    minimum Duration plus 15 seconds, the subtraction wraps to a positive
    value: instead of calling again at once, the goroutine sleeps more than
    the maximum Duration less 15 seconds, about 292 years. *)
Theorem refresh_sleep_outside_the_duration_range
  (env : Auth.Env) (respToken : Auth.GenerateAuthTokensResponse)
  (s : Auth.Refresher) (token : Auth.Token) (ts : Auth.Timestamp) :
  Auth.at_pc s = Auth.AtSelect ->
  Auth.ctx_Err (Auth.cancelled env (Auth.selects s)) (Auth.GRPCCtx (Auth.svc s)) = None ->
  Auth.RefreshAccessToken env (Auth.refreshCalls s)
    (Auth.Value (Auth.RefreshToken respToken)) = Ok token ->
  Auth.ExpiresAtUtc token = Some ts ->
  let tok := Auth.Value (Auth.RefreshToken respToken) in
  (Auth.clock s + maxDuration < expiry token ->
   exists s2,
     Auth.execution env respToken [Auth.Loop; Auth.Loop] s
     = Some ([Auth.CalledRefresh tok; Auth.Installed token;
              Auth.Slept (maxDuration - 15 * Second)], s2)
     /\ Auth.at_pc s2 = Auth.AtSelect
     /\ Auth.clock s2 < expiry token - 15 * Second)
  /\ (expiry token < Auth.clock s + minDuration + 15 * Second ->
      exists d s2,
        Auth.execution env respToken [Auth.Loop; Auth.Loop] s
        = Some ([Auth.CalledRefresh tok; Auth.Installed token; Auth.Slept d], s2)
        /\ maxDuration - 15 * Second < d <= maxDuration
        /\ Auth.at_pc s2 = Auth.AtSelect
        /\ Auth.clock s2 = Auth.clock s + d
        /\ Auth.refreshCalls s2 = S (Auth.refreshCalls s)).
Proof.
  intros Hpc Hctx Hok Hts tok.
  destruct (refresh_step_installs env respToken s token ts Hpc Hctx Hok Hts)
    as (a & E & _).
  split.
  - intros Hfar.
    rewrite sleepDuration_far_future in E by lia.
    replace (_ >? 0) with true in E by (vm_compute; reflexivity).
    cbn [Auth.execution]. rewrite E.
    unfold Auth.refresh_step. cbn [Auth.at_pc Auth.clock Auth.svc app].
    eexists. split; [reflexivity|]. cbn [Auth.at_pc Auth.clock].
    split; [reflexivity | lia].
  - intros Hpast.
    pose proof (sleepDuration_far_past (Auth.clock s) (expiry token)) as Hd.
    specialize (Hd ltac:(lia)).
    set (d := wrap64 (time_Until (Auth.clock s) (expiry token) - 15 * Second)) in *.
    assert (Hpos : 0 < d).
    { unfold maxDuration, Second in Hd.
      change (2 ^ 63) with 9223372036854775808 in Hd. lia. }
    replace (d >? 0) with true in E by (symmetry; rewrite Z.gtb_ltb; apply Z.ltb_lt; lia).
    cbn [Auth.execution]. rewrite E.
    unfold Auth.refresh_step. cbn [Auth.at_pc Auth.clock Auth.svc app].
    exists d. eexists. split; [reflexivity|]. cbn [Auth.at_pc Auth.clock Auth.refreshCalls].
    split; [exact Hd|]. repeat split.
Qed.

Lemma refresh_sleep_outside_the_duration_range_witness :
  exists d s2,
    Auth.execution Cases.aenv_zero_time Scenario.tokens [Auth.Loop; Auth.Loop]
      Scenario.refresher0
    = Some ([Auth.CalledRefresh "r-1"; Auth.Installed Cases.access_zero_time;
             Auth.Slept d], s2)
    /\ maxDuration - 15 * Second < d <= maxDuration.
Proof.
  destruct (refresh_sleep_outside_the_duration_range Cases.aenv_zero_time Scenario.tokens
              Scenario.refresher0 Cases.access_zero_time _ eq_refl eq_refl eq_refl eq_refl)
    as (_ & H).
  destruct H as (d & s2 & E & Hd & _).
  - vm_compute. reflexivity.
  - exists d, s2. split; [exact E | exact Hd].
Defined.

(** X26.  A token without a timestamp stops the authentication.  In the
    handshake, updateAuthorizationMetadata panics on it and
    AuthenticateAndRefresh with it.  In the refresh goroutine the panic
    comes after the call and after the context and the bearer have been
    replaced: the goroutine ends there, with the new bearer beside the
    expiry of the token before, the mutex released, and makes no other
    call. *)
Theorem token_without_timestamp
  (env : Auth.Env) (respToken : Auth.GenerateAuthTokensResponse)
  (s : Auth.Refresher) (token : Auth.Token) :
  Auth.at_pc s = Auth.AtSelect ->
  Auth.ctx_Err (Auth.cancelled env (Auth.selects s)) (Auth.GRPCCtx (Auth.svc s)) = None ->
  Auth.RefreshAccessToken env (Auth.refreshCalls s)
    (Auth.Value (Auth.RefreshToken respToken)) = Ok token ->
  Auth.ExpiresAtUtc token = None ->
  (exists s1,
      Auth.refresh_step env respToken s
      = Some ([Auth.CalledRefresh (Auth.Value (Auth.RefreshToken respToken))], s1)
      /\ Auth.at_pc s1 = Auth.Crashed
      /\ stored (Auth.svc s1) = (Auth.Value token, Auth.ExpiresAt (Auth.svc s))
      /\ Auth.GRPCCtx (Auth.svc s1) = Auth.bearer_metadata token
      /\ Auth.mu (Auth.svc s1) = Auth.mu (Auth.svc s)
      /\ forall n, Auth.execution env respToken (repeat Auth.Loop (S n)) s1 = None)
  /\ (forall role a challenge signature refreshToken,
         Auth.GenerateAuthChallenge env role = Ok challenge ->
         Auth.generateChallengeSignature env
           (Auth.PublicKey_String env +++ "-" +++ challenge) = Ok signature ->
         Auth.GenerateAuthTokens env
           (Auth.PublicKey_String env +++ "-" +++ challenge) signature
         = Ok {| Auth.AccessToken := token; Auth.RefreshToken := refreshToken |} ->
         Auth.handshake env role a = Panic Pkg.nil_panic).
Proof.
  intros Hpc Hctx Hok Hts. split.
  - unfold Auth.refresh_step at 1. rewrite Hpc, Hctx, Hok.
    unfold Auth.updateAuthorizationMetadata. rewrite Hts.
    eexists. split; [reflexivity|]. cbn [Auth.at_pc Auth.svc].
    split; [reflexivity|]. split; [reflexivity|]. split; [reflexivity|].
    split; [reflexivity|]. intros n. cbn [repeat Auth.execution]. reflexivity.
  - intros role a challenge signature refreshToken Hch Hsig Htok.
    unfold Auth.handshake. rewrite Hch, Hsig, Htok. cbn [Auth.AccessToken].
    unfold Auth.updateAuthorizationMetadata. rewrite Hts. reflexivity.
Qed.

Lemma token_without_timestamp_witness :
  exists s1,
    Auth.refresh_step Cases.aenv_bare Scenario.tokens Scenario.refresher0
    = Some ([Auth.CalledRefresh "r-1"], s1)
    /\ Auth.at_pc s1 = Auth.Crashed
    /\ stored (Auth.svc s1) = ("bare", 100).
Proof.
  destruct (token_without_timestamp Cases.aenv_bare Scenario.tokens Scenario.refresher0
              Scenario.access_bare eq_refl eq_refl eq_refl eq_refl)
    as ((s1 & E & Hpc & Hst & _) & _).
  exists s1. split; [exact E|]. split; [exact Hpc | exact Hst].
Defined.

(** ** Tip accounts *)

(** X18.  GetRandomTipAccount passes on the error of GetTipAccounts.  On a
    list of accounts that is not empty it returns one of its members
    ([rand.Intn] draws below the length).  On an empty list [rand.Intn(0)]
    panics: the call returns neither an account nor an error. *)
Theorem GetRandomTipAccount_picks_a_member
  (tipAccounts : outcome (list string)) (draw : nat -> nat) :
  (forall n, (0 < n)%nat -> (draw n < n)%nat) ->
  match tipAccounts with
  | Err e => Tips.GetRandomTipAccount tipAccounts draw = Err e
  | Panic p => Tips.GetRandomTipAccount tipAccounts draw = Panic p
  | Ok [] => Tips.GetRandomTipAccount tipAccounts draw = Panic "invalid argument to Intn"
  | Ok accounts =>
      exists account, Tips.GetRandomTipAccount tipAccounts draw = Ok account
                      /\ In account accounts
  end.
Proof.
  intros Hdraw. destruct tipAccounts as [[|a accounts]|e|p]; try reflexivity.
  unfold Tips.GetRandomTipAccount, Tips.Intn. cbn [List.length Nat.eqb].
  destruct (nth_error (a :: accounts) (draw (S (List.length accounts)))) as [x|] eqn:E.
  - exists x. split; [reflexivity|]. eapply nth_error_In; eauto.
  - apply nth_error_None in E. specialize (Hdraw (S (List.length accounts))).
    cbn [List.length] in E. lia.
Qed.

Lemma GetRandomTipAccount_picks_a_member_witness :
  exists account,
    Tips.GetRandomTipAccount (Ok ["tip-a"; "tip-b"; "tip-c"]) (fun n => Nat.pred n)
    = Ok account
    /\ In account ["tip-a"; "tip-b"; "tip-c"].
Proof.
  apply (GetRandomTipAccount_picks_a_member (Ok ["tip-a"; "tip-b"; "tip-c"])
           (fun n => Nat.pred n)).
  intros n Hn. lia.
Defined.

(** ** A validator without a key pair *)

(** X19.  NewValidator accepts a nil key pair: it then returns a validator
    whose AuthenticationService is nil.  SubscribePackets reads the context
    through that pointer before calling the service, so on such a validator
    it panics with a nil dereference, and OnPacketSubscription with it,
    before any stream is opened.  (NewSearcherClient, for a nil key pair,
    builds a service around the caller's context instead.) *)
Theorem validator_without_key_pair
  (cenv : Conn.Env) (aenv : Auth.Env) (grpcAddr : string)
  (opts : list Conn.DialOption) (v : ValidatorClient.Validator) :
  ValidatorClient.NewValidator cenv aenv grpcAddr None opts = Some (Ok v) ->
  ValidatorClient.AuthenticationService v = None
  /\ (forall (A : Type) (rpc : Auth.Context -> outcome (ValidatorClient.Stream A)),
         ValidatorClient.SubscribePackets rpc v = Panic Pkg.nil_panic
         /\ forall done, ValidatorClient.OnPacketSubscription rpc v done
                         = Panic Pkg.nil_panic)
  /\ (forall subscribe ctx client,
         Searcher.NewSearcherClient cenv aenv subscribe ctx grpcAddr None opts
         = Some (Ok client) ->
         Auth.GRPCCtx (Searcher.AuthenticationService client) = ctx).
Proof.
  unfold ValidatorClient.NewValidator, Searcher.NewSearcherClient.
  destruct (fst (Conn.CreateGRPCConnection cenv grpcAddr opts)) as [conn|e|p];
    try discriminate.
  intros H; injection H as <-. split; [reflexivity|]. split.
  - intros A rpc. split; [reflexivity | intros done; reflexivity].
  - intros subscribe ctx client.
    cbn [Searcher.unauthenticated Auth.GRPCCtx].
    destruct (subscribe ctx); [discriminate|].
    intros H; injection H as <-. reflexivity.
Qed.

Lemma validator_without_key_pair_witness :
  exists v,
    ValidatorClient.NewValidator Scenario.cenv Scenario.aenv "http://localhost" None []
    = Some (Ok v)
    /\ ValidatorClient.SubscribePackets
         (fun _ => Ok Cases.packets_stream) v = Panic Pkg.nil_panic.
Proof.
  eexists. split; [reflexivity|].
  apply (proj1 (proj2 (validator_without_key_pair Scenario.cenv Scenario.aenv
                         "http://localhost" [] _ eq_refl))).
Defined.

(** ** Forwarding a stream *)

Lemma forward_live {A : Type} (sub : ValidatorClient.Stream A) k calls rest :
  (forall i, (i < k)%nat -> deliver (sub (calls + i)%nat) <> None) ->
  exists sent,
    ValidatorClient.forward sub calls (repeat false k ++ true :: rest)
    = (sent, ValidatorClient.Returned)
    /\ map Some sent = map (fun i => deliver (sub i)) (seq calls k).
Proof.
  revert calls; induction k as [|k IH]; intros calls Hok; cbn [repeat app seq map].
  - exists []. split; reflexivity.
  - cbn [ValidatorClient.forward].
    pose proof (Hok 0%nat ltac:(lia)) as H0. rewrite Nat.add_0_r in H0.
    destruct (IH (S calls)) as (sent & E & Hs).
    { intros i Hi. replace (S calls + i)%nat with (calls + S i)%nat by lia.
      apply Hok. lia. }
    destruct (sub calls) as [resp|e|p] eqn:Er; cbn [deliver] in *.
    + rewrite E. eexists. split; [reflexivity|]. cbn [map]. rewrite Hs. reflexivity.
    + rewrite E. eexists. split; [reflexivity|]. cbn [map]. rewrite Hs. reflexivity.
    + contradiction.
Qed.

(** X20.  The goroutine of OnPacketSubscription, over [k] passes with the
    context live and then a pass that finds it done: it makes exactly [k]
    calls of Recv and forwards every result in the order received, a
    response on the updates channel and an error on the error channel; an
    error of Recv does not end it, the cancelled context does, and nothing
    is sent after that. *)
Theorem forwarding_keeps_order
  (A : Type) (rpc : Auth.Context -> outcome (ValidatorClient.Stream A))
  (v : ValidatorClient.Validator) (a : Auth.AuthenticationService)
  (sub : ValidatorClient.Stream A) (k : nat) (rest : list bool) :
  ValidatorClient.AuthenticationService v = Some a ->
  rpc (Auth.GRPCCtx a) = Ok sub ->
  (forall i, (i < k)%nat -> deliver (sub i) <> None) ->
  exists sent,
    ValidatorClient.OnPacketSubscription rpc v (repeat false k ++ true :: rest)
    = Ok (sent, ValidatorClient.Returned)
    /\ map Some sent = map (fun i => deliver (sub i)) (seq 0 k)
    /\ List.length sent = k.
Proof.
  intros Ha Hrpc Hok.
  unfold ValidatorClient.OnPacketSubscription, ValidatorClient.SubscribePackets.
  rewrite Ha, Hrpc.
  destruct (forward_live sub k 0%nat rest Hok) as (sent & E & Hs).
  exists sent. rewrite E. split; [reflexivity|]. split; [exact Hs|].
  apply (f_equal (@List.length _)) in Hs.
  rewrite !length_map, length_seq in Hs. exact Hs.
Qed.

Lemma forwarding_keeps_order_witness :
  exists sent,
    ValidatorClient.OnPacketSubscription (fun _ => Ok Cases.packets_stream)
      Cases.validator [false; false; false; true; false]
    = Ok (sent, ValidatorClient.Returned)
    /\ List.length sent = 3%nat.
Proof.
  destruct (forwarding_keeps_order string (fun _ => Ok Cases.packets_stream)
              Cases.validator (Auth.NewAuthenticationService Auth.Background)
              Cases.packets_stream 3 [false] eq_refl eq_refl)
    as (sent & E & _ & Hl).
  - intros i Hi. destruct i as [|[|[|i]]]; cbn; discriminate.
  - exists sent. split; [exact E | exact Hl].
Defined.

(** ** The account filters of a geyser stream client *)

Lemma lookup_delete_same m k : Geyser.lookup (Geyser.delete m k) k = None.
Proof.
  induction m as [|[k' v] m IH]; [reflexivity|]. cbn [Geyser.delete].
  destruct (String.eqb k k') eqn:E; [exact IH|].
  cbn [Geyser.lookup]. rewrite E. exact IH.
Qed.

Lemma lookup_delete_other m k k' :
  k' <> k -> Geyser.lookup (Geyser.delete m k) k' = Geyser.lookup m k'.
Proof.
  intros Hne. induction m as [|[k0 v] m IH]; [reflexivity|]. cbn [Geyser.delete].
  destruct (String.eqb k k0) eqn:E.
  - apply String.eqb_eq in E. subst k0. cbn [Geyser.lookup].
    apply String.eqb_neq in Hne. rewrite Hne. exact IH.
  - cbn [Geyser.lookup]. rewrite IH. reflexivity.
Qed.

Lemma lookup_store_same m k v : Geyser.lookup (Geyser.store m k v) k = v.
Proof. unfold Geyser.store. cbn [Geyser.lookup]. rewrite String.eqb_refl. reflexivity. Qed.

Lemma lookup_store_other m k v k' :
  k' <> k -> Geyser.lookup (Geyser.store m k v) k' = Geyser.lookup m k'.
Proof.
  intros Hne. unfold Geyser.store. cbn [Geyser.lookup].
  pose proof Hne as Hne'. apply String.eqb_neq in Hne'. rewrite Hne'.
  apply lookup_delete_other. exact Hne.
Qed.

Lemma delete_absent m k : ~ has_key m k -> Geyser.delete m k = m.
Proof.
  unfold has_key. induction m as [|[k' v] m IH]; [reflexivity|]. cbn [map fst In Geyser.delete].
  intros H. destruct (String.eqb_spec k k') as [->|Hne].
  - exfalso. apply H. left. reflexivity.
  - rewrite IH; [reflexivity|]. intros Hin. apply H. right. exact Hin.
Qed.

Lemma delete_store m k v : Geyser.delete (Geyser.store m k v) k = Geyser.delete m k.
Proof.
  unfold Geyser.store. cbn [Geyser.delete]. rewrite String.eqb_refl.
  induction m as [|[k' w] m IH]; [reflexivity|]. cbn [Geyser.delete].
  destruct (String.eqb k k') eqn:E; [exact IH|].
  cbn [Geyser.delete]. rewrite E, IH. reflexivity.
Qed.

(** X21.  A stream client without a SubscribeRequest cannot change its
    account filters: SubscribeAccounts, AppendAccounts,
    UnsubscribeAccountsByID and UnsubscribeAccounts (of at least one
    account) dereference the nil request and panic before anything is
    sent.  The default stream client that NewClient builds is such a client;
    the clients of NewSubscribeClient are not. *)
Theorem stream_client_without_request
  (send : Geyser.Sender) (s : Geyser.StreamClient) (filterName : string)
  (req : option Geyser.FilterAccounts) (account : string) (accounts : list string) :
  Geyser.Request s = None ->
  Geyser.SubscribeAccounts send filterName req s = (Panic Pkg.nil_panic, s)
  /\ Geyser.AppendAccounts send filterName accounts s = (Panic Pkg.nil_panic, s)
  /\ Geyser.UnsubscribeAccountsByID send filterName s = (Panic Pkg.nil_panic, s)
  /\ Geyser.UnsubscribeAccounts send filterName (account :: accounts) s
     = (Panic Pkg.nil_panic, s)
  /\ Geyser.Request Geyser.default_stream_client = None
  /\ Geyser.Request Geyser.new_stream_client <> None.
Proof.
  intros H.
  unfold Geyser.SubscribeAccounts, Geyser.AppendAccounts,
    Geyser.UnsubscribeAccountsByID, Geyser.UnsubscribeAccounts.
  rewrite H. repeat split; discriminate.
Qed.

Lemma stream_client_without_request_witness :
  Geyser.SubscribeAccounts (fun _ => None) "wallets"
    (Some {| Geyser.Account := ["w1"]; Geyser.Owner := [] |})
    Geyser.default_stream_client
  = (Panic Pkg.nil_panic, Geyser.default_stream_client).
Proof.
  exact (proj1 (stream_client_without_request (fun _ => None)
                  Geyser.default_stream_client "wallets" _ "w1" [] eq_refl)).
Defined.

(** X22.  SubscribeAccounts changes the local request before it sends it.
    Whatever Send returns, the filter is then stored under its name, the
    other filters are as before, and the request that went out is the
    changed one; the call returns the error of Send.  Undoing it with
    UnsubscribeAccountsByID gives back the filters there were, when the
    name was new. *)
Theorem SubscribeAccounts_stores_before_sending
  (send : Geyser.Sender) (s : Geyser.StreamClient) (r : Geyser.SubscribeRequest)
  (filterName : string) (req : option Geyser.FilterAccounts) :
  Geyser.Request s = Some r ->
  exists r',
    Geyser.SubscribeAccounts send filterName req s
    = (match send (List.length (Geyser.sent s)) with
       | Some e => Err e
       | None => Ok tt
       end,
       {| Geyser.Request := Some r'; Geyser.sent := Geyser.sent s ++ [Some r'];
          Geyser.ErrCh := Geyser.ErrCh s |})
    /\ Geyser.lookup (Geyser.Accounts r') filterName = req
    /\ (forall k, k <> filterName ->
                  Geyser.lookup (Geyser.Accounts r') k = Geyser.lookup (Geyser.Accounts r) k)
    /\ (~ has_key (Geyser.Accounts r) filterName ->
        forall send',
          Geyser.Request
            (snd (Geyser.UnsubscribeAccountsByID send' filterName
                    (snd (Geyser.SubscribeAccounts send filterName req s))))
          = Some r).
Proof.
  intros Hr. exists {| Geyser.Accounts := Geyser.store (Geyser.Accounts r) filterName req |}.
  unfold Geyser.SubscribeAccounts, Geyser.Send. rewrite Hr. cbn [Geyser.Accounts].
  split; [destruct (send _); reflexivity|].
  split; [apply lookup_store_same|].
  split; [intros k Hk; apply lookup_store_other; exact Hk|].
  intros Hnew send'.
  unfold Geyser.UnsubscribeAccountsByID, Geyser.Send.
  destruct (send _); cbn [snd Geyser.Request Geyser.Accounts];
    destruct (send' _); cbn [snd Geyser.Request];
    rewrite delete_store, (delete_absent _ _ Hnew); destruct r; reflexivity.
Qed.

Lemma SubscribeAccounts_stores_before_sending_witness :
  exists r',
    Geyser.SubscribeAccounts Cases.broken "wallets"
      (Some {| Geyser.Account := ["w1"]; Geyser.Owner := [] |})
      Geyser.new_stream_client
    = (Err (foreign "EOF"),
       {| Geyser.Request := Some r'; Geyser.sent := [Some r'];
          Geyser.ErrCh := make_chan 10 |})
    /\ Geyser.lookup (Geyser.Accounts r') "wallets"
       = Some {| Geyser.Account := ["w1"]; Geyser.Owner := [] |}.
Proof.
  destruct (SubscribeAccounts_stores_before_sending Cases.broken Geyser.new_stream_client
              {| Geyser.Accounts := [] |} "wallets"
              (Some {| Geyser.Account := ["w1"]; Geyser.Owner := [] |}) eq_refl)
    as (r' & E & Hl & _).
  exists r'. split; [exact E | exact Hl].
Defined.










